(** * Supplier recommendation and proposal scoring: a shallow embedding

    The development follows [src/backend/app/services/recomendador.py]
    (class [RecomendadorFornecedores]) and two tasks of
    [src/backend/app/worker/tasks.py]: [calculate_supplier_scores], with its
    scoring loop, and [data_retention_cleanup].

    Conventions of the embedding.
    - Python [str] is [string]; a character is a code point below 256
      (Latin-1), classified as Python's Unicode tables classify it.
    - Python [float] is modelled by exact numbers: rationals [Q] for the
      proposal scorer and the evaluation metrics, reals [R] for embedding
      vectors and cosine similarities (a norm is a square root).
    - A method of the class is a computation over the pair of the instance
      ([self]) and the world (files, clock, logger, model hub), that either
      returns a value or raises an exception.
    - What the libraries leave open is a parameter, held by the world: the
      pretrained sentence model and whether it loads, the fitting of the
      TF-IDF vectorizer, and NumPy's index sort, bound by its contract.
      scikit-learn's cosine similarity is written out.
    - A task is a function from the database, the lists of the rows of its
      tables, to the dictionary it returns and the database it leaves.

    The first part holds the definitions, the second the properties. *)

From Stdlib Require Import List ZArith QArith Qminmax Bool Ascii String.
From Stdlib Require Import Lia Psatz Reals Permutation Sorted.
Import ListNotations.

Set Implicit Arguments.

(** ** Exceptions and results *)

(** The Python exceptions the modelled code can meet. All are subclasses of
    [Exception] but the last, which stands for a [BaseException] that is
    no [Exception]. *)
Inductive Excecao : Type :=
| TypeError
| ValueError
| KeyError
| ZeroDivisionError
| NotFittedError
| FileNotFoundError
| UnpicklingError
| OSError
| SystemExit.

(** [isinstance(x, Exception)]. *)
Definition eh_exception (x : Excecao) : bool :=
  match x with
  | SystemExit => false
  | _ => true
  end.

(** What a call does: it returns a value or raises. *)
Inductive Resultado (A : Type) : Type :=
| Retorno (a : A)
| Levanta (e : Excecao).

Arguments Retorno {A} a.
Arguments Levanta {A} e.

(** ** Text normaliser: [preprocessar_texto] *)

Module Texto.

Local Open Scope nat_scope.

Definition entre (a b n : nat) : bool := (a <=? n) && (n <=? b).

(** [\s] of a [str] pattern, which is [str.isspace]: TAB..CR, FS..US, the
    space, NEL and the no-break space. *)
Definition eh_espaco (c : ascii) : bool :=
  let n := nat_of_ascii c in
  entre 9 13 n || entre 28 32 n || (n =? 133) || (n =? 160).

(** [\d] of a [str] pattern: the decimal digits. *)
Definition eh_digito (c : ascii) : bool := entre 48 57 (nat_of_ascii c).

(** Upper-case letters, the ones [str.lower] changes. *)
Definition eh_maiuscula (c : ascii) : bool :=
  let n := nat_of_ascii c in
  entre 65 90 n || entre 192 214 n || entre 216 222 n.

(** Lower-case letters: a-z, the micro sign, sharp s, and the accented ones. *)
Definition eh_minuscula (c : ascii) : bool :=
  let n := nat_of_ascii c in
  entre 97 122 n || (n =? 181) || entre 223 246 n || entre 248 255 n.

(** [str.isalpha]: cased letters and the two ordinal indicators. *)
Definition eh_letra (c : ascii) : bool :=
  let n := nat_of_ascii c in
  eh_maiuscula c || eh_minuscula c || (n =? 170) || (n =? 186).

(** [\w] of a [str] pattern: [str.isalnum] or the underscore. Besides letters
    and decimal digits, [isalnum] holds of the superscript digits and of the
    vulgar fractions. *)
Definition eh_palavra (c : ascii) : bool :=
  let n := nat_of_ascii c in
  eh_letra c || eh_digito c || (n =? 95)
  || (n =? 178) || (n =? 179) || (n =? 185) || entre 188 190 n.

(** [str.lower], one character at a time. *)
Definition minuscula (c : ascii) : ascii :=
  if eh_maiuscula c then ascii_of_nat (nat_of_ascii c + 32) else c.

Fixpoint lower (s : string) : string :=
  match s with
  | EmptyString => EmptyString
  | String c r => String (minuscula c) (lower r)
  end.

(** [re.sub(r'[^\w\s]', ' ', s)]: every character outside the class becomes
    one space. *)
Fixpoint sub_especiais (s : string) : string :=
  match s with
  | EmptyString => EmptyString
  | String c r =>
      String (if eh_palavra c || eh_espaco c then c else " "%char)
             (sub_especiais r)
  end.

(** [re.sub(p+, ' ', s)] for a character class [p]: every maximal run of
    characters of the class becomes one space. [dentro] tells that the
    previous character belonged to a run. *)
Fixpoint sub_sequencias (p : ascii -> bool) (dentro : bool) (s : string)
  : string :=
  match s with
  | EmptyString => EmptyString
  | String c r =>
      if p c then
        if dentro then sub_sequencias p true r
        else String " "%char (sub_sequencias p true r)
      else String c (sub_sequencias p false r)
  end.

Fixpoint lstrip (s : string) : string :=
  match s with
  | EmptyString => EmptyString
  | String c r => if eh_espaco c then lstrip r else s
  end.

Fixpoint rstrip (s : string) : string :=
  match s with
  | EmptyString => EmptyString
  | String c r =>
      match rstrip r with
      | EmptyString => if eh_espaco c then EmptyString else String c EmptyString
      | r' => String c r'
      end
  end.

Definition strip (s : string) : string := rstrip (lstrip s).

(** [RecomendadorFornecedores.preprocessar_texto]. *)
Definition preprocessar_texto (texto : string) : string :=
  match texto with
  | EmptyString => EmptyString
  | _ =>
      let texto := lower texto in
      let texto := sub_especiais texto in
      let texto := sub_sequencias eh_digito false texto in
      strip (sub_sequencias eh_espaco false texto)
  end.

(** [" ".join(partes)]. *)
Fixpoint join_espaco (partes : list string) : string :=
  match partes with
  | [] => EmptyString
  | [p] => p
  | p :: r => String.append p (String " "%char (join_espaco r))
  end.

(** *** The normal form *)

(** Every character of the text satisfies [p]. *)
Fixpoint todos (p : ascii -> bool) (s : string) : bool :=
  match s with
  | EmptyString => true
  | String c r => p c && todos p r
  end.

Definition eh_branco (c : ascii) : bool := Ascii.eqb c " ".

(** A character of a normal form: the space, or a word character that is
    neither a decimal digit nor upper case. *)
Definition car_normal (c : ascii) : bool :=
  eh_branco c
  || (eh_palavra c && negb (eh_digito c) && negb (eh_maiuscula c)
      && negb (eh_espaco c)).

(** The characters after [lower] and the first substitution. *)
Definition car_2 (c : ascii) : bool :=
  (eh_palavra c || eh_espaco c) && negb (eh_maiuscula c).

(** No space follows a space, [anterior] telling whether a space came just
    before. *)
Fixpoint sem_duplos (anterior : bool) (s : string) : bool :=
  match s with
  | EmptyString => true
  | String c r =>
      if eh_branco c then negb anterior && sem_duplos true r
      else sem_duplos false r
  end.

(** The same, and the text does not end with a space. *)
Fixpoint espacos_simples (anterior : bool) (s : string) : bool :=
  match s with
  | EmptyString => negb anterior
  | String c r =>
      if eh_branco c then negb anterior && espacos_simples true r
      else espacos_simples false r
  end.

(** A normal form: normal characters, and spaces only one at a time between
    other characters. *)
Definition forma_normal (s : string) : bool :=
  todos car_normal s
  && match s with
     | EmptyString => true
     | _ => espacos_simples true s
     end.

End Texto.

(** ** Proposal scorer: the loop body of [calculate_supplier_scores] *)

Module Pontuacao.

Local Open Scope Q_scope.

(** The columns the scorer reads. [Licitacao.valor_estimado] is
    [Column(Float, nullable=True)], [Proposta.valor] is a non-null [Float],
    [Proposta.prazo_entrega] a non-null [Integer], and
    [Fornecedor.avaliacao_media] a non-null [Float]. *)
Record Proposta : Type := { valor : Q; prazo_entrega : Z }.
Record Fornecedor : Type := { avaliacao_media : Q }.
Record Licitacao : Type := { valor_estimado : option Q }.

(** Python's [min(a, b)] and [max(a, b)]: the first argument wins a tie. *)
Definition py_min (a b : Q) : Q := if Qlt_le_dec b a then b else a.
Definition py_max (a b : Q) : Q := if Qlt_le_dec a b then b else a.

Definition preco_peso : Q := 0.5.
Definition prazo_peso : Q := 0.3.
Definition avaliacao_peso : Q := 0.2.

(** [preco_score]: lines 210-211. Comparing [None] with [0] raises. *)
Definition preco_score (p : Proposta) (l : Licitacao) : Resultado Q :=
  match valor_estimado l with
  | None => Levanta TypeError
  | Some est =>
      let s := if Qlt_le_dec 0 est
               then 100 - (valor p / est * 100)
               else 50 in
      Retorno (py_max 0 (py_min 100 s))
  end.

(** [prazo_score]: lines 213-214. *)
Definition prazo_score (p : Proposta) : Q :=
  let s := if Z_lt_dec 0 (prazo_entrega p)
           then 100 - (inject_Z (prazo_entrega p) / 30 * 100)
           else 50 in
  py_max 0 (py_min 100 s).

(** [avaliacao_score]: line 216. *)
Definition avaliacao_score (f : Fornecedor) : Q := avaliacao_media f * 20.

(** [pontuacao]: lines 209-228, the value stored in [proposta.pontuacao_ia]. *)
Definition pontuacao (p : Proposta) (f : Fornecedor) (l : Licitacao)
  : Resultado Q :=
  match preco_score p l with
  | Levanta e => Levanta e
  | Retorno preco =>
      Retorno (preco * preco_peso
               + prazo_score p * prazo_peso
               + avaliacao_score f * avaliacao_peso)
  end.

(** The scorer as the specification words it (section 4.5), to be compared
    with the code above. *)
Definition clamp (x lo hi : Q) : Q := Qmax lo (Qmin x hi).

Definition fator_preco_spec (value estimated : Q) : Q :=
  if Qlt_le_dec 0 estimated
  then clamp (100 - value / estimated * 100) 0 100
  else 50.

Definition fator_prazo_spec (delivery_days : Z) : Q :=
  if Z_lt_dec 0 delivery_days
  then clamp (100 - inject_Z delivery_days / 30 * 100) 0 100
  else 50.

Definition fator_avaliacao_spec (average_rating : Q) : Q := average_rating * 20.

Definition score_spec (value : Q) (delivery_days : Z)
  (average_rating estimated : Q) : Q :=
  0.5 * fator_preco_spec value estimated
  + 0.3 * fator_prazo_spec delivery_days
  + 0.2 * fator_avaliacao_spec average_rating.

(** The same with an estimated value that may be absent: "if
    [bid_estimated_value] is zero or absent, price factor defaults to 50". *)
Definition fator_preco_spec_opt (value : Q) (estimated : option Q) : Q :=
  match estimated with
  | Some e => fator_preco_spec value e
  | None => 50
  end.

Definition score_spec_opt (value : Q) (delivery_days : Z)
  (average_rating : Q) (estimated : option Q) : Q :=
  0.5 * fator_preco_spec_opt value estimated
  + 0.3 * fator_prazo_spec delivery_days
  + 0.2 * fator_avaliacao_spec average_rating.

End Pontuacao.

(** ** Similarity ranker: cosine similarity, [argsort] and the top slice *)

Module Similaridade.

Local Open Scope R_scope.

Definition Vec : Type := list R.
Definition Matriz : Type := list Vec.

Fixpoint dot (u v : Vec) : R :=
  match u, v with
  | x :: u', y :: v' => x * y + dot u' v'
  | _, _ => 0
  end.

Definition norma (u : Vec) : R := sqrt (dot u u).

(** [sklearn.preprocessing.normalize] with the l2 norm: a row is divided by
    its norm, and a zero norm is replaced by one. *)
Definition escala (u : Vec) : R :=
  if Req_dec_T (norma u) 0 then 1 else norma u.

Definition normalize (u : Vec) : Vec := map (fun x => x / escala u) u.

(** One entry of [cosine_similarity]: the dot product of the normalised rows. *)
Definition cosseno (u v : Vec) : R := dot (normalize u) (normalize v).

(** [sklearn.metrics.pairwise.cosine_similarity(x, Y)[0]] for a single row
    [x]. The library checks its arguments first: it refuses an empty [Y], a
    row without features, and rows whose length differs from that of [x]. *)
Definition cosine_similarity (x : Vec) (Y : Matriz) : Resultado (list R) :=
  match Y with
  | [] => Levanta ValueError
  | _ =>
      if negb (List.length x =? 0)%nat
         && forallb (fun y => (List.length y =? List.length x)%nat) Y
      then Retorno (map (cosseno x) Y)
      else Levanta ValueError
  end.

(** [ndarray.argsort] is NumPy's. The service relies on its contract: the
    result holds every index of the array once, in an order that makes the
    values ascend. NumPy promises no order among equal values (its default
    kind is not stable), so the index sort is a parameter of the ranker,
    [np_argsort] of the world below. [argsort_estavel] is one sort that
    meets the contract: the stable insertion sort, which is what NumPy's
    scalar code runs on a short array. All of it is generic in the values
    and their strict order [ltb]. *)
Section ArgSort.

Variable A : Type.
Variable ltb : A -> A -> bool.

Fixpoint insere (x : nat * A) (l : list (nat * A)) : list (nat * A) :=
  match l with
  | [] => [x]
  | y :: r => if ltb (snd y) (snd x) then y :: insere x r else x :: y :: r
  end.

Fixpoint ordena (l : list (nat * A)) : list (nat * A) :=
  match l with
  | [] => []
  | x :: r => insere x (ordena r)
  end.

Definition enumerate (l : list A) : list (nat * A) :=
  combine (seq 0 (List.length l)) l.

Definition argsort_estavel (l : list A) : list nat :=
  map fst (ordena (enumerate l)).

(** [l[inicio:]], Python's slice with an open end: a negative start counts
    from the end, and a start out of range is clipped. *)
Definition slice_from (B : Type) (inicio : Z) (l : list B) : list B :=
  let n := Z.of_nat (List.length l) in
  let i := if (inicio <? 0)%Z then Z.max 0 (inicio + n) else Z.min inicio n in
  skipn (Z.to_nat i) l.

(** [similaridades.argsort()[-top_n:][::-1]], line 176. *)
Definition indices_top (argsort : list A -> list nat)
  (similaridades : list A) (top_n : Z) : list nat :=
  rev (slice_from (- top_n) (argsort similaridades)).

(** The value at [i] is not above the value at [j]. *)
Definition sobe (l : list A) (d : A) (i j : nat) : Prop :=
  ltb (nth j l d) (nth i l d) = false.

(** The contract of [argsort]. *)
Definition contrato_argsort (argsort : list A -> list nat) : Prop :=
  forall l,
    Permutation (argsort l) (seq 0 (List.length l))
    /\ forall d, StronglySorted (sobe l d) (argsort l).

(** The order a stable sort establishes on the pairs: ascending values, and
    ascending indices among equal values. *)
Definition antes (x y : nat * A) : Prop :=
  ltb (snd y) (snd x) = false
  /\ (ltb (snd x) (snd y) = true \/ (fst x < fst y)%nat).

(** The same order on the indices of an array [l]: [i] comes before [j]
    when its value is smaller, or equal with [i < j]. *)
Definition antes_idx (l : list A) (d : A) (i j : nat) : Prop :=
  ltb (nth j l d) (nth i l d) = false
  /\ (ltb (nth i l d) (nth j l d) = true \/ (i < j)%nat).

(** A stable [argsort]: one that also keeps equal values in index order. *)
Definition estavel (argsort : list A -> list nat) : Prop :=
  forall l d, StronglySorted (antes_idx l d) (argsort l).

End ArgSort.

(** The strict order of the similarities. *)
Definition Rltb (x y : R) : bool := if Rlt_dec x y then true else false.

End Similaridade.

(** ** Recommendation model: [RecomendadorFornecedores] *)

Module Servico.

Import Similaridade.

(** A supplier or bid record: a [dict] from field names to texts. *)
Definition Registro : Type := list (string * string).

(** [d.get(k)]. *)
Fixpoint get_opt (d : Registro) (k : string) : option string :=
  match d with
  | [] => None
  | (k', v) :: r => if String.eqb k' k then Some v else get_opt r k
  end.

(** [d.get(k, padrao)]. *)
Definition get (d : Registro) (k padrao : string) : string :=
  match get_opt d k with Some v => v | None => padrao end.

(** A loaded [SentenceTransformer]: [encode] of one text. *)
Definition Encoder : Type := string -> Vec.

(** A [TfidfVectorizer]: not fitted, or fitted, and then [transform] of one
    text is a function of the fitted vocabulary and weights. *)
Record TfidfVectorizer : Type := { ajustado : option (string -> Vec) }.

(** The [dict] that [salvar_modelo] pickles. A file written by something
    else may lack a key (the outer [None]). *)
Record ModeloDados : Type := {
  md_fornecedores_vetores : option Matriz;
  md_fornecedores_dados : option (list Registro);
  md_vectorizer : option TfidfVectorizer;
  md_ultimo_treinamento : option (option nat) }.

(** What [joblib.load] finds at a path that exists: a file that is no
    pickle; a pickle whose loading runs code that leaves the interpreter
    (a [__reduce__] that calls [sys.exit]); a pickle of an object that
    cannot be subscripted with a string, such as a number or a list; or a
    pickle of a mapping, which may lack keys. *)
Inductive Arquivo : Type :=
| Corrompido
| Hostil
| OutroObjeto
| Pickle (d : ModeloDados).

Inductive Nivel : Type := INFO | WARNING | ERROR.

(** The logger's messages, one constructor per call site. *)
Inductive Mensagem : Type :=
| MsgStCarregado
| MsgErroCarregarSt (e : Excecao)
| MsgUsandoTfidf
| MsgNenhumFornecedor
| MsgIniciandoTreinamento (n : nat)
| MsgGerandoEmbeddingsSt
| MsgGerandoEmbeddingsTfidf
| MsgTreinamentoConcluido
| MsgModeloNaoTreinado
| MsgGerandoRecomendacoes (titulo : string)
| MsgGeradas (n : nat)
| MsgModeloSalvo (caminho : string)
| MsgErroSalvar (e : Excecao)
| MsgModeloCarregado (caminho : string)
| MsgDataUltimoTreinamento (t : nat)
| MsgErroCarregar (e : Excecao)
| MsgTamanhosDiferentes
| MsgAvaliacaoConcluida.

(** The world outside the instance. [hub n] is the outcome of the attempt to
    load the pretrained sentence model made after [n] earlier attempts;
    [tfidf_fit] is scikit-learn's fitting of the vectorizer on a corpus, which
    may refuse it; [np_argsort] is NumPy's index sort of an array of
    similarities. *)
Record Mundo : Type := {
  arquivos : string -> option Arquivo;
  gravavel : string -> bool;
  relogio : nat;
  hub : nat -> option Encoder;
  tentativas_st : nat;
  tfidf_fit : list string -> option (string -> Vec);
  np_argsort : list R -> list nat;
  log : list (Nivel * Mensagem) }.

(** The attributes of an instance ([self.modelo] is never read). *)
Record Recomendador : Type := {
  modelo_path : option string;
  vectorizer : TfidfVectorizer;
  sentence_transformer : option Encoder;
  fornecedores_vetores : option Matriz;
  fornecedores_dados : option (list Registro);
  ultimo_treinamento : option nat }.

Record Estado : Type := { self : Recomendador; mundo : Mundo }.

(** One entry of the list [recomendar] returns. *)
Record Recomendacao : Type := {
  fornecedor : Registro;
  pontuacao : R;
  ranking : nat }.

(** The [dict] [avaliar_recomendacoes] returns: empty, or the three means. *)
Inductive Avaliacao : Type :=
| SemMetricas
| Metricas (precisao_media recall_medio f1_medio : Q).

(** *** The monad of a method call *)

Definition M (A : Type) : Type := Estado -> Resultado A * Estado.

Definition ret (A : Type) (a : A) : M A := fun e => (Retorno a, e).

Definition bind (A B : Type) (c : M A) (k : A -> M B) : M B :=
  fun e =>
    match c e with
    | (Retorno a, e') => k a e'
    | (Levanta x, e') => (Levanta x, e')
    end.

Definition raise (A : Type) (x : Excecao) : M A := fun e => (Levanta x, e).

Arguments raise {A} x.

(** [try: c except Exception as x: h x]. What [c] changed before it raised
    stays changed, and what is no [Exception] is not caught. *)
Definition tentar (A : Type) (c : M A) (h : Excecao -> M A) : M A :=
  fun e =>
    match c e with
    | (Retorno a, e') => (Retorno a, e')
    | (Levanta x, e') =>
        if eh_exception x then h x e' else (Levanta x, e')
    end.

Declare Scope metodo_scope.
Delimit Scope metodo_scope with metodo.
Notation "x <- c ;; k" := (bind c (fun x => k))
  (at level 61, c at next level, right associativity) : metodo_scope.
Notation "c ;; k" := (bind c (fun _ => k))
  (at level 61, right associativity) : metodo_scope.
Local Open Scope metodo_scope.

Definition obter_self : M Recomendador := fun e => (Retorno (self e), e).
Definition obter_mundo : M Mundo := fun e => (Retorno (mundo e), e).

Definition atribuir (f : Recomendador -> Recomendador) : M unit :=
  fun e => (Retorno tt, {| self := f (self e); mundo := mundo e |}).

Definition alterar_mundo (f : Mundo -> Mundo) : M unit :=
  fun e => (Retorno tt, {| self := self e; mundo := f (mundo e) |}).

(** *** Attribute assignments *)

Definition set_vectorizer (v : TfidfVectorizer) (s : Recomendador) :=
  {| modelo_path := modelo_path s; vectorizer := v;
     sentence_transformer := sentence_transformer s;
     fornecedores_vetores := fornecedores_vetores s;
     fornecedores_dados := fornecedores_dados s;
     ultimo_treinamento := ultimo_treinamento s |}.

Definition set_sentence_transformer (t : option Encoder) (s : Recomendador) :=
  {| modelo_path := modelo_path s; vectorizer := vectorizer s;
     sentence_transformer := t;
     fornecedores_vetores := fornecedores_vetores s;
     fornecedores_dados := fornecedores_dados s;
     ultimo_treinamento := ultimo_treinamento s |}.

Definition set_fornecedores_vetores (v : option Matriz) (s : Recomendador) :=
  {| modelo_path := modelo_path s; vectorizer := vectorizer s;
     sentence_transformer := sentence_transformer s;
     fornecedores_vetores := v;
     fornecedores_dados := fornecedores_dados s;
     ultimo_treinamento := ultimo_treinamento s |}.

Definition set_fornecedores_dados (d : option (list Registro))
  (s : Recomendador) :=
  {| modelo_path := modelo_path s; vectorizer := vectorizer s;
     sentence_transformer := sentence_transformer s;
     fornecedores_vetores := fornecedores_vetores s;
     fornecedores_dados := d;
     ultimo_treinamento := ultimo_treinamento s |}.

Definition set_ultimo_treinamento (t : option nat) (s : Recomendador) :=
  {| modelo_path := modelo_path s; vectorizer := vectorizer s;
     sentence_transformer := sentence_transformer s;
     fornecedores_vetores := fornecedores_vetores s;
     fornecedores_dados := fornecedores_dados s;
     ultimo_treinamento := t |}.

(** *** The world's operations *)

Definition com_log (l : list (Nivel * Mensagem)) (w : Mundo) : Mundo :=
  {| arquivos := arquivos w; gravavel := gravavel w; relogio := relogio w;
     hub := hub w; tentativas_st := tentativas_st w;
     tfidf_fit := tfidf_fit w; np_argsort := np_argsort w; log := l |}.

Definition com_relogio (t : nat) (w : Mundo) : Mundo :=
  {| arquivos := arquivos w; gravavel := gravavel w; relogio := t;
     hub := hub w; tentativas_st := tentativas_st w;
     tfidf_fit := tfidf_fit w; np_argsort := np_argsort w; log := log w |}.

Definition com_tentativas (n : nat) (w : Mundo) : Mundo :=
  {| arquivos := arquivos w; gravavel := gravavel w; relogio := relogio w;
     hub := hub w; tentativas_st := n;
     tfidf_fit := tfidf_fit w; np_argsort := np_argsort w; log := log w |}.

Definition com_arquivo (caminho : string) (a : Arquivo) (w : Mundo) : Mundo :=
  {| arquivos := fun c => if String.eqb c caminho then Some a else arquivos w c;
     gravavel := gravavel w; relogio := relogio w;
     hub := hub w; tentativas_st := tentativas_st w;
     tfidf_fit := tfidf_fit w; np_argsort := np_argsort w; log := log w |}.

(** [logger.info], [logger.warning], [logger.error]. *)
Definition logger (n : Nivel) (m : Mensagem) : M unit :=
  alterar_mundo (fun w => com_log (log w ++ [(n, m)]) w).

(** [datetime.now()]: reads the clock, which then moves on. *)
Definition datetime_now : M nat :=
  w <- obter_mundo ;;
  alterar_mundo (com_relogio (S (relogio w))) ;;
  ret (relogio w).

(** [SentenceTransformer('distiluse-base-multilingual-cased-v1')]: one more
    attempt on the hub, which gives the model or raises. *)
Definition SentenceTransformer : M Encoder :=
  w <- obter_mundo ;;
  alterar_mundo (com_tentativas (S (tentativas_st w))) ;;
  match hub w (tentativas_st w) with
  | Some enc => ret enc
  | None => raise OSError
  end.

(** [joblib.dump(modelo_dados, caminho)]. *)
Definition joblib_dump (d : ModeloDados) (caminho : string) : M unit :=
  w <- obter_mundo ;;
  if gravavel w caminho
  then alterar_mundo (com_arquivo caminho (Pickle d))
  else raise OSError.

(** [joblib.load(caminho)]. *)
Definition joblib_load (caminho : string) : M Arquivo :=
  w <- obter_mundo ;;
  match arquivos w caminho with
  | None => raise FileNotFoundError
  | Some Corrompido => raise UnpicklingError
  | Some Hostil => raise SystemExit
  | Some a => ret a
  end.

(** [modelo_dados[chave]] on what was loaded: a missing key raises
    [KeyError], an object that cannot be subscripted with a string raises
    [TypeError]. *)
Definition subscrito (A : Type) (a : Arquivo)
  (chave : ModeloDados -> option A) : M A :=
  match a with
  | Pickle d =>
      match chave d with
      | Some v => ret v
      | None => raise KeyError
      end
  | _ => raise TypeError
  end.

(** [modelo_dados.get('ultimo_treinamento')]. *)
Definition get_ultimo_treinamento (a : Arquivo) : M (option nat) :=
  match a with
  | Pickle d =>
      match md_ultimo_treinamento d with
      | Some t => ret t
      | None => ret None
      end
  | _ => raise TypeError
  end.

(** [self.vectorizer.fit_transform(textos)]: fits the vectorizer in place
    and returns the rows of the corpus. scikit-learn replaces the inner
    [TfidfTransformer] before it counts the terms, so a fit that is refused
    leaves the vectorizer not fitted, whatever it was before. *)
Definition fit_transform (textos : list string) : M Matriz :=
  w <- obter_mundo ;;
  match tfidf_fit w textos with
  | Some f =>
      atribuir (set_vectorizer {| ajustado := Some f |}) ;;
      ret (map f textos)
  | None =>
      atribuir (set_vectorizer {| ajustado := None |}) ;;
      raise ValueError
  end.

(** [self.vectorizer.transform([texto])]. *)
Definition transform (texto : string) : M Vec :=
  s <- obter_self ;;
  match ajustado (vectorizer s) with
  | Some f => ret (f texto)
  | None => raise NotFittedError
  end.

(** Lifts a library call that returns or raises. *)
Definition chamar (A : Type) (r : Resultado A) : M A := fun e => (r, e).

(** *** The methods of the class *)

Definition sem_titulo : string :=
  String.append "Sem t" (String (ascii_of_nat 237) "tulo").

(** The attributes as [__init__] sets them. *)
Definition novo (caminho : option string) : Recomendador :=
  {| modelo_path := caminho;
     vectorizer := {| ajustado := None |};
     sentence_transformer := None;
     fornecedores_vetores := None;
     fornecedores_dados := None;
     ultimo_treinamento := None |}.

(** The text of a supplier, lines 110-117. *)
Definition texto_fornecedor (f : Registro) : string :=
  Texto.preprocessar_texto
    (Texto.join_espaco
       [get f "razao_social" ""; get f "descricao" "";
        get f "area_atuacao" ""; get f "especialidades" "";
        get f "palavras_chave" ""]).

(** The text of a bid, lines 156-162. *)
Definition texto_licitacao (l : Registro) : string :=
  Texto.preprocessar_texto
    (Texto.join_espaco
       [get l "titulo" ""; get l "descricao" "";
        get l "objeto" ""; get l "palavras_chave" ""]).

Definition _inicializar_sentence_transformer : M unit :=
  tentar
    (enc <- SentenceTransformer ;;
     atribuir (set_sentence_transformer (Some enc)) ;;
     logger INFO MsgStCarregado)
    (fun x =>
       logger ERROR (MsgErroCarregarSt x) ;;
       logger INFO MsgUsandoTfidf ;;
       atribuir (set_sentence_transformer None)).

Definition treinar (fornecedores : list Registro) : M unit :=
  match fornecedores with
  | [] => logger WARNING MsgNenhumFornecedor
  | _ =>
      logger INFO (MsgIniciandoTreinamento (List.length fornecedores)) ;;
      let textos := map texto_fornecedor fornecedores in
      s <- obter_self ;;
      match sentence_transformer s with
      | None => _inicializar_sentence_transformer
      | Some _ => ret tt
      end ;;
      s <- obter_self ;;
      match sentence_transformer s with
      | Some enc =>
          logger INFO MsgGerandoEmbeddingsSt ;;
          atribuir (set_fornecedores_vetores (Some (map enc textos)))
      | None =>
          logger INFO MsgGerandoEmbeddingsTfidf ;;
          X <- fit_transform textos ;;
          atribuir (set_fornecedores_vetores (Some X))
      end ;;
      atribuir (set_fornecedores_dados (Some fornecedores)) ;;
      t <- datetime_now ;;
      atribuir (set_ultimo_treinamento (Some t)) ;;
      logger INFO MsgTreinamentoConcluido
  end.

(** The loop of lines 179-187: [i] is the position in [indices_top]. *)
Fixpoint montar (dados : list Registro) (similaridades : list R) (i : nat)
  (indices : list nat) : list Recomendacao :=
  match indices with
  | [] => []
  | idx :: r =>
      match nth_error dados idx with
      | Some f =>
          {| fornecedor := f;
             pontuacao := (nth idx similaridades 0 * 100)%R;
             ranking := i + 1 |} :: montar dados similaridades (S i) r
      | None => montar dados similaridades (S i) r
      end
  end.

Definition recomendar (licitacao : Registro) (top_n : Z)
  : M (list Recomendacao) :=
  s <- obter_self ;;
  match fornecedores_vetores s, fornecedores_dados s with
  | Some vetores, Some dados =>
      logger INFO
        (MsgGerandoRecomendacoes (get licitacao "titulo" sem_titulo)) ;;
      let texto := texto_licitacao licitacao in
      similaridades <-
        match sentence_transformer s with
        | Some enc => chamar (cosine_similarity (enc texto) vetores)
        | None =>
            vetor_licitacao <- transform texto ;;
            chamar (cosine_similarity vetor_licitacao vetores)
        end ;;
      w <- obter_mundo ;;
      let indices := indices_top (np_argsort w) similaridades top_n in
      let recomendacoes := montar dados similaridades 0 indices in
      logger INFO (MsgGeradas (List.length recomendacoes)) ;;
      ret recomendacoes
  | _, _ =>
      logger ERROR MsgModeloNaoTreinado ;;
      ret []
  end.

Definition salvar_modelo (caminho : string) : M unit :=
  s <- obter_self ;;
  match fornecedores_vetores s, fornecedores_dados s with
  | Some vetores, Some dados =>
      tentar
        (joblib_dump
           {| md_fornecedores_vetores := Some vetores;
              md_fornecedores_dados := Some dados;
              md_vectorizer := Some (vectorizer s);
              md_ultimo_treinamento := Some (ultimo_treinamento s) |}
           caminho ;;
         logger INFO (MsgModeloSalvo caminho))
        (fun x => logger ERROR (MsgErroSalvar x))
  | _, _ => logger ERROR MsgModeloNaoTreinado
  end.

Definition carregar_modelo (caminho : string) : M unit :=
  tentar
    (modelo_dados <- joblib_load caminho ;;
     v <- subscrito modelo_dados md_fornecedores_vetores ;;
     atribuir (set_fornecedores_vetores (Some v)) ;;
     d <- subscrito modelo_dados md_fornecedores_dados ;;
     atribuir (set_fornecedores_dados (Some d)) ;;
     z <- subscrito modelo_dados md_vectorizer ;;
     atribuir (set_vectorizer z) ;;
     t <- get_ultimo_treinamento modelo_dados ;;
     atribuir (set_ultimo_treinamento t) ;;
     logger INFO (MsgModeloCarregado caminho) ;;
     match t with
     | Some t' => logger INFO (MsgDataUltimoTreinamento t')
     | None => ret tt
     end)
    (fun x => logger ERROR (MsgErroCarregar x)).

(** [__init__]: lines 36-51. *)
Definition init (caminho : option string) : M unit :=
  atribuir (fun _ => novo caminho) ;;
  match caminho with
  | Some c =>
      w <- obter_mundo ;;
      match c, arquivos w c with
      | String _ _, Some _ => carregar_modelo c
      | _, _ => ret tt
      end
  | None => ret tt
  end.

(** *** Evaluation *)

Definition eqb_id (a b : option string) : bool :=
  match a, b with
  | Some x, Some y => String.eqb x y
  | None, None => true
  | _, _ => false
  end.

(** [set(l)] as the list of the distinct elements of [l]. *)
Fixpoint distintos (l : list (option string)) : list (option string) :=
  match l with
  | [] => []
  | x :: r => if existsb (eqb_id x) r then distintos r else x :: distintos r
  end.

(** [len(set(ids_recomendados).intersection(set(ids_corretos)))]. *)
Definition relevantes_recomendados (ids_recomendados : list (option string))
  (ids_corretos : list string) : nat :=
  List.length
    (filter (fun x => existsb (eqb_id x) (map Some ids_corretos))
            (distintos ids_recomendados)).

Definition razao (n m : nat) : Q :=
  (inject_Z (Z.of_nat n) / inject_Z (Z.of_nat m))%Q.

(** The loop of lines 257-274 over the bids and their expected suppliers,
    which have equal lengths there; the totals are the accumulators. *)
Fixpoint laco_avaliacao (pares : list (Registro * list string))
  (totais : Q * Q * Q) : M (Q * Q * Q) :=
  match pares with
  | [] => ret totais
  | (licitacao, ids_corretos) :: r =>
      recomendacoes <- recomendar licitacao 10 ;;
      let ids_recomendados :=
        map (fun rec => get_opt (fornecedor rec) "id") recomendacoes in
      let n := relevantes_recomendados ids_recomendados ids_corretos in
      let precisao :=
        match ids_recomendados with
        | [] => 0%Q
        | _ => razao n (List.length ids_recomendados)
        end in
      let recall :=
        match ids_corretos with
        | [] => 0%Q
        | _ => razao n (List.length ids_corretos)
        end in
      let f1 :=
        if Qlt_le_dec 0 (precisao + recall)
        then (2 * (precisao * recall) / (precisao + recall))%Q
        else 0%Q in
      let '(precisao_total, recall_total, f1_total) := totais in
      laco_avaliacao r
        ((precisao_total + precisao)%Q, (recall_total + recall)%Q,
         (f1_total + f1)%Q)
  end.

Definition avaliar_recomendacoes (licitacoes_teste : list Registro)
  (fornecedores_corretos : list (list string)) : M Avaliacao :=
  if negb (List.length licitacoes_teste
           =? List.length fornecedores_corretos)%nat
  then
    logger ERROR MsgTamanhosDiferentes ;;
    ret SemMetricas
  else
    totais <- laco_avaliacao (combine licitacoes_teste fornecedores_corretos)
                (0%Q, 0%Q, 0%Q) ;;
    let '(precisao_total, recall_total, f1_total) := totais in
    let num_testes := List.length licitacoes_teste in
    match num_testes with
    | O => raise ZeroDivisionError
    | _ =>
        let d := inject_Z (Z.of_nat num_testes) in
        logger INFO MsgAvaliacaoConcluida ;;
        ret (Metricas (precisao_total / d) (recall_total / d) (f1_total / d))
    end.

(** The state a call leaves, and what it returned or raised. *)
Definition apos (A : Type) (c : M A) (e : Estado) : Estado := snd (c e).
Definition resultado (A : Type) (c : M A) (e : Estado) : Resultado A :=
  fst (c e).

(** *** The state Trained *)

(** The vector the instance gives a text: the sentence model's when one is
    held, else the fitted vectorizer's. *)
Definition embute (s : Recomendador) (texto : string) : option Vec :=
  match sentence_transformer s with
  | Some enc => Some (enc texto)
  | None =>
      match ajustado (vectorizer s) with
      | Some f => Some (f texto)
      | None => None
      end
  end.

(** The instance holds a corpus: [N >= 1] vectors [V] aligned with the
    records [D], all of one dimension [d >= 1], which is also the dimension
    of the vectors the instance gives to texts. This is the state [treinar]
    leaves, the embedders being functions into one vector space. *)
Definition Treinado (s : Recomendador) (V : Matriz) (D : list Registro)
  (d : nat) : Prop :=
  fornecedores_vetores s = Some V
  /\ fornecedores_dados s = Some D
  /\ List.length V = List.length D
  /\ V <> []
  /\ d <> O
  /\ Forall (fun v => List.length v = d) V
  /\ forall texto, exists q, embute s texto = Some q /\ List.length q = d.

(** The state Untrained: no corpus is held. *)
Definition NaoTreinado (s : Recomendador) : Prop :=
  fornecedores_vetores s = None \/ fornecedores_dados s = None.

End Servico.

(** ** Concrete worlds and records *)

Module Exemplo.

Import Similaridade Servico.

Local Open Scope string_scope.

Definition fornecedor_alfa : Registro :=
  [("id", "1"); ("razao_social", "Alfa")].
Definition fornecedor_beta : Registro :=
  [("id", "2"); ("razao_social", "Beta")].
Definition fornecedor_gama : Registro :=
  [("id", "3"); ("razao_social", "Gama")].

Definition licitacao_alfa : Registro := [("id", "7"); ("titulo", "Alfa")].
Definition licitacao_beta : Registro := [("id", "8"); ("titulo", "Beta")].

(** A sentence model with one feature: the text "alfa" points one way and
    every other text the opposite way. *)
Definition enc_sinal : Encoder :=
  fun t => if String.eqb t "alfa" then [1%R] else [(-1)%R].

(** A fitted vectorizer with one feature. *)
Definition tfidf_unitario : string -> Vec := fun _ => [1%R].

(** A world where the sentence model loads. *)
Definition mundo_st : Mundo :=
  {| arquivos := fun _ => None;
     gravavel := fun _ => true;
     relogio := 0;
     hub := fun _ => Some enc_sinal;
     tentativas_st := 0;
     tfidf_fit := fun _ => Some tfidf_unitario;
     np_argsort := argsort_estavel Rltb;
     log := [] |}.

(** A world where the sentence model never loads. *)
Definition mundo_sem_st : Mundo :=
  {| arquivos := fun _ => None;
     gravavel := fun _ => true;
     relogio := 0;
     hub := fun _ => None;
     tentativas_st := 0;
     tfidf_fit := fun _ => Some tfidf_unitario;
     np_argsort := argsort_estavel Rltb;
     log := [] |}.

(** A fresh instance in each world. *)
Definition estado_st : Estado := {| self := novo None; mundo := mundo_st |}.
Definition estado_sem_st : Estado :=
  {| self := novo None; mundo := mundo_sem_st |}.

(** The sentence model loaded, one supplier trained. *)
Definition estado_beta : Estado := apos (treinar [fornecedor_beta]) estado_st.

(** The sentence model loaded, two suppliers with equal vectors trained. *)
Definition estado_beta_gama : Estado :=
  apos (treinar [fornecedor_beta; fornecedor_gama]) estado_st.

(** Two suppliers that share a word, and the vectorizer fitted on them and
    [fornecedor_gama]: with [min_df = 2] its only feature is that word. *)
Definition fornecedor_alfa_servicos : Registro :=
  [("id", "4"); ("razao_social", "Alfa Servicos")].
Definition fornecedor_beta_servicos : Registro :=
  [("id", "5"); ("razao_social", "Beta Servicos")].

Definition tfidf_servicos : string -> Vec :=
  fun t => match String.index 0 "servicos" t with
           | Some _ => [1%R]
           | None => [0%R]
           end.

(** A world where the sentence model fails to load once and loads from the
    second attempt on. *)
Definition mundo_st_tardio : Mundo :=
  {| arquivos := fun _ => None;
     gravavel := fun _ => true;
     relogio := 0;
     hub := fun n => match n with O => None | S _ => Some enc_sinal end;
     tentativas_st := 0;
     tfidf_fit := fun _ => Some tfidf_servicos;
     np_argsort := argsort_estavel Rltb;
     log := [] |}.

Definition estado_st_tardio : Estado :=
  {| self := novo None; mundo := mundo_st_tardio |}.

(** [estado_beta] saved, and the file loaded by a fresh instance. *)
Definition estado_salvo : Estado :=
  apos (salvar_modelo "modelo.joblib") estado_beta.

Definition estado_carregado : Estado :=
  apos (carregar_modelo "modelo.joblib")
       {| self := novo None; mundo := mundo estado_salvo |}.

(** A file written by something else: a [dict] with the vectors only. *)
Definition dict_incompleto : ModeloDados :=
  {| md_fornecedores_vetores := Some [[1%R]; [1%R]];
     md_fornecedores_dados := None;
     md_vectorizer := None;
     md_ultimo_treinamento := None |}.

Definition estado_com_dict_incompleto : Estado :=
  {| self := self estado_beta;
     mundo := com_arquivo "outro.joblib" (Pickle dict_incompleto)
                (mundo estado_beta) |}.

(** The sentence model unavailable: one supplier trained with TF-IDF, and
    the instance that training leaves. *)
Definition estado_tfidf : Estado :=
  apos (treinar [fornecedor_alfa]) estado_sem_st.

Definition recomendador_tfidf : Recomendador :=
  {| modelo_path := None;
     vectorizer := {| ajustado := Some tfidf_unitario |};
     sentence_transformer := None;
     fornecedores_vetores := Some [[1%R]];
     fornecedores_dados := Some [fornecedor_alfa];
     ultimo_treinamento := Some O |}.

(** A world where no embedder is to be had: the sentence model never
    loads and the vectorizer refuses every corpus. *)
Definition mundo_sem_embedder : Mundo :=
  {| arquivos := fun _ => None;
     gravavel := fun _ => true;
     relogio := 0;
     hub := fun _ => None;
     tentativas_st := 0;
     tfidf_fit := fun _ => None;
     np_argsort := argsort_estavel Rltb;
     log := [] |}.


End Exemplo.

(** ** Background tasks

    [calculate_supplier_scores] and [data_retention_cleanup] of
    [worker/tasks.py], over the tables they read and write. A row carries
    its keys and the columns the tasks read or assign; the other columns,
    and the timestamps the ORM sets by itself ([updated_at]), are left out.
    Keys are UUIDs, written as strings; a [DateTime] is a number of
    microseconds. The session ([SessionLocal], no autocommit) holds the
    changed rows until [db.commit()]; an exception before it leaves them
    unwritten, [db.close()] dropping them. Failures of the database itself
    are outside the model. *)

Module Tarefa.

Import Pontuacao.

(** [User]: [is_active] and [last_login] are nullable. *)
Record LinhaUsuario : Type := {
  usuario_id : string;
  email : string;
  nome : string;
  is_active : option bool;
  last_login : option Z
}.

Record LinhaLicitacao : Type := {
  licitacao_id : string;
  licitacao_colunas : Licitacao;
  created_at : Z
}.

Record LinhaFornecedor : Type := {
  fornecedor_id : string;
  fornecedor_colunas : Fornecedor
}.

Record LinhaProposta : Type := {
  proposta_licitacao_id : string;
  proposta_fornecedor_id : string;
  proposta_colunas : Proposta;
  pontuacao_ia : option Q
}.

Record Banco : Type := {
  usuarios : list LinhaUsuario;
  licitacoes : list LinhaLicitacao;
  fornecedores : list LinhaFornecedor;
  propostas : list LinhaProposta
}.

(** The dictionary the task returns: [status] is ["success"] or ["error"],
    [message] the exception caught. *)
Inductive ResultadoTarefa : Type :=
| Sucesso (id : string) (propostas_processadas : nat)
| Erro (id : string) (message : Excecao).

Inductive MensagemTarefa : Type :=
| MsgIniciandoCalculo (id : string)
| MsgCalculoConcluido (id : string)
| MsgErroCalculo (e : Excecao)
| MsgIniciandoLimpeza
| MsgLimpezaConcluida (usuarios_anonimizados licitacoes_excluidas : nat)
| MsgErroLimpeza (e : Excecao).

Record Saida : Type := {
  retorno : ResultadoTarefa;
  banco : Banco;
  registro : list (Servico.Nivel * MensagemTarefa)
}.

(** [db.query(Licitacao).filter(Licitacao.id == licitacao_id).first()]. *)
Definition buscar_licitacao (db : Banco) (id : string)
  : option LinhaLicitacao :=
  find (fun l => String.eqb (licitacao_id l) id) (licitacoes db).

(** [db.query(Fornecedor).filter(Fornecedor.id == ...).first()]. *)
Definition buscar_fornecedor (db : Banco) (id : string)
  : option LinhaFornecedor :=
  find (fun f => String.eqb (fornecedor_id f) id) (fornecedores db).

(** [licitacao.propostas]: the rows whose foreign key is the bid's id. *)
Definition da_licitacao (id : string) (p : LinhaProposta) : bool :=
  String.eqb (proposta_licitacao_id p) id.

Definition propostas_de (db : Banco) (l : LinhaLicitacao)
  : list LinhaProposta :=
  filter (da_licitacao (licitacao_id l)) (propostas db).

(** [proposta.pontuacao_ia = pontuacao]. *)
Definition com_pontuacao (p : LinhaProposta) (s : Q) : LinhaProposta :=
  {| proposta_licitacao_id := proposta_licitacao_id p;
     proposta_fornecedor_id := proposta_fornecedor_id p;
     proposta_colunas := proposta_colunas p;
     pontuacao_ia := Some s |}.

(** The loop of lines 199-232, returning the rows as the session holds them
    after it; a proposal whose supplier is not found is skipped. *)
Fixpoint laco_propostas (db : Banco) (l : Licitacao)
  (ps : list LinhaProposta) : Resultado (list LinhaProposta) :=
  match ps with
  | [] => Retorno []
  | p :: resto =>
      match buscar_fornecedor db (proposta_fornecedor_id p) with
      | None =>
          match laco_propostas db l resto with
          | Levanta e => Levanta e
          | Retorno novas => Retorno (p :: novas)
          end
      | Some f =>
          match pontuacao (proposta_colunas p) (fornecedor_colunas f) l with
          | Levanta e => Levanta e
          | Retorno s =>
              match laco_propostas db l resto with
              | Levanta e => Levanta e
              | Retorno novas => Retorno (com_pontuacao p s :: novas)
              end
          end
      end
  end.

(** [db.commit()] of updated rows: the rows that a query selected are
    written back in their places, in the order the query gave them. *)
Fixpoint regravar (A : Type) (selecionada : A -> bool)
  (tabela novas : list A) : list A :=
  match tabela with
  | [] => []
  | p :: resto =>
      if selecionada p
      then match novas with
           | n :: ns => n :: regravar selecionada resto ns
           | [] => p :: regravar selecionada resto []
           end
      else p :: regravar selecionada resto novas
  end.

Definition calculate_supplier_scores (id : string) (db : Banco) : Saida :=
  let inicio := [(Servico.INFO, MsgIniciandoCalculo id)] in
  match buscar_licitacao db id with
  | None =>
      {| retorno := Erro id ValueError;
         banco := db;
         registro := inicio ++ [(Servico.ERROR, MsgErroCalculo ValueError)] |}
  | Some l =>
      let ps := propostas_de db l in
      match laco_propostas db (licitacao_colunas l) ps with
      | Levanta e =>
          {| retorno := Erro id e;
             banco := db;
             registro := inicio ++ [(Servico.ERROR, MsgErroCalculo e)] |}
      | Retorno novas =>
          {| retorno := Sucesso id (List.length ps);
             banco := {| usuarios := usuarios db;
                         licitacoes := licitacoes db;
                         fornecedores := fornecedores db;
                         propostas :=
                           regravar (da_licitacao (licitacao_id l))
                             (propostas db) novas |};
             registro := inicio ++ [(Servico.INFO, MsgCalculoConcluido id)] |}
      end
  end.

(** What the task leaves of a row [p] in [p']: the same row, or the same row
    with a score. *)
Definition mesma_proposta (p p' : LinhaProposta) : Prop :=
  proposta_licitacao_id p' = proposta_licitacao_id p
  /\ proposta_fornecedor_id p' = proposta_fornecedor_id p
  /\ proposta_colunas p' = proposta_colunas p.

(** What the loop does to each row, when it ends. *)
Definition pontuada (db : Banco) (l : Licitacao) (p p' : LinhaProposta)
  : Prop :=
  match buscar_fornecedor db (proposta_fornecedor_id p) with
  | None => p' = p
  | Some f =>
      exists s,
        pontuacao (proposta_colunas p) (fornecedor_colunas f) l = Retorno s
        /\ p' = com_pontuacao p s
  end.


(** *** [data_retention_cleanup], lines 257-321 *)

(** The defaults of [core/config.py]. *)
Definition DATA_ANONYMIZATION_MONTHS : Z := 6.
Definition DATA_DELETION_YEARS : Z := 5.

(** [timedelta(days=n)]. *)
Definition timedelta_days (n : Z) : Z := (n * 86400000000)%Z.

(** The filter of lines 279-282. In SQL a comparison with NULL selects
    nothing: a user who never logged in, or whose [is_active] is NULL, is
    not among the inactive ones. *)
Definition inativo (data_anonimizacao : Z) (u : LinhaUsuario) : bool :=
  match last_login u, is_active u with
  | Some t, Some true => (t <? data_anonimizacao)%Z
  | _, _ => false
  end.

(** Lines 286-288. *)
Definition anonimizar (u : LinhaUsuario) : LinhaUsuario :=
  {| usuario_id := usuario_id u;
     email := String.append "anonimo_"
                (String.append (usuario_id u) "@example.com");
     nome := String.append "Usu"
               (String (ascii_of_nat 225)
                  (String.append "rio Anonimizado " (usuario_id u)));
     is_active := Some false;
     last_login := last_login u |}.

(** The loop of lines 284-290, with its counter. *)
Fixpoint laco_anonimizar (us : list LinhaUsuario) (usuarios_anonimizados : nat)
  : list LinhaUsuario * nat :=
  match us with
  | [] => ([], usuarios_anonimizados)
  | u :: resto =>
      let '(novos, n) := laco_anonimizar resto (S usuarios_anonimizados) in
      (anonimizar u :: novos, n)
  end.

(** The filter of lines 294-296. *)
Definition antiga (data_exclusao : Z) (l : LinhaLicitacao) : bool :=
  (created_at l <? data_exclusao)%Z.

(** The loop of lines 298-300: the ids of the bids handed to [db.delete],
    with its counter. *)
Fixpoint laco_excluir (ls : list LinhaLicitacao) (licitacoes_excluidas : nat)
  : list string * nat :=
  match ls with
  | [] => ([], licitacoes_excluidas)
  | l :: resto =>
      let '(ids, n) := laco_excluir resto (S licitacoes_excluidas) in
      (licitacao_id l :: ids, n)
  end.

Definition excluida (ids : list string) (id : string) : bool :=
  existsb (String.eqb id) ids.

Inductive ResultadoLimpeza : Type :=
| SucessoLimpeza (usuarios_anonimizados licitacoes_excluidas : nat)
| ErroLimpeza (message : Excecao).

Record SaidaLimpeza : Type := {
  retorno_limpeza : ResultadoLimpeza;
  banco_limpeza : Banco;
  registro_limpeza : list (Servico.Nivel * MensagemTarefa)
}.

(** [agora_1] and [agora_2] are the two readings of [datetime.utcnow()].
    The commit writes the anonymised rows back, removes the bids deleted
    and, the relationship [Licitacao.propostas] cascading, their
    proposals. *)
Definition data_retention_cleanup (agora_1 agora_2 : Z) (db : Banco)
  : SaidaLimpeza :=
  let data_anonimizacao :=
    (agora_1 - timedelta_days (30 * DATA_ANONYMIZATION_MONTHS))%Z in
  let data_exclusao :=
    (agora_2 - timedelta_days (365 * DATA_DELETION_YEARS))%Z in
  let usuarios_inativos :=
    filter (inativo data_anonimizacao) (usuarios db) in
  let '(novos, usuarios_anonimizados) :=
    laco_anonimizar usuarios_inativos 0 in
  let licitacoes_antigas := filter (antiga data_exclusao) (licitacoes db) in
  let '(ids, licitacoes_excluidas) := laco_excluir licitacoes_antigas 0 in
  {| retorno_limpeza :=
       SucessoLimpeza usuarios_anonimizados licitacoes_excluidas;
     banco_limpeza :=
       {| usuarios :=
            regravar (inativo data_anonimizacao) (usuarios db) novos;
          licitacoes :=
            filter (fun l => negb (excluida ids (licitacao_id l)))
                   (licitacoes db);
          fornecedores := fornecedores db;
          propostas :=
            filter (fun p => negb (excluida ids (proposta_licitacao_id p)))
                   (propostas db) |};
     registro_limpeza :=
       [(Servico.INFO, MsgIniciandoLimpeza);
        (Servico.INFO,
         MsgLimpezaConcluida usuarios_anonimizados licitacoes_excluidas)] |}.

(** The two limits of a run. *)
Definition limite_anonimizacao (agora_1 : Z) : Z :=
  (agora_1 - timedelta_days (30 * DATA_ANONYMIZATION_MONTHS))%Z.
Definition limite_exclusao (agora_2 : Z) : Z :=
  (agora_2 - timedelta_days (365 * DATA_DELETION_YEARS))%Z.

(** Every proposal belongs to a bid of the database. *)
Definition integridade (db : Banco) : Prop :=
  forall p, In p (propostas db) ->
            exists l, In l (licitacoes db)
                      /\ licitacao_id l = proposta_licitacao_id p.

End Tarefa.

(** A database for the tasks: bid [L1] has an estimated value and two
    proposals, one of them of a supplier that no longer exists; bid [L2] has
    no estimated value. User [U1] logged in long ago, user [U2] never. *)
Module ExemploTarefa.

Import Pontuacao Tarefa.

Local Open Scope string_scope.

Definition licitacao_L1 : LinhaLicitacao :=
  {| licitacao_id := "L1";
     licitacao_colunas := {| valor_estimado := Some 100%Q |};
     created_at := 0 |}.

Definition licitacao_L2 : LinhaLicitacao :=
  {| licitacao_id := "L2";
     licitacao_colunas := {| valor_estimado := None |};
     created_at := 200000000000000000 |}.

Definition banco_exemplo : Banco :=
  {| usuarios :=
       [{| usuario_id := "U1"; email := "ana@example.org"; nome := "Ana";
           is_active := Some true; last_login := Some 0%Z |};
        {| usuario_id := "U2"; email := "rui@example.org"; nome := "Rui";
           is_active := Some true; last_login := None |}];
     licitacoes := [licitacao_L1; licitacao_L2];
     fornecedores :=
       [{| fornecedor_id := "F1";
           fornecedor_colunas := {| avaliacao_media := 4%Q |} |}];
     propostas :=
       [{| proposta_licitacao_id := "L1"; proposta_fornecedor_id := "F1";
           proposta_colunas := {| valor := 50%Q; prazo_entrega := 15%Z |};
           pontuacao_ia := None |};
        {| proposta_licitacao_id := "L2"; proposta_fornecedor_id := "F1";
           proposta_colunas := {| valor := 10%Q; prazo_entrega := 5%Z |};
           pontuacao_ia := None |};
        {| proposta_licitacao_id := "L1"; proposta_fornecedor_id := "F9";
           proposta_colunas := {| valor := 80%Q; prazo_entrega := 10%Z |};
           pontuacao_ia := Some 7%Q |}] |}.

End ExemploTarefa.

(** * Properties *)

Unset Implicit Arguments.

Import Similaridade.

(** ** The index sort *)

Section ArgSortProps.

Local Open Scope nat_scope.

Variable A : Type.
Variable ltb : A -> A -> bool.

Lemma insere_perm (x : nat * A) (l : list (nat * A)) :
  Permutation (insere ltb x l) (x :: l).
Proof.
  induction l as [|y r IH]; simpl; [reflexivity|].
  destruct (ltb (snd y) (snd x)); [|reflexivity].
  rewrite IH. apply perm_swap.
Qed.

Lemma ordena_perm (l : list (nat * A)) : Permutation (ordena ltb l) l.
Proof.
  induction l as [|x r IH]; simpl; [reflexivity|].
  rewrite insere_perm. now constructor.
Qed.

Lemma fst_enumerate_from (l : list A) (i : nat) :
  map fst (combine (seq i (List.length l)) l) = seq i (List.length l).
Proof.
  revert i; induction l as [|a r IH]; intros i; simpl; [reflexivity|].
  now rewrite IH.
Qed.

Lemma snd_enumerate_from (l : list A) (i : nat) :
  map snd (combine (seq i (List.length l)) l) = l.
Proof.
  revert i; induction l as [|a r IH]; intros i; simpl; [reflexivity|].
  now rewrite IH.
Qed.

Lemma argsort_estavel_perm (l : list A) :
  Permutation (argsort_estavel ltb l) (seq 0 (List.length l)).
Proof.
  unfold argsort_estavel, enumerate.
  rewrite <- (fst_enumerate_from l 0) at 2.
  apply Permutation_map, ordena_perm.
Qed.

Lemma argsort_estavel_length (l : list A) :
  List.length (argsort_estavel ltb l) = List.length l.
Proof.
  rewrite (Permutation_length (argsort_estavel_perm l)). apply length_seq.
Qed.

Lemma argsort_estavel_in (l : list A) (i : nat) :
  In i (argsort_estavel ltb l) <-> i < List.length l.
Proof.
  split; intros H.
  - apply (Permutation_in _ (argsort_estavel_perm l)) in H.
    apply in_seq in H. lia.
  - apply (Permutation_in _ (Permutation_sym (argsort_estavel_perm l))).
    apply in_seq. lia.
Qed.

Lemma argsort_estavel_NoDup (l : list A) : NoDup (argsort_estavel ltb l).
Proof.
  apply (Permutation_NoDup (Permutation_sym (argsort_estavel_perm l))),
    seq_NoDup.
Qed.

(** Every pair the sort handles is an entry of the array. *)
Lemma enumerate_from_nth (l : list A) (i : nat) (p : nat * A) (d : A) :
  In p (combine (seq i (List.length l)) l) ->
  i <= fst p /\ nth (fst p - i) l d = snd p.
Proof.
  revert i; induction l as [|a r IH]; intros i; simpl; [tauto|].
  intros [<-|H]; simpl.
  - rewrite Nat.sub_diag. split; [lia|reflexivity].
  - apply IH in H. destruct H as [H1 H2]. split; [lia|].
    replace (fst p - i) with (S (fst p - S i)) by lia. exact H2.
Qed.

Lemma ordena_nth (l : list A) (p : nat * A) (d : A) :
  In p (ordena ltb (enumerate l)) -> nth (fst p) l d = snd p.
Proof.
  intros H. apply (Permutation_in _ (ordena_perm _)) in H.
  apply enumerate_from_nth with (d := d) in H.
  now rewrite Nat.sub_0_r in H.
Qed.

Hypothesis ltb_asym : forall a b, ltb a b = true -> ltb b a = false.
Hypothesis ltb_negtrans :
  forall a b c, ltb a b = false -> ltb b c = false -> ltb a c = false.

Lemma insere_in (x y : nat * A) (l : list (nat * A)) :
  In y (insere ltb x l) <-> y = x \/ In y l.
Proof.
  split; intros H.
  - apply (Permutation_in _ (insere_perm x l)) in H. simpl in H. intuition.
  - apply (Permutation_in _ (Permutation_sym (insere_perm x l))).
    simpl. intuition.
Qed.

Lemma insere_sorted (x : nat * A) (l : list (nat * A)) :
  StronglySorted (antes ltb) l ->
  Forall (fun y => fst x < fst y) l ->
  StronglySorted (antes ltb) (insere ltb x l).
Proof.
  induction l as [|y r IH]; intros Hs Hi; simpl.
  - repeat constructor.
  - inversion Hs as [|? ? Hr Hy]; subst. inversion Hi as [|? ? Hxy Hir]; subst.
    destruct (ltb (snd y) (snd x)) eqn:E.
    + constructor; [now apply IH|].
      apply Forall_forall. intros z Hz. apply insere_in in Hz.
      destruct Hz as [->|Hz].
      * split; [now apply ltb_asym|now left].
      * rewrite Forall_forall in Hy. now apply Hy.
    + constructor; [assumption|].
      constructor; [split; [assumption|now right]|].
      rewrite Forall_forall in Hy, Hir |- *. intros z Hz.
      split; [|right; now apply Hir].
      apply ltb_negtrans with (b := snd y); [apply (Hy z Hz)|assumption].
Qed.

Lemma ordena_sorted (l : list (nat * A)) :
  StronglySorted (fun x y => fst x < fst y) l ->
  StronglySorted (antes ltb) (ordena ltb l).
Proof.
  induction l as [|x r IH]; intros Hs; simpl; [constructor|].
  inversion Hs as [|? ? Hr Hx]; subst.
  apply insere_sorted; [now apply IH|].
  rewrite Forall_forall in Hx |- *. intros y Hy. apply Hx.
  now apply (Permutation_in _ (ordena_perm r)).
Qed.

Lemma enumerate_from_sorted (l : list A) (i : nat) :
  StronglySorted (fun x y : nat * A => fst x < fst y)
    (combine (seq i (List.length l)) l).
Proof.
  revert i; induction l as [|a r IH]; intros i; simpl; constructor.
  - apply IH.
  - apply Forall_forall. intros p Hp.
    apply enumerate_from_nth with (d := a) in Hp. simpl. lia.
Qed.

Lemma StronglySorted_map (B C : Type) (R : C -> C -> Prop) (f : B -> C)
  (l : list B) :
  StronglySorted (fun x y => R (f x) (f y)) l -> StronglySorted R (map f l).
Proof.
  induction 1 as [|x r Hr IH Hx]; simpl; constructor; [assumption|].
  rewrite Forall_forall in Hx |- *. intros y Hy.
  apply in_map_iff in Hy. destruct Hy as [z [<- Hz]]. now apply Hx.
Qed.

Lemma StronglySorted_weaken (B : Type) (R S : B -> B -> Prop) (l : list B) :
  (forall x y, In x l -> In y l -> R x y -> S x y) ->
  StronglySorted R l -> StronglySorted S l.
Proof.
  intros H Hs. induction Hs as [|x r Hr IH Hx]; constructor.
  - apply IH. intros. apply H; simpl; auto.
  - rewrite Forall_forall in Hx |- *. intros y Hy.
    apply H; simpl; auto.
Qed.

Lemma argsort_estavel_sorted (l : list A) (d : A) :
  StronglySorted (antes_idx ltb l d) (argsort_estavel ltb l).
Proof.
  unfold argsort_estavel. apply StronglySorted_map.
  apply StronglySorted_weaken with (R := antes ltb).
  - intros x y Hx Hy [H1 H2]. unfold antes_idx.
    rewrite (ordena_nth l x d Hx), (ordena_nth l y d Hy). now split.
  - apply ordena_sorted, enumerate_from_sorted.
Qed.

(** The stable sort is stable, and meets the contract of [argsort]. *)
Lemma argsort_estavel_estavel : estavel ltb (argsort_estavel ltb).
Proof. intros l d. apply argsort_estavel_sorted. Qed.

Lemma argsort_estavel_contrato : contrato_argsort ltb (argsort_estavel ltb).
Proof.
  intros l. split; [apply argsort_estavel_perm|].
  intros d. apply StronglySorted_weaken with (R := antes_idx ltb l d).
  - intros x y _ _ [H _]. exact H.
  - apply argsort_estavel_sorted.
Qed.

End ArgSortProps.

(** ** Slices and the top indices *)

Section Fatia.

Local Open Scope nat_scope.

Variable B : Type.

Lemma slice_from_zero (l : list B) : slice_from 0 l = l.
Proof. unfold slice_from. simpl. now destruct (Z.of_nat (List.length l)). Qed.

Lemma slice_from_ultimos (k : Z) (l : list B) :
  (1 <= k)%Z ->
  slice_from (- k) l
  = skipn (List.length l - Nat.min (Z.to_nat k) (List.length l)) l.
Proof.
  intros Hk. unfold slice_from.
  destruct (Z.ltb_spec (- k) 0) as [_|H]; [|lia].
  f_equal. lia.
Qed.

Lemma slice_from_sufixo (i : Z) (l : list B) :
  exists n, slice_from i l = skipn n l.
Proof. unfold slice_from. eexists. reflexivity. Qed.

Lemma skipn_In (n : nat) (l : list B) (x : B) :
  In x (skipn n l) -> In x l.
Proof.
  intros H. rewrite <- (firstn_skipn n l). apply in_or_app. now right.
Qed.

Lemma StronglySorted_skipn (R : B -> B -> Prop) (n : nat) (l : list B) :
  StronglySorted R l -> StronglySorted R (skipn n l).
Proof.
  revert l; induction n as [|n IH]; intros l H; simpl; [assumption|].
  destruct l as [|x r]; [constructor|]. apply IH. now inversion H.
Qed.

Lemma StronglySorted_app (R : B -> B -> Prop) (l1 l2 : list B) :
  StronglySorted R l1 -> StronglySorted R l2 ->
  (forall x y, In x l1 -> In y l2 -> R x y) ->
  StronglySorted R (l1 ++ l2).
Proof.
  induction 1 as [|x r Hr IH Hx]; intros H2 H12; simpl; [assumption|].
  constructor.
  - apply IH; [assumption|]. intros; apply H12; simpl; auto.
  - apply Forall_app. split; [assumption|].
    apply Forall_forall. intros y Hy. apply H12; simpl; auto.
Qed.

Lemma StronglySorted_rev (R : B -> B -> Prop) (l : list B) :
  StronglySorted R l -> StronglySorted (fun x y => R y x) (rev l).
Proof.
  induction 1 as [|x r Hr IH Hx]; simpl; [constructor|].
  apply StronglySorted_app; [assumption|repeat constructor|].
  intros a b Ha [<-|[]]. rewrite Forall_forall in Hx. apply Hx.
  now apply in_rev.
Qed.

(** In a strongly sorted list the element at an earlier position is related
    to the one at a later position. *)
Lemma StronglySorted_nth_error (R : B -> B -> Prop) (l : list B) :
  StronglySorted R l ->
  forall p q x y, p < q -> nth_error l p = Some x -> nth_error l q = Some y ->
  R x y.
Proof.
  induction 1 as [|a r Hr IH Ha]; intros p q x y Hpq Hp Hq.
  - destruct p; discriminate.
  - destruct q as [|q]; [lia|]. simpl in Hq. destruct p as [|p]; simpl in Hp.
    + injection Hp as <-. rewrite Forall_forall in Ha.
      apply Ha. eapply nth_error_In; eassumption.
    + apply (IH p q); [lia|assumption|assumption].
Qed.

Lemma StronglySorted_app_inv (R : B -> B -> Prop) (l1 l2 : list B) :
  StronglySorted R (l1 ++ l2) ->
  forall x y, In x l1 -> In y l2 -> R x y.
Proof.
  induction l1 as [|a r IH]; simpl; intros H x y Hx Hy; [tauto|].
  inversion H as [|? ? Hr Ha]; subst. destruct Hx as [<-|Hx].
  - rewrite Forall_forall in Ha. apply Ha, in_or_app. now right.
  - now apply IH.
Qed.

Lemma nth_seq_self (d : B) (l : list B) :
  map (fun i => nth i l d) (seq 0 (List.length l)) = l.
Proof.
  induction l as [|a r IH]; simpl; [reflexivity|].
  f_equal. rewrite <- seq_shift, map_map. exact IH.
Qed.

End Fatia.

Section TopIndices.

Local Open Scope nat_scope.

Variable A : Type.
Variable ltb : A -> A -> bool.
Variable argsort : list A -> list nat.

Lemma indices_top_zero (l : list A) :
  indices_top argsort l 0 = rev (argsort l).
Proof. unfold indices_top. simpl. now rewrite slice_from_zero. Qed.

Hypothesis argsort_ok : contrato_argsort ltb argsort.

Lemma argsort_length (l : list A) : List.length (argsort l) = List.length l.
Proof.
  rewrite (Permutation_length (proj1 (argsort_ok l))). apply length_seq.
Qed.

Lemma argsort_in (l : list A) (i : nat) :
  In i (argsort l) <-> i < List.length l.
Proof.
  split; intros H.
  - apply (Permutation_in _ (proj1 (argsort_ok l))) in H.
    apply in_seq in H. lia.
  - apply (Permutation_in _ (Permutation_sym (proj1 (argsort_ok l)))).
    apply in_seq. lia.
Qed.

Lemma argsort_NoDup (l : list A) : NoDup (argsort l).
Proof.
  apply (Permutation_NoDup (Permutation_sym (proj1 (argsort_ok l)))),
    seq_NoDup.
Qed.

Lemma indices_top_in (l : list A) (k : Z) (i : nat) :
  In i (indices_top argsort l k) -> i < List.length l.
Proof.
  unfold indices_top. intros H. rewrite <- in_rev in H.
  destruct (slice_from_sufixo nat (- k) (argsort l)) as [n E].
  rewrite E in H. apply skipn_In in H. now apply argsort_in in H.
Qed.

Lemma indices_top_length (l : list A) (k : Z) :
  (1 <= k)%Z ->
  List.length (indices_top argsort l k)
  = Nat.min (Z.to_nat k) (List.length l).
Proof.
  intros Hk. unfold indices_top.
  rewrite length_rev, slice_from_ultimos, length_skipn, argsort_length
    by assumption.
  lia.
Qed.

Lemma indices_top_NoDup (l : list A) (k : Z) :
  NoDup (indices_top argsort l k).
Proof.
  unfold indices_top.
  destruct (slice_from_sufixo nat (- k) (argsort l)) as [n E]. rewrite E.
  apply NoDup_rev.
  pose proof (argsort_NoDup l) as H.
  rewrite <- (firstn_skipn n (argsort l)) in H.
  now apply NoDup_app_remove_l in H.
Qed.

(** Among the top indices the values do not increase. *)
Lemma indices_top_sorted (l : list A) (d : A) (k : Z) :
  StronglySorted (fun i j => sobe ltb l d j i) (indices_top argsort l k).
Proof.
  unfold indices_top.
  destruct (slice_from_sufixo nat (- k) (argsort l)) as [n E]. rewrite E.
  apply StronglySorted_rev, StronglySorted_skipn.
  apply (proj2 (argsort_ok l)).
Qed.

(** An index that is chosen brings along, at earlier positions, every index
    of a strictly greater value. *)
Lemma indices_top_estrito (l : list A) (d : A) (k : Z) (i j p : nat) :
  (forall a, ltb a a = false) ->
  i < List.length l ->
  ltb (nth j l d) (nth i l d) = true ->
  nth_error (indices_top argsort l k) p = Some j ->
  exists p', p' < p /\ nth_error (indices_top argsort l k) p' = Some i.
Proof.
  intros Hirr Hi Hlt Hp.
  assert (Hin : In i (indices_top argsort l k)).
  { pose proof (nth_error_In _ _ Hp) as Hj. unfold indices_top in *.
    destruct (slice_from_sufixo nat (- k) (argsort l)) as [n E].
    rewrite E in *. rewrite <- in_rev in Hj. rewrite <- in_rev.
    assert (Hi' : In i (argsort l)) by now apply argsort_in.
    rewrite <- (firstn_skipn n (argsort l)) in Hi'.
    apply in_app_or in Hi'. destruct Hi' as [Hpre|Hsuf]; [|assumption].
    exfalso.
    pose proof (proj2 (argsort_ok l) d) as Hs.
    rewrite <- (firstn_skipn n (argsort l)) in Hs.
    pose proof (StronglySorted_app_inv _ _ _ _ Hs i j Hpre Hj) as H.
    unfold sobe in H. congruence. }
  apply In_nth_error in Hin. destruct Hin as [p' Hp'].
  exists p'. split; [|assumption].
  destruct (Nat.lt_trichotomy p' p) as [H|[H|H]]; [assumption| |].
  - subst p'. rewrite Hp in Hp'. injection Hp' as ->.
    rewrite Hirr in Hlt. discriminate.
  - exfalso.
    pose proof (indices_top_sorted l d k) as Hs.
    pose proof (StronglySorted_nth_error _ _ _ Hs p p' j i H Hp Hp') as H1.
    unfold sobe in H1. congruence.
Qed.

Hypothesis argsort_estavel_ok : estavel ltb argsort.

(** With a stable sort and equal values, the index that comes later in the
    array comes earlier among the top indices, whenever the earlier one is
    chosen. *)
Lemma indices_top_empate (l : list A) (d : A) (k : Z) (i j p : nat) :
  i < j -> j < List.length l ->
  ltb (nth i l d) (nth j l d) = false ->
  ltb (nth j l d) (nth i l d) = false ->
  nth_error (indices_top argsort l k) p = Some i ->
  exists p', p' < p /\ nth_error (indices_top argsort l k) p' = Some j.
Proof.
  intros Hij Hj Hirr' Hirr Hp.
  assert (Hin : In j (indices_top argsort l k)).
  { pose proof (nth_error_In _ _ Hp) as Hi. unfold indices_top in *.
    destruct (slice_from_sufixo nat (- k) (argsort l)) as [n E].
    rewrite E in *. rewrite <- in_rev in Hi. rewrite <- in_rev.
    assert (Hj' : In j (argsort l)) by now apply argsort_in.
    rewrite <- (firstn_skipn n (argsort l)) in Hj'.
    apply in_app_or in Hj'. destruct Hj' as [Hpre|Hsuf]; [|assumption].
    exfalso.
    pose proof (argsort_estavel_ok l d) as Hs.
    rewrite <- (firstn_skipn n (argsort l)) in Hs.
    destruct (StronglySorted_app_inv _ _ _ _ Hs j i Hpre Hi) as [_ [H|H]].
    - congruence.
    - lia. }
  apply In_nth_error in Hin. destruct Hin as [p' Hp'].
  exists p'. split; [|assumption].
  destruct (Nat.lt_trichotomy p' p) as [H|[H|H]]; [assumption| |].
  - subst p'. rewrite Hp in Hp'. injection Hp' as ->. lia.
  - exfalso.
    assert (Hs : StronglySorted (fun a b => antes_idx ltb l d b a)
                   (indices_top argsort l k)).
    { unfold indices_top.
      destruct (slice_from_sufixo nat (- k) (argsort l)) as [n E]. rewrite E.
      apply StronglySorted_rev, StronglySorted_skipn.
      apply argsort_estavel_ok. }
    destruct (StronglySorted_nth_error _ _ _ Hs p p' i j H Hp Hp')
      as [_ [H1|H1]].
    + congruence.
    + lia.
Qed.

End TopIndices.

(** ** Cosine similarity *)

Section Cosseno.

Local Open Scope R_scope.

Lemma dot_escalado (a b : R) (u v : Vec) :
  a <> 0 -> b <> 0 ->
  dot (map (fun x => x / a) u) (map (fun y => y / b) v) = dot u v / (a * b).
Proof.
  intros Ha Hb. revert v; induction u as [|x u IH]; intros [|y v]; simpl;
    try (field; now split).
  rewrite IH. field. now split.
Qed.

Lemma escala_pos (u : Vec) : 0 < escala u.
Proof.
  unfold escala. destruct (Req_dec_T (norma u) 0) as [E|N]; [lra|].
  pose proof (sqrt_pos (dot u u)). unfold norma in *. lra.
Qed.

Lemma cosseno_quociente (u v : Vec) :
  cosseno u v = dot u v / (escala u * escala v).
Proof.
  unfold cosseno, normalize. apply dot_escalado.
  - pose proof (escala_pos u); lra.
  - pose proof (escala_pos v); lra.
Qed.

Lemma cosseno_unitario (a b : R) :
  a * a = 1 -> b * b = 1 -> cosseno [a] [b] = a * b.
Proof.
  intros Ha Hb. rewrite cosseno_quociente.
  assert (E : forall x : R, x * x = 1 -> escala [x] = 1).
  { intros x Hx. unfold escala, norma. simpl.
    replace (x * x + 0) with 1 by lra. rewrite sqrt_1.
    destruct (Req_dec_T 1 0); [lra|reflexivity]. }
  rewrite (E a Ha), (E b Hb). simpl. field.
Qed.

Lemma Rltb_asym (a b : R) : Rltb a b = true -> Rltb b a = false.
Proof.
  unfold Rltb. destruct (Rlt_dec a b), (Rlt_dec b a); try reflexivity;
    try discriminate. lra.
Qed.

Lemma Rltb_negtrans (a b c : R) :
  Rltb a b = false -> Rltb b c = false -> Rltb a c = false.
Proof.
  unfold Rltb. destruct (Rlt_dec a b), (Rlt_dec b c), (Rlt_dec a c);
    try reflexivity; try discriminate. lra.
Qed.

Lemma Rltb_false (a b : R) : Rltb a b = false <-> b <= a.
Proof.
  unfold Rltb. destruct (Rlt_dec a b); split; intros; try lra;
    try discriminate; reflexivity.
Qed.

Lemma Rltb_true (a b : R) : Rltb a b = true <-> a < b.
Proof.
  unfold Rltb. destruct (Rlt_dec a b); split; intros; try lra;
    try discriminate; reflexivity.
Qed.

End Cosseno.

(** ** Ordering of the chosen candidates *)

Section Ordenacao.

Local Open Scope nat_scope.

Variable argsort : list R -> list nat.
Hypothesis argsort_ok : contrato_argsort Rltb argsort.

(** The scores of the chosen indices do not increase. *)
Lemma indices_top_decrescente (sims : list R) (k : Z) :
  StronglySorted Rge
    (map (fun idx => (nth idx sims 0 * 100)%R) (indices_top argsort sims k)).
Proof.
  apply StronglySorted_map.
  apply StronglySorted_weaken
    with (R := fun i j => sobe Rltb sims 0%R j i).
  - intros i j _ _ H. apply Rltb_false in H. lra.
  - now apply indices_top_sorted.
Qed.

End Ordenacao.

(** ** The recommendation model *)

Import Servico Exemplo.

(** Unfolds the monad and the world's operations. *)
Ltac desdobra :=
  repeat progress
    (unfold apos, resultado, bind, ret, raise, tentar, obter_self,
       obter_mundo, atribuir, alterar_mundo, logger, chamar, joblib_dump,
       joblib_load, subscrito, get_ultimo_treinamento, datetime_now,
       SentenceTransformer, fit_transform, transform;
     simpl).

Section Recomendar.

Local Open Scope nat_scope.

Lemma montar_ranking (D : list Registro) (sims : list R) (idxs : list nat) :
  Forall (fun idx => idx < List.length D) idxs ->
  forall i, map ranking (montar D sims i idxs) = seq (i + 1) (List.length idxs).
Proof.
  induction 1 as [|idx r Hidx Hr IH]; intros i; simpl; [reflexivity|].
  destruct (nth_error D idx) eqn:E.
  - simpl. f_equal. rewrite IH. f_equal.
  - apply nth_error_None in E. lia.
Qed.

Lemma montar_pontuacao (D : list Registro) (sims : list R) (idxs : list nat) :
  Forall (fun idx => idx < List.length D) idxs ->
  forall i, map pontuacao (montar D sims i idxs)
            = map (fun idx => (nth idx sims 0 * 100)%R) idxs.
Proof.
  induction 1 as [|idx r Hidx Hr IH]; intros i; simpl; [reflexivity|].
  destruct (nth_error D idx) eqn:E.
  - simpl. now rewrite IH.
  - apply nth_error_None in E. lia.
Qed.

Lemma montar_fornecedor (D : list Registro) (sims : list R) (idxs : list nat) :
  Forall (fun idx => idx < List.length D) idxs ->
  forall i, map fornecedor (montar D sims i idxs)
            = map (fun idx => nth idx D []) idxs.
Proof.
  induction 1 as [|idx r Hidx Hr IH]; intros i; simpl; [reflexivity|].
  destruct (nth_error D idx) eqn:E.
  - simpl. rewrite IH. f_equal. symmetry. now apply nth_error_nth.
  - apply nth_error_None in E. lia.
Qed.

Lemma montar_length (D : list Registro) (sims : list R) (idxs : list nat) :
  Forall (fun idx => idx < List.length D) idxs ->
  forall i, List.length (montar D sims i idxs) = List.length idxs.
Proof.
  intros H i. rewrite <- (length_map ranking), montar_ranking by assumption.
  apply length_seq.
Qed.

(** Every entry is a candidate of the corpus with its own score. *)
Lemma montar_entrada (D : list Registro) (sims : list R) (idxs : list nat)
  (i : nat) (r : Recomendacao) :
  In r (montar D sims i idxs) ->
  exists idx, In idx idxs /\ nth_error D idx = Some (fornecedor r)
              /\ pontuacao r = (nth idx sims 0 * 100)%R.
Proof.
  revert i; induction idxs as [|idx l IH]; intros i; simpl; [tauto|].
  destruct (nth_error D idx) eqn:E.
  - intros [<-|H].
    + exists idx. simpl. auto.
    + destruct (IH _ H) as [j [H1 H2]]. exists j. auto.
  - intros H. destruct (IH _ H) as [j [H1 H2]]. exists j. auto.
Qed.

Lemma cosine_similarity_ok (q : Vec) (V : Matriz) (d : nat) :
  V <> [] -> d <> 0 -> List.length q = d ->
  Forall (fun v => List.length v = d) V ->
  cosine_similarity q V = Retorno (map (cosseno q) V).
Proof.
  intros HV Hd Hq HF. unfold cosine_similarity.
  destruct V as [|v V']; [congruence|].
  replace (negb (List.length q =? 0)) with true
    by (symmetry; apply negb_true_iff, Nat.eqb_neq; lia).
  replace (forallb (fun y => List.length y =? List.length q) (v :: V'))
    with true; [reflexivity|].
  symmetry. apply forallb_forall. intros y Hy.
  rewrite Forall_forall in HF. apply Nat.eqb_eq. rewrite (HF y Hy). lia.
Qed.

(** What [recomendar] computes in the state Trained. *)
Lemma recomendar_treinado (s : Recomendador) (w : Mundo) (V : Matriz)
  (D : list Registro) (d : nat) (lic : Registro) (k : Z) :
  Treinado s V D d ->
  exists q,
    embute s (texto_licitacao lic) = Some q /\ List.length q = d
    /\ let sims := map (cosseno q) V in
       let recs := montar D sims 0 (indices_top (np_argsort w) sims k) in
       recomendar lic k {| self := s; mundo := w |}
       = (Retorno recs,
          {| self := s;
             mundo := com_log
                        (log w
                         ++ [(INFO, MsgGerandoRecomendacoes
                                      (get lic "titulo"%string sem_titulo));
                             (INFO, MsgGeradas (List.length recs))]) w |}).
Proof.
  intros (HV & HD & Hlen & Hne & Hd & HF & Hemb).
  destruct (Hemb (texto_licitacao lic)) as (q & Eq & Lq).
  exists q. split; [assumption|]. split; [assumption|].
  intros sims recs.
  pose proof (cosine_similarity_ok q V d Hne Hd Lq HF) as Hc.
  unfold recomendar, bind, obter_self. simpl. rewrite HV, HD.
  unfold embute in Eq.
  destruct (sentence_transformer s) as [enc|] eqn:Est.
  - injection Eq as Eq. rewrite Eq. desdobra. rewrite Hc. desdobra.
    f_equal. f_equal. unfold com_log. simpl. now rewrite <- app_assoc.
  - desdobra.
    destruct (ajustado (vectorizer s)) as [f|]; [|discriminate].
    injection Eq as Eq. rewrite Eq. desdobra. rewrite Hc. desdobra.
    f_equal. f_equal. unfold com_log. simpl. now rewrite <- app_assoc.
Qed.

(** The properties of the result that hold for every [top_n]. *)
Lemma recomendar_geral (s : Recomendador) (w : Mundo) (V : Matriz)
  (D : list Registro) (d : nat) (lic : Registro) (k : Z) :
  Treinado s V D d ->
  contrato_argsort Rltb (np_argsort w) ->
  exists q recs,
    embute s (texto_licitacao lic) = Some q
    /\ fst (recomendar lic k {| self := s; mundo := w |}) = Retorno recs
    /\ map ranking recs
       = seq 1 (List.length (indices_top (np_argsort w) (map (cosseno q) V) k))
    /\ map fornecedor recs
       = map (fun idx => nth idx D [])
           (indices_top (np_argsort w) (map (cosseno q) V) k)
    /\ map pontuacao recs
       = map (fun idx => (nth idx (map (cosseno q) V) 0 * 100)%R)
           (indices_top (np_argsort w) (map (cosseno q) V) k)
    /\ Forall (fun r => exists idx v,
                 nth_error D idx = Some (fornecedor r)
                 /\ nth_error V idx = Some v
                 /\ pontuacao r = (cosseno q v * 100)%R) recs.
Proof.
  intros HT Hok.
  pose proof (indices_top_in R Rltb (np_argsort w) Hok) as Hin_top.
  destruct (recomendar_treinado s w V D d lic k HT) as (q & Eq & Lq & Hrec).
  destruct HT as (HV & HD & Hlen & Hne & Hd & HF & Hemb).
  exists q. eexists. split; [exact Eq|].
  cbv zeta in Hrec. rewrite Hrec. simpl. split; [reflexivity|].
  assert (Hidx : Forall (fun idx => idx < List.length D)
                   (indices_top (np_argsort w) (map (cosseno q) V) k)).
  { apply Forall_forall. intros i Hi. apply Hin_top in Hi.
    rewrite length_map in Hi. lia. }
  split; [now apply montar_ranking|].
  split; [now apply montar_fornecedor|].
  split; [now apply montar_pontuacao|].
  apply Forall_forall. intros r Hr.
  apply montar_entrada in Hr. destruct Hr as (idx & Hin & Hf & Hp).
  apply Hin_top in Hin. rewrite length_map in Hin.
  destruct (nth_error V idx) as [v|] eqn:Ev.
  - exists idx, v. split; [assumption|]. split; [assumption|].
    rewrite Hp. f_equal.
    rewrite (nth_indep _ 0%R (cosseno q v)) by (rewrite length_map; lia).
    rewrite map_nth. f_equal. now apply nth_error_nth.
  - apply nth_error_None in Ev. lia.
Qed.

End Recomendar.

(** ** The concrete states *)

Section Estados.

Local Open Scope nat_scope.

Lemma estado_tfidf_instancia : self estado_tfidf = recomendador_tfidf.
Proof. reflexivity. Qed.

Lemma enc_sinal_length (t : string) : List.length (enc_sinal t) = 1.
Proof. unfold enc_sinal. now destruct (String.eqb t "alfa"). Qed.

Lemma estado_beta_treinado :
  Treinado (self estado_beta) [[(-1)%R]] [fornecedor_beta] 1.
Proof.
  repeat split; try reflexivity; try discriminate.
  - repeat constructor.
  - intros texto. exists (enc_sinal texto). split; [reflexivity|].
    apply enc_sinal_length.
Qed.

Lemma estado_beta_gama_treinado :
  Treinado (self estado_beta_gama) [[(-1)%R]; [(-1)%R]]
    [fornecedor_beta; fornecedor_gama] 1.
Proof.
  repeat split; try reflexivity; try discriminate.
  - repeat constructor.
  - intros texto. exists (enc_sinal texto). split; [reflexivity|].
    apply enc_sinal_length.
Qed.

(** The index sort of the example worlds is the stable one, which meets
    the contract. *)
Lemma mundo_exemplo_argsort :
  contrato_argsort Rltb (argsort_estavel Rltb).
Proof.
  apply argsort_estavel_contrato;
    [exact Rltb_asym|exact Rltb_negtrans].
Qed.

Lemma mundo_exemplo_estavel : estavel Rltb (argsort_estavel Rltb).
Proof.
  apply argsort_estavel_estavel; [exact Rltb_asym|exact Rltb_negtrans].
Qed.

End Estados.

(** ** Claims on [recomendar] *)

Section Alegacoes_recomendar.

Local Open Scope nat_scope.

(** C1, as the code has it: in the state Untrained [recomendar] raises
    nothing; it logs one error, returns the empty list and leaves the
    instance as it was. *)
Theorem recomendar_nao_treinado_lista_vazia :
  forall (s : Recomendador) (w : Mundo) (lic : Registro) (k : Z),
    NaoTreinado s ->
    recomendar lic k {| self := s; mundo := w |}
    = (Retorno [],
       {| self := s;
          mundo := com_log (log w ++ [(ERROR, MsgModeloNaoTreinado)]) w |}).
Proof.
  intros s w lic k [H|H]; unfold recomendar, bind, obter_self; simpl;
    rewrite H; [reflexivity|].
  now destruct (fornecedores_vetores s).
Qed.

Lemma recomendar_nao_treinado_lista_vazia_witness :
  NaoTreinado (novo None)
  /\ recomendar licitacao_alfa 5 estado_st
     = (Retorno [],
        {| self := novo None;
           mundo := com_log (log mundo_st ++ [(ERROR, MsgModeloNaoTreinado)])
                      mundo_st |}).
Proof.
  split.
  - left. reflexivity.
  - apply (recomendar_nao_treinado_lista_vazia (novo None) mundo_st
             licitacao_alfa 5).
    left. reflexivity.
Defined.

(** C1 as stated fails: a fresh instance, never trained and with nothing
    loaded, answers [recomendar] with the empty list and no exception. *)
Lemma recomendar_nao_treinado_cex :
  NaoTreinado (self estado_st)
  /\ resultado (recomendar licitacao_alfa 5) estado_st = Retorno []
  /\ forall x, resultado (recomendar licitacao_alfa 5) estado_st <> Levanta x.
Proof.
  split; [left; reflexivity|]. split; [reflexivity|]. intros x; discriminate.
Qed.

(** C3, amended in the range of the scores. In the state Trained with [N]
    aligned profiles and [top_n = k >= 1], whatever index sort meets the
    contract of [argsort], [recomendar] returns [min k N] entries, ranked
    1, 2, ... in order, with scores that do not increase; each entry is a
    profile of the corpus with 100 times the cosine of the query vector and
    that profile's vector, as line 185 computes it, with no clamp. Nothing
    keeps a score within [0, 100]. *)
Theorem recomendar_top_n :
  forall (s : Recomendador) (w : Mundo) (V : Matriz) (D : list Registro)
         (d : nat) (lic : Registro) (k : Z),
    Treinado s V D d ->
    contrato_argsort Rltb (np_argsort w) ->
    (1 <= k)%Z ->
    exists q recs,
      embute s (texto_licitacao lic) = Some q
      /\ resultado (recomendar lic k) {| self := s; mundo := w |}
         = Retorno recs
      /\ List.length recs = Nat.min (Z.to_nat k) (List.length D)
      /\ map ranking recs = seq 1 (List.length recs)
      /\ StronglySorted Rge (map pontuacao recs)
      /\ Forall (fun r => exists idx v,
                   nth_error D idx = Some (fornecedor r)
                   /\ nth_error V idx = Some v
                   /\ pontuacao r = (cosseno q v * 100)%R) recs.
Proof.
  intros s w V D d lic k HT Hok Hk.
  destruct (recomendar_geral s w V D d lic k HT Hok)
    as (q & recs & Eq & Hres & Hrank & Hforn & Hpont & Hent).
  destruct HT as (HV & HD & Hlen & Hne & Hd & HF & Hemb).
  assert (Hn : List.length recs = Nat.min (Z.to_nat k) (List.length D)).
  { rewrite <- (length_map ranking), Hrank, length_seq.
    rewrite (indices_top_length R Rltb (np_argsort w) Hok) by assumption.
    rewrite length_map. lia. }
  exists q, recs. split; [assumption|]. split; [assumption|].
  split; [assumption|].
  split. { rewrite Hrank. f_equal.
           rewrite <- (length_map ranking recs), Hrank.
           now rewrite length_seq. }
  split. { rewrite Hpont. now apply indices_top_decrescente. }
  assumption.
Qed.

Lemma recomendar_top_n_witness :
  Treinado (self estado_beta_gama) [[(-1)%R]; [(-1)%R]]
    [fornecedor_beta; fornecedor_gama] 1
  /\ contrato_argsort Rltb (np_argsort (mundo estado_beta_gama))
  /\ exists recs,
       resultado (recomendar licitacao_alfa 1) estado_beta_gama = Retorno recs
       /\ List.length recs = 1
       /\ map ranking recs = [1].
Proof.
  split; [exact estado_beta_gama_treinado|].
  split; [exact mundo_exemplo_argsort|].
  destruct (recomendar_top_n (self estado_beta_gama) (mundo estado_beta_gama)
              [[(-1)%R]; [(-1)%R]] [fornecedor_beta; fornecedor_gama] 1
              licitacao_alfa 1 estado_beta_gama_treinado
              mundo_exemplo_argsort ltac:(lia))
    as (q & recs & _ & Hres & Hlen & Hrank & _).
  exists recs. split; [exact Hres|]. split; [exact Hlen|].
  rewrite Hrank, Hlen. reflexivity.
Defined.

(** C3 as stated fails in the range: a sentence model that places the bid
    opposite to the only trained supplier gives that supplier the score
    -100. *)
Lemma pontuacao_negativa_cex :
  Treinado (self estado_beta) [[(-1)%R]] [fornecedor_beta] 1
  /\ exists r,
       resultado (recomendar licitacao_alfa 1) estado_beta = Retorno [r]
       /\ fornecedor r = fornecedor_beta
       /\ ranking r = 1
       /\ pontuacao r = (-100)%R
       /\ ~ (0 <= pontuacao r <= 100)%R.
Proof.
  split; [exact estado_beta_treinado|].
  destruct (recomendar_treinado (self estado_beta) (mundo estado_beta)
              _ _ _ licitacao_alfa 1 estado_beta_treinado)
    as (q & Eq & _ & Hrec).
  assert (Hq : embute (self estado_beta) (texto_licitacao licitacao_alfa)
               = Some [1%R]) by reflexivity.
  rewrite Hq in Eq. injection Eq as <-. cbv zeta in Hrec.
  change {| self := self estado_beta; mundo := mundo estado_beta |}
    with estado_beta in Hrec.
  unfold resultado. rewrite Hrec.
  exists {| fornecedor := fornecedor_beta;
            pontuacao := (cosseno [1%R] [(-1)%R] * 100)%R;
            ranking := 1 |}.
  split; [reflexivity|]. split; [reflexivity|]. split; [reflexivity|].
  simpl pontuacao. rewrite cosseno_unitario by lra. split; lra.
Qed.

(** C4, as the code has it. The code has no tie-break of its own: the top
    indices are the order of [argsort] read backwards. Whatever sort meets
    the contract, a profile of strictly greater similarity than a returned
    one is returned at a smaller rank. For equal similarities the order is
    the sort's: a stable sort, read backwards, gives the tie to the later
    profile, so when [i < j] tie and [i] is in the result at position [p]
    (rank [p + 1]), [j] is in the result at an earlier position. *)
Theorem recomendar_empate_ordem_do_argsort :
  forall (s : Recomendador) (w : Mundo) (V : Matriz) (D : list Registro)
         (d : nat) (lic : Registro) (k : Z),
    Treinado s V D d ->
    contrato_argsort Rltb (np_argsort w) ->
    exists q recs idxs,
      embute s (texto_licitacao lic) = Some q
      /\ resultado (recomendar lic k) {| self := s; mundo := w |}
         = Retorno recs
      /\ idxs = indices_top (np_argsort w) (map (cosseno q) V) k
      /\ map fornecedor recs = map (fun idx => nth idx D []) idxs
      /\ map ranking recs = seq 1 (List.length idxs)
      /\ (forall (i j p : nat) (vi vj : Vec),
           nth_error V i = Some vi -> nth_error V j = Some vj ->
           (cosseno q vj < cosseno q vi)%R ->
           nth_error idxs p = Some j ->
           exists p', p' < p /\ nth_error idxs p' = Some i)
      /\ (estavel Rltb (np_argsort w) ->
          forall (i j p : nat) (vi vj : Vec),
            i < j ->
            nth_error V i = Some vi -> nth_error V j = Some vj ->
            cosseno q vi = cosseno q vj ->
            nth_error idxs p = Some i ->
            exists p', p' < p /\ nth_error idxs p' = Some j).
Proof.
  intros s w V D d lic k HT Hok.
  destruct (recomendar_geral s w V D d lic k HT Hok)
    as (q & recs & Eq & Hres & Hrank & Hforn & _ & _).
  exists q, recs, (indices_top (np_argsort w) (map (cosseno q) V) k).
  split; [assumption|]. split; [assumption|]. split; [reflexivity|].
  split; [assumption|]. split; [assumption|].
  assert (Hnth : forall i vi, nth_error V i = Some vi ->
                   i < List.length V
                   /\ nth i (map (cosseno q) V) 0%R = cosseno q vi).
  { intros i vi Hvi.
    assert (Hi : i < List.length V) by (apply nth_error_Some; congruence).
    split; [assumption|].
    rewrite (nth_indep _ 0%R (cosseno q vi)) by (rewrite length_map; lia).
    now rewrite map_nth, (nth_error_nth V i _ Hvi). }
  split.
  - intros i j p vi vj Hvi Hvj Hcos Hp.
    destruct (Hnth i vi Hvi) as [Hi Ei]. destruct (Hnth j vj Hvj) as [Hj Ej].
    apply (indices_top_estrito R Rltb (np_argsort w) Hok
             (map (cosseno q) V) 0%R k i j p).
    + intros a. apply Rltb_false. lra.
    + now rewrite length_map.
    + rewrite Ei, Ej. now apply Rltb_true.
    + assumption.
  - intros Hest i j p vi vj Hij Hvi Hvj Hcos Hp.
    destruct (Hnth i vi Hvi) as [Hi Ei]. destruct (Hnth j vj Hvj) as [Hj Ej].
    apply (indices_top_empate R Rltb (np_argsort w) Hok Hest
             (map (cosseno q) V) 0%R k i j p); try assumption.
    + now rewrite length_map.
    + rewrite Ei, Ej. apply Rltb_false. lra.
    + rewrite Ei, Ej. apply Rltb_false. lra.
Qed.

Lemma recomendar_empate_ordem_do_argsort_witness :
  Treinado (self estado_beta_gama) [[(-1)%R]; [(-1)%R]]
    [fornecedor_beta; fornecedor_gama] 1
  /\ contrato_argsort Rltb (np_argsort (mundo estado_beta_gama))
  /\ exists recs,
       resultado (recomendar licitacao_beta 2) estado_beta_gama = Retorno recs
       /\ List.length (map fornecedor recs) = List.length (map ranking recs).
Proof.
  split; [exact estado_beta_gama_treinado|].
  split; [exact mundo_exemplo_argsort|].
  destruct (recomendar_empate_ordem_do_argsort
              (self estado_beta_gama) (mundo estado_beta_gama)
              [[(-1)%R]; [(-1)%R]] [fornecedor_beta; fornecedor_gama] 1
              licitacao_beta 2 estado_beta_gama_treinado
              mundo_exemplo_argsort)
    as (q & recs & idxs & _ & Hres & _ & Hforn & Hrank & _).
  exists recs. split; [exact Hres|].
  rewrite Hforn, Hrank, length_map, length_seq. reflexivity.
Defined.

(** C4 as stated fails: of two suppliers with the same vector, trained in
    the order Beta, Gama, the later one is ranked first (the index sort of
    this world is the stable one). *)
Lemma recomendar_empate_cex :
  Treinado (self estado_beta_gama) [[(-1)%R]; [(-1)%R]]
    [fornecedor_beta; fornecedor_gama] 1
  /\ exists r1 r2,
       resultado (recomendar licitacao_beta 2) estado_beta_gama
       = Retorno [r1; r2]
       /\ pontuacao r1 = pontuacao r2
       /\ fornecedor r1 = fornecedor_gama /\ ranking r1 = 1
       /\ fornecedor r2 = fornecedor_beta /\ ranking r2 = 2.
Proof.
  split; [exact estado_beta_gama_treinado|].
  destruct (recomendar_treinado (self estado_beta_gama)
              (mundo estado_beta_gama) _ _ _ licitacao_beta 2
              estado_beta_gama_treinado)
    as (q & Eq & _ & Hrec).
  assert (Hq : embute (self estado_beta_gama) (texto_licitacao licitacao_beta)
               = Some [(-1)%R]) by reflexivity.
  rewrite Hq in Eq. injection Eq as <-. cbv zeta in Hrec.
  change {| self := self estado_beta_gama; mundo := mundo estado_beta_gama |}
    with estado_beta_gama in Hrec.
  unfold resultado. rewrite Hrec.
  change (np_argsort (mundo estado_beta_gama)) with (argsort_estavel Rltb).
  assert (Hidx : forall x : R,
             indices_top (argsort_estavel Rltb) [x; x] 2 = [1; 0]).
  { intros x. unfold indices_top, argsort_estavel, enumerate. simpl.
    replace (Rltb x x) with false
      by (symmetry; apply Rltb_false; lra).
    reflexivity. }
  simpl map. rewrite Hidx.
  exists {| fornecedor := fornecedor_gama;
            pontuacao := (cosseno [(-1)%R] [(-1)%R] * 100)%R;
            ranking := 1 |},
         {| fornecedor := fornecedor_beta;
            pontuacao := (cosseno [(-1)%R] [(-1)%R] * 100)%R;
            ranking := 2 |}.
  repeat split; reflexivity.
Qed.

(** C10. In the state Trained, [top_n = 0] makes the slice [[-0:]] the whole
    array: every one of the [N >= 1] profiles is returned, ranked 1 to [N]
    by similarity that does not increase. The entries follow the index sort
    read backwards: the entry at each position is the profile at that index
    with 100 times the similarity at that same index, which is the cosine
    of the query vector and that profile's vector. *)
Theorem recomendar_top_zero_devolve_todos :
  forall (s : Recomendador) (w : Mundo) (V : Matriz) (D : list Registro)
         (d : nat) (lic : Registro),
    Treinado s V D d ->
    contrato_argsort Rltb (np_argsort w) ->
    exists q recs,
      embute s (texto_licitacao lic) = Some q
      /\ resultado (recomendar lic 0) {| self := s; mundo := w |}
         = Retorno recs
      /\ indices_top (np_argsort w) (map (cosseno q) V) 0
         = rev (np_argsort w (map (cosseno q) V))
      /\ List.length recs = List.length D
      /\ recs <> []
      /\ Permutation (map fornecedor recs) D
      /\ map ranking recs = seq 1 (List.length D)
      /\ StronglySorted Rge (map pontuacao recs)
      /\ map fornecedor recs
         = map (fun idx => nth idx D [])
               (rev (np_argsort w (map (cosseno q) V)))
      /\ map pontuacao recs
         = map (fun idx => (nth idx (map (cosseno q) V) 0 * 100)%R)
               (rev (np_argsort w (map (cosseno q) V)))
      /\ Forall (fun r => exists idx v,
                   nth_error D idx = Some (fornecedor r)
                   /\ nth_error V idx = Some v
                   /\ pontuacao r = (cosseno q v * 100)%R) recs.
Proof.
  intros s w V D d lic HT Hok.
  destruct (recomendar_geral s w V D d lic 0 HT Hok)
    as (q & recs & Eq & Hres & Hrank & Hforn & Hpont & Hent).
  destruct HT as (HV & HD & Hlen & Hne & Hd & HF & Hemb).
  pose proof (indices_top_zero R (np_argsort w) (map (cosseno q) V)) as Hz.
  assert (Hl : List.length (indices_top (np_argsort w) (map (cosseno q) V) 0)
               = List.length D).
  { rewrite Hz, length_rev, (argsort_length R Rltb (np_argsort w) Hok),
      length_map. exact Hlen. }
  assert (Hn : List.length recs = List.length D).
  { rewrite <- (length_map ranking), Hrank, length_seq. exact Hl. }
  exists q, recs. split; [assumption|]. split; [assumption|].
  split; [assumption|]. split; [assumption|].
  split. { intros ->. simpl in Hn. destruct D; [|discriminate].
           destruct V; [congruence|discriminate]. }
  split. { rewrite Hforn, Hz, <- (nth_seq_self Registro [] D) at 1.
           apply Permutation_map. rewrite <- Permutation_rev.
           rewrite <- Hlen, <- (length_map (cosseno q) V).
           apply (proj1 (Hok _)). }
  split. { now rewrite Hrank, Hl. }
  split. { rewrite Hpont. now apply indices_top_decrescente. }
  split. { now rewrite Hforn, Hz. }
  split. { now rewrite Hpont, Hz. }
  exact Hent.
Qed.

Lemma recomendar_top_zero_devolve_todos_witness :
  Treinado (self estado_beta_gama) [[(-1)%R]; [(-1)%R]]
    [fornecedor_beta; fornecedor_gama] 1
  /\ contrato_argsort Rltb (np_argsort (mundo estado_beta_gama))
  /\ exists recs,
       resultado (recomendar licitacao_alfa 0) estado_beta_gama = Retorno recs
       /\ List.length recs = 2.
Proof.
  split; [exact estado_beta_gama_treinado|].
  split; [exact mundo_exemplo_argsort|].
  destruct (recomendar_top_zero_devolve_todos
              (self estado_beta_gama) (mundo estado_beta_gama)
              [[(-1)%R]; [(-1)%R]] [fornecedor_beta; fornecedor_gama] 1
              licitacao_alfa estado_beta_gama_treinado mundo_exemplo_argsort)
    as (q & recs & _ & Hres & _ & Hlen & _).
  exists recs. split; [exact Hres|exact Hlen].
Defined.

End Alegacoes_recomendar.

(** ** Claims on persistence, evaluation and the choice of the embedder *)

Section Alegacoes_estado.

Local Open Scope nat_scope.

(** What [recomendar] returns depends on four attributes of the instance
    and on the index sort only. *)
Lemma recomendar_resultado_ext (s1 s2 : Recomendador) (w1 w2 : Mundo)
  (lic : Registro) (k : Z) :
  np_argsort w1 = np_argsort w2 ->
  fornecedores_vetores s1 = fornecedores_vetores s2 ->
  fornecedores_dados s1 = fornecedores_dados s2 ->
  sentence_transformer s1 = sentence_transformer s2 ->
  vectorizer s1 = vectorizer s2 ->
  resultado (recomendar lic k) {| self := s1; mundo := w1 |}
  = resultado (recomendar lic k) {| self := s2; mundo := w2 |}.
Proof.
  intros HA HV HD HS HZ.
  unfold recomendar; desdobra.
  rewrite HV, HD, HS.
  destruct (fornecedores_vetores s2) as [V|]; [|reflexivity].
  destruct (fornecedores_dados s2) as [D|]; [|reflexivity].
  destruct (sentence_transformer s2) as [enc|]; desdobra.
  - destruct (cosine_similarity _ V); desdobra; rewrite ?HA; reflexivity.
  - rewrite HZ.
    destruct (ajustado (vectorizer s2)) as [f|]; desdobra; [|reflexivity].
    destruct (cosine_similarity _ V); desdobra; rewrite ?HA; reflexivity.
Qed.

(** [salvar_modelo] then [carregar_modelo] restores the four corpus
    attributes; the sentence model of the loading instance is left as it
    was. *)
Lemma salvar_carregar_campos_aux (s s2 : Recomendador) (w : Mundo)
  (caminho : string) (V : Matriz) (D : list Registro) :
  fornecedores_vetores s = Some V -> fornecedores_dados s = Some D ->
  gravavel w caminho = true ->
  let e1 := apos (salvar_modelo caminho) {| self := s; mundo := w |} in
  let e2 := apos (carregar_modelo caminho)
                 {| self := s2; mundo := mundo e1 |} in
  self e1 = s
  /\ fornecedores_vetores (self e2) = fornecedores_vetores s
  /\ fornecedores_dados (self e2) = fornecedores_dados s
  /\ vectorizer (self e2) = vectorizer s
  /\ ultimo_treinamento (self e2) = ultimo_treinamento s
  /\ sentence_transformer (self e2) = sentence_transformer s2.
Proof.
  intros HV HD Hg e1 e2. subst e1 e2.
  unfold salvar_modelo; desdobra. rewrite HV, HD; desdobra.
  rewrite Hg; desdobra.
  unfold carregar_modelo; desdobra. rewrite String.eqb_refl; desdobra.
  destruct (ultimo_treinamento s); simpl; repeat split; reflexivity.
Qed.

(** X4. With the frequency strategy on both sides, the instance that loaded
    the file answers [recomendar] as the instance that saved it. *)
Lemma salvar_carregar_frequencia (s : Recomendador) (w w1 w2 : Mundo)
  (caminho : string) (V : Matriz) (D : list Registro) (lic : Registro)
  (k : Z) :
  fornecedores_vetores s = Some V -> fornecedores_dados s = Some D ->
  gravavel w caminho = true ->
  sentence_transformer s = None ->
  np_argsort w1 = np_argsort w2 ->
  let e1 := apos (salvar_modelo caminho) {| self := s; mundo := w |} in
  let e2 := apos (carregar_modelo caminho)
                 {| self := novo None; mundo := mundo e1 |} in
  resultado (recomendar lic k) {| self := self e2; mundo := w2 |}
  = resultado (recomendar lic k) {| self := s; mundo := w1 |}.
Proof.
  intros HV HD Hg HS HA e1 e2.
  destruct (salvar_carregar_campos_aux s (novo None) w caminho V D HV HD Hg)
    as (_ & H1 & H2 & H3 & _ & H5).
  apply recomendar_resultado_ext; try assumption; [now symmetry|].
  fold e1 in H5. fold e2 in H5. rewrite H5, HS. reflexivity.
Qed.

Lemma salvar_carregar_frequencia_witness :
  resultado (recomendar licitacao_alfa 1)
    {| self := self (apos (carregar_modelo "modelo.joblib")
                       {| self := novo None;
                          mundo := mundo (apos (salvar_modelo "modelo.joblib")
                                            {| self := recomendador_tfidf;
                                               mundo := mundo_sem_st |}) |});
       mundo := mundo_sem_st |}
  = resultado (recomendar licitacao_alfa 1)
      {| self := recomendador_tfidf; mundo := mundo_sem_st |}.
Proof.
  apply (salvar_carregar_frequencia recomendador_tfidf mundo_sem_st
           mundo_sem_st mundo_sem_st "modelo.joblib"%string
           [[1%R]] [fornecedor_alfa] licitacao_alfa 1);
    reflexivity.
Defined.

(** X5. [salvar_modelo] to a path that can be written, then
    [carregar_modelo] from it into any instance, gives that instance the
    vectors, records, vectorizer and training time of the saved one. *)
Theorem salvar_carregar_restaura_campos :
  forall (s s2 : Recomendador) (w : Mundo) (caminho : string) (V : Matriz)
         (D : list Registro),
    fornecedores_vetores s = Some V -> fornecedores_dados s = Some D ->
    gravavel w caminho = true ->
    let e1 := apos (salvar_modelo caminho) {| self := s; mundo := w |} in
    let e2 := apos (carregar_modelo caminho)
                   {| self := s2; mundo := mundo e1 |} in
    fornecedores_vetores (self e2) = Some V
    /\ fornecedores_dados (self e2) = Some D
    /\ vectorizer (self e2) = vectorizer s
    /\ ultimo_treinamento (self e2) = ultimo_treinamento s.
Proof.
  intros s s2 w caminho V D HV HD Hg e1 e2.
  destruct (salvar_carregar_campos_aux s s2 w caminho V D HV HD Hg)
    as (_ & H1 & H2 & H3 & H4 & _).
  fold e1 in H1, H2, H3, H4. fold e2 in H1, H2, H3, H4.
  rewrite H1, H2, HV, HD. auto.
Qed.

Lemma salvar_carregar_restaura_campos_witness :
  let e2 := apos (carregar_modelo "modelo.joblib")
              {| self := novo None;
                 mundo := mundo (apos (salvar_modelo "modelo.joblib")
                                   {| self := recomendador_tfidf;
                                      mundo := mundo_sem_st |}) |} in
  fornecedores_vetores (self e2) = Some [[1%R]]
  /\ fornecedores_dados (self e2) = Some [fornecedor_alfa]
  /\ vectorizer (self e2) = vectorizer recomendador_tfidf
  /\ ultimo_treinamento (self e2) = ultimo_treinamento recomendador_tfidf.
Proof.
  apply (salvar_carregar_restaura_campos recomendador_tfidf (novo None)
           mundo_sem_st "modelo.joblib"%string
           [[1%R]] [fornecedor_alfa]);
    reflexivity.
Defined.

(** C5 fails on the code for the semantic strategy. [estado_beta] was
    trained with the sentence model; saved and loaded by a fresh instance,
    the four corpus attributes come back, but the sentence model is not
    among them: where the saved instance recommends one supplier, the
    loaded one raises [NotFittedError] from the unfitted vectorizer. *)
Theorem salvar_carregar_semantico_diverge :
  fornecedores_vetores (self estado_carregado)
  = fornecedores_vetores (self estado_beta)
  /\ fornecedores_dados (self estado_carregado)
     = fornecedores_dados (self estado_beta)
  /\ vectorizer (self estado_carregado) = vectorizer (self estado_beta)
  /\ ultimo_treinamento (self estado_carregado)
     = ultimo_treinamento (self estado_beta)
  /\ sentence_transformer (self estado_beta) = Some enc_sinal
  /\ sentence_transformer (self estado_carregado) = None
  /\ (exists r, resultado (recomendar licitacao_alfa 1) estado_beta
                = Retorno [r])
  /\ resultado (recomendar licitacao_alfa 1) estado_carregado
     = Levanta NotFittedError.
Proof.
  repeat split; try reflexivity.
  destruct (recomendar_treinado (self estado_beta) (mundo estado_beta)
              _ _ _ licitacao_alfa 1 estado_beta_treinado)
    as (q & _ & _ & Hrec).
  cbv zeta in Hrec.
  change {| self := self estado_beta; mundo := mundo estado_beta |}
    with estado_beta in Hrec.
  unfold resultado. rewrite Hrec. eexists. reflexivity.
Qed.

(** C6 fails on the code. For a read that fails, the path being missing,
    the file corrupt, or the object in it one that cannot be subscripted
    with a string, [carregar_modelo] surfaces nothing: the [except] of line
    235 logs one error and the call returns normally, leaving the instance
    as it was, Untrained if it was so. Its callers wrap the call in a
    [try] of their own, for an error that never reaches them. *)
Theorem carregar_modelo_falha_registrada :
  forall (s : Recomendador) (w : Mundo) (caminho : string),
    arquivos w caminho = None
    \/ arquivos w caminho = Some Corrompido
    \/ arquivos w caminho = Some OutroObjeto ->
    exists x,
      carregar_modelo caminho {| self := s; mundo := w |}
      = (Retorno tt,
         {| self := s;
            mundo := com_log (log w ++ [(ERROR, MsgErroCarregar x)]) w |}).
Proof.
  intros s w caminho H.
  unfold carregar_modelo; desdobra.
  destruct H as [H|[H|H]]; rewrite H; desdobra; eexists; reflexivity.
Qed.

Lemma carregar_modelo_falha_registrada_witness :
  arquivos (mundo estado_beta) "modelo.joblib"%string = None
  /\ exists x,
       carregar_modelo "modelo.joblib" estado_beta
       = (Retorno tt,
          {| self := self estado_beta;
             mundo := com_log (log (mundo estado_beta)
                               ++ [(ERROR, MsgErroCarregar x)])
                        (mundo estado_beta) |}).
Proof.
  split; [reflexivity|].
  apply (carregar_modelo_falha_registrada (self estado_beta)
           (mundo estado_beta) "modelo.joblib"%string).
  left. reflexivity.
Defined.

(** At a path that does not exist: the load returns normally, with no
    exception for the caller, and a fresh instance stays Untrained. *)
Lemma carregar_modelo_ausente_cex :
  arquivos (mundo estado_st) "modelo.joblib"%string = None
  /\ resultado (carregar_modelo "modelo.joblib") estado_st = Retorno tt
  /\ (forall x, resultado (carregar_modelo "modelo.joblib") estado_st
                <> Levanta x)
  /\ NaoTreinado (self (apos (carregar_modelo "modelo.joblib") estado_st)).
Proof.
  split; [reflexivity|]. split; [reflexivity|].
  split; [intros x; discriminate|]. left. reflexivity.
Qed.

(** A [dict] that lacks a key is another matter: the attributes
    assigned before the [KeyError] keep their new values. Here the vectors
    are replaced and the records are not. *)
Lemma carregar_modelo_dict_incompleto :
  let e := apos (carregar_modelo "outro.joblib") estado_com_dict_incompleto in
  resultado (carregar_modelo "outro.joblib") estado_com_dict_incompleto
  = Retorno tt
  /\ fornecedores_vetores (self e) = Some [[1%R]; [1%R]]
  /\ fornecedores_dados (self e) = Some [fornecedor_beta]
  /\ In (ERROR, MsgErroCarregar KeyError) (log (mundo e)).
Proof.
  repeat split; try reflexivity. simpl. auto 10.
Qed.

(** C7, as the code has it: with sequences of different lengths
    [avaliar_recomendacoes] raises nothing; it logs one error and returns
    the empty [dict], having called nothing else. *)
Theorem avaliar_tamanhos_diferentes :
  forall (s : Recomendador) (w : Mundo) (licitacoes_teste : list Registro)
         (fornecedores_corretos : list (list string)),
    List.length licitacoes_teste <> List.length fornecedores_corretos ->
    avaliar_recomendacoes licitacoes_teste fornecedores_corretos
      {| self := s; mundo := w |}
    = (Retorno SemMetricas,
       {| self := s;
          mundo := com_log (log w ++ [(ERROR, MsgTamanhosDiferentes)]) w |}).
Proof.
  intros s w L F H. unfold avaliar_recomendacoes.
  apply Nat.eqb_neq in H. rewrite H. reflexivity.
Qed.

Lemma avaliar_tamanhos_diferentes_witness :
  avaliar_recomendacoes [licitacao_alfa] [] estado_beta
  = (Retorno SemMetricas,
     {| self := self estado_beta;
        mundo := com_log (log (mundo estado_beta)
                          ++ [(ERROR, MsgTamanhosDiferentes)])
                   (mundo estado_beta) |}).
Proof.
  apply (avaliar_tamanhos_diferentes (self estado_beta) (mundo estado_beta)
           [licitacao_alfa] []).
  simpl. lia.
Defined.

(** C7 as stated fails in the error: one bid against no list of expected
    suppliers returns the empty [dict], and nothing is raised. *)
Lemma avaliar_tamanhos_diferentes_cex :
  List.length [licitacao_alfa] <> List.length (@nil (list string))
  /\ resultado (avaliar_recomendacoes [licitacao_alfa] []) estado_beta
     = Retorno SemMetricas
  /\ forall x, resultado (avaliar_recomendacoes [licitacao_alfa] [])
                 estado_beta <> Levanta x.
Proof.
  split; [simpl; lia|]. split; [reflexivity|]. intros x; discriminate.
Qed.

(** [recomendar] changes neither the instance nor the count of attempts on
    the hub. *)
Lemma recomendar_preserva (e : Estado) (lic : Registro) (k : Z) :
  self (apos (recomendar lic k) e) = self e
  /\ tentativas_st (mundo (apos (recomendar lic k) e))
     = tentativas_st (mundo e).
Proof.
  destruct e as [s w]. unfold recomendar; desdobra.
  destruct (fornecedores_vetores s) as [V|]; [|split; reflexivity].
  destruct (fornecedores_dados s) as [D|]; [|split; reflexivity].
  destruct (sentence_transformer s) as [enc|]; desdobra.
  - destruct (cosine_similarity _ V); split; reflexivity.
  - destruct (ajustado (vectorizer s)) as [f|]; desdobra;
      [|split; reflexivity].
    destruct (cosine_similarity _ V); split; reflexivity.
Qed.

(** C8, as the code has it. The attempt to load the sentence model belongs
    to [treinar], once per call that finds no model held: [recomendar]
    makes none; [treinar] makes none when a model is held or no supplier is
    given, and otherwise makes exactly one, whatever earlier calls met. A
    failed attempt is logged and not raised, and leaves no model held, so
    that call embeds with TF-IDF and the next [treinar] tries again. *)
Theorem inicializacao_st_a_cada_treinamento :
  forall (e : Estado) (fornecedores : list Registro) (lic : Registro) (k : Z),
    tentativas_st (mundo (apos (recomendar lic k) e))
    = tentativas_st (mundo e)
    /\ (fornecedores = [] \/ sentence_transformer (self e) <> None ->
        tentativas_st (mundo (apos (treinar fornecedores) e))
        = tentativas_st (mundo e))
    /\ (fornecedores <> [] -> sentence_transformer (self e) = None ->
        tentativas_st (mundo (apos (treinar fornecedores) e))
        = S (tentativas_st (mundo e))
        /\ sentence_transformer (self (apos (treinar fornecedores) e))
           = hub (mundo e) (tentativas_st (mundo e)))
    /\ (fornecedores <> [] -> sentence_transformer (self e) = None ->
        hub (mundo e) (tentativas_st (mundo e)) = None ->
        In (ERROR, MsgErroCarregarSt OSError)
           (log (mundo (apos (treinar fornecedores) e)))
        /\ resultado (treinar fornecedores) e <> Levanta OSError
        /\ forall f,
             tfidf_fit (mundo e) (map texto_fornecedor fornecedores) = Some f ->
             resultado (treinar fornecedores) e = Retorno tt
             /\ fornecedores_vetores (self (apos (treinar fornecedores) e))
                = Some (map f (map texto_fornecedor fornecedores))).
Proof.
  intros [s w] F lic k. simpl self. simpl mundo.
  split; [apply (recomendar_preserva {| self := s; mundo := w |})|].
  split; [|split].
  - intros [->|H]; [reflexivity|].
    destruct F as [|f0 F]; [reflexivity|].
    unfold treinar; desdobra.
    destruct (sentence_transformer s) as [enc|] eqn:E; [|congruence].
    desdobra. rewrite E. desdobra. reflexivity.
  - intros HF HS. destruct F as [|f0 F]; [congruence|].
    unfold treinar, _inicializar_sentence_transformer; desdobra.
    rewrite HS; desdobra.
    destruct (hub w (tentativas_st w)) as [enc|]; desdobra.
    + split; reflexivity.
    + destruct (tfidf_fit w _); desdobra; split; reflexivity.
  - intros HF HS HH. destruct F as [|f0 F]; [congruence|].
    unfold treinar, _inicializar_sentence_transformer; desdobra.
    rewrite HS; desdobra. rewrite HH; desdobra.
    destruct (tfidf_fit w _) as [g|] eqn:Eg; desdobra.
    + split; [rewrite !in_app_iff; simpl; tauto|].
      split; [discriminate|].
      intros f [= <-]. split; reflexivity.
    + split; [rewrite !in_app_iff; simpl; tauto|].
      split; [discriminate|]. intros f; discriminate.
Qed.

(** C8 as stated fails: where the sentence model fails to load at the first
    [treinar], the second [treinar] of the same instance tries again, and,
    the model then loading, embeds with it. Three suppliers are trained,
    two of which share a word, as the vectorizer's [min_df = 2] asks. *)
Lemma inicializacao_st_repetida_cex :
  let fornecedores :=
    [fornecedor_alfa_servicos; fornecedor_beta_servicos; fornecedor_gama] in
  let e1 := apos (treinar fornecedores) estado_st_tardio in
  let e2 := apos (treinar fornecedores) e1 in
  tentativas_st (mundo e1) = 1
  /\ sentence_transformer (self e1) = None
  /\ fornecedores_vetores (self e1)
     = Some [tfidf_servicos "alfa servicos"%string;
             tfidf_servicos "beta servicos"%string;
             tfidf_servicos "gama"%string]
  /\ tentativas_st (mundo e2) = 2
  /\ sentence_transformer (self e2) = Some enc_sinal
  /\ fornecedores_vetores (self e2)
     = Some [enc_sinal "alfa servicos"%string;
             enc_sinal "beta servicos"%string;
             enc_sinal "gama"%string].
Proof. repeat split; reflexivity. Qed.

(** Where it never loads, every [treinar] tries: two calls, two attempts. *)
Lemma inicializacao_st_sem_modelo :
  let e1 := apos (treinar [fornecedor_alfa]) estado_sem_st in
  let e2 := apos (treinar [fornecedor_alfa]) e1 in
  tentativas_st (mundo e1) = 1 /\ tentativas_st (mundo e2) = 2
  /\ sentence_transformer (self e2) = None.
Proof. repeat split; reflexivity. Qed.

End Alegacoes_estado.

(** ** [treinar] reaches the state Trained *)

Section Treinamento.

Local Open Scope nat_scope.

(** [treinar] reaches the state Trained. *)
Lemma treinar_treinado_aux (e : Estado) (fornecedores : list Registro)
  (d : nat) :
  fornecedores <> [] -> d <> 0 ->
  (forall enc t, sentence_transformer (self e) = Some enc ->
                 List.length (enc t) = d) ->
  (forall n enc t, hub (mundo e) n = Some enc -> List.length (enc t) = d) ->
  (forall T f t, tfidf_fit (mundo e) T = Some f -> List.length (f t) = d) ->
  resultado (treinar fornecedores) e = Retorno tt ->
  exists V, Treinado (self (apos (treinar fornecedores) e)) V fornecedores d.
Proof.
  destruct e as [s w]. simpl self; simpl mundo.
  intros HF Hd Hs Hh Ht.
  destruct fornecedores as [|f0 F]; [congruence|].
  set (textos := map texto_fornecedor (f0 :: F)).
  assert (Hbuild : forall g : string -> Vec,
             (forall t, List.length (g t) = d) ->
             List.length (map g textos) = List.length (f0 :: F)
             /\ map g textos <> []
             /\ Forall (fun v => List.length v = d) (map g textos)).
  { intros g Hg. split; [unfold textos; now rewrite !length_map|].
    split; [discriminate|].
    apply Forall_forall. intros v Hv. apply in_map_iff in Hv.
    destruct Hv as [t [<- _]]. apply Hg. }
  unfold treinar, _inicializar_sentence_transformer; desdobra.
  destruct (sentence_transformer s) as [enc|] eqn:Es; desdobra.
  - rewrite Es; desdobra. intros _.
    destruct (Hbuild enc (fun t => Hs enc t eq_refl)) as (H1 & H2 & H3).
    exists (map enc textos). unfold Treinado, embute; simpl.
    rewrite Es. repeat split; try assumption.
    intros t. exists (enc t). split; [reflexivity|]. now apply Hs.
  - destruct (hub w (tentativas_st w)) as [enc|] eqn:Eh; desdobra.
    + intros _.
      destruct (Hbuild enc (fun t => Hh _ enc t Eh)) as (H1 & H2 & H3).
      exists (map enc textos). unfold Treinado, embute; simpl.
      repeat split; try assumption.
      intros t. exists (enc t). split; [reflexivity|]. now apply (Hh _ _ _ Eh).
    + destruct (tfidf_fit w _) as [g|] eqn:Eg; desdobra; [|discriminate].
      intros _.
      destruct (Hbuild g (fun t => Ht _ g t Eg)) as (H1 & H2 & H3).
      exists (map g textos). unfold Treinado, embute; simpl.
      repeat split; try assumption.
      intros t. exists (g t). split; [reflexivity|]. now apply (Ht _ _ _ Eg).
Qed.

(** X3. A [treinar] that returns leaves the state Trained, with the
    suppliers given as records, the embedders of the world being functions
    into a space of one dimension [d >= 1]. *)
Theorem treinar_estabelece_treinado (e : Estado)
  (fornecedores : list Registro) (d : nat) :
  fornecedores <> [] -> d <> 0 ->
  (forall enc t, sentence_transformer (self e) = Some enc ->
                 List.length (enc t) = d) ->
  (forall n enc t, hub (mundo e) n = Some enc -> List.length (enc t) = d) ->
  (forall T f t, tfidf_fit (mundo e) T = Some f -> List.length (f t) = d) ->
  resultado (treinar fornecedores) e = Retorno tt ->
  exists V, Treinado (self (apos (treinar fornecedores) e)) V fornecedores d.
Proof.
  intros HF Hd Hs Hh Ht Hres.
  exact (treinar_treinado_aux e fornecedores d HF Hd Hs Hh Ht Hres).
Qed.

(** With no supplier, [treinar] only logs a warning: the instance is
    left as it was. *)
Lemma treinar_vazio (e : Estado) :
  treinar [] e
  = (Retorno tt,
     {| self := self e;
        mundo := com_log (log (mundo e) ++ [(WARNING, MsgNenhumFornecedor)])
                   (mundo e) |}).
Proof. reflexivity. Qed.

Lemma treinar_estabelece_treinado_witness :
  exists V, Treinado (self estado_beta) V [fornecedor_beta] 1.
Proof.
  apply (treinar_estabelece_treinado estado_st [fornecedor_beta] 1).
  - discriminate.
  - discriminate.
  - intros enc t H. discriminate H.
  - intros n enc t H. injection H as <-. apply enc_sinal_length.
  - intros T f t H. injection H as <-. reflexivity.
  - reflexivity.
Defined.

(** With no bid and no list of expected suppliers the lengths agree,
    the loop runs no round, and the means divide by zero. *)
Lemma avaliar_sem_testes (e : Estado) :
  resultado (avaliar_recomendacoes [] []) e = Levanta ZeroDivisionError.
Proof. reflexivity. Qed.

End Treinamento.

(** ** The proposal scorer *)

Section Alegacoes_pontuacao.

Import Pontuacao.

Local Open Scope Q_scope.

Lemma clamp_cases (x : Q) :
  (x <= 0 /\ clamp x 0 100 == 0)
  \/ (0 <= x <= 100 /\ clamp x 0 100 == x)
  \/ (100 <= x /\ clamp x 0 100 == 100).
Proof.
  unfold clamp.
  destruct (Q.max_spec 0 (Qmin x 100)) as [[Ha Hb]|[Ha Hb]];
    destruct (Q.min_spec x 100) as [[Hc Hd]|[Hc Hd]].
  - right; left. rewrite Hd in Ha. split; [lra|]. rewrite Hb. exact Hd.
  - right; right. split; [lra|]. rewrite Hb. exact Hd.
  - left. rewrite Hd in Ha. split; [lra|]. exact Hb.
  - rewrite Hd in Ha. lra.
Qed.

(** The code's [max(0, min(100, x))] is the clamp of the specification. *)
Lemma py_clamp_spec (x : Q) : py_max 0 (py_min 100 x) == clamp x 0 100.
Proof.
  destruct (clamp_cases x) as [[H E]|[[H E]|[H E]]]; rewrite E;
    unfold py_max, py_min;
    destruct (Qlt_le_dec x 100); try lra;
    match goal with |- context [Qlt_le_dec 0 ?m] =>
      destruct (Qlt_le_dec 0 m) end; lra.
Qed.

Lemma preco_score_spec (p : Proposta) (est : Q) :
  exists preco,
    preco_score p {| valor_estimado := Some est |} = Retorno preco
    /\ preco == fator_preco_spec (valor p) est.
Proof.
  eexists. split; [reflexivity|].
  unfold fator_preco_spec. rewrite py_clamp_spec.
  destruct (Qlt_le_dec 0 est); [reflexivity|].
  destruct (clamp_cases 50) as [[H E]|[[H E]|[H E]]]; lra.
Qed.

Lemma prazo_score_spec (p : Proposta) :
  prazo_score p == fator_prazo_spec (prazo_entrega p).
Proof.
  unfold prazo_score, fator_prazo_spec. rewrite py_clamp_spec.
  destruct (Z_lt_dec 0 (prazo_entrega p)); [reflexivity|].
  destruct (clamp_cases 50) as [[H E]|[[H E]|[H E]]]; lra.
Qed.

(** For every proposal, supplier and estimated value that is a number,
    the score the code stores is the specification's
    [0.5 * price + 0.3 * delivery + 0.2 * rating], each factor being the
    specification's; a proposal at the estimated value has price factor 0,
    a proposal of value 0 has price factor 100, and an estimated value that
    is not positive, or a delivery time that is not positive, gives the
    neutral 50. The scorer returns in all these cases: nothing is raised. *)
Theorem pontuacao_conforme_spec :
  forall (p : Proposta) (f : Fornecedor) (est : Q),
    let l := {| valor_estimado := Some est |} in
    (exists s,
        pontuacao p f l = Retorno s
        /\ s == score_spec (valor p) (prazo_entrega p) (avaliacao_media f) est)
    /\ (exists preco,
           preco_score p l = Retorno preco
           /\ preco == fator_preco_spec (valor p) est
           /\ (0 < est -> valor p == est -> preco == 0)
           /\ (0 < est -> valor p == 0 -> preco == 100)
           /\ (est <= 0 -> preco == 50))
    /\ prazo_score p == fator_prazo_spec (prazo_entrega p)
    /\ ((prazo_entrega p <= 0)%Z -> prazo_score p == 50)
    /\ avaliacao_score f == fator_avaliacao_spec (avaliacao_media f).
Proof.
  intros p f est l.
  destruct (preco_score_spec p est) as (preco & E & Hpreco). fold l in E.
  pose proof (prazo_score_spec p) as Hprazo.
  split; [|split; [|split; [|split]]].
  - exists (preco * preco_peso + prazo_score p * prazo_peso
            + avaliacao_score f * avaliacao_peso).
    split. { unfold pontuacao. rewrite E. reflexivity. }
    unfold score_spec, fator_avaliacao_spec, avaliacao_score, preco_peso,
      prazo_peso, avaliacao_peso.
    rewrite Hpreco, Hprazo. lra.
  - exists preco. split; [assumption|]. split; [assumption|].
    unfold fator_preco_spec in Hpreco.
    split; [|split]; intros.
    + destruct (Qlt_le_dec 0 est); [|lra]. rewrite Hpreco.
      assert (Hz : 100 - valor p / est * 100 == 0) by (rewrite H0; field; lra).
      destruct (clamp_cases (100 - valor p / est * 100))
        as [[H1 E1]|[[H1 E1]|[H1 E1]]]; lra.
    + destruct (Qlt_le_dec 0 est); [|lra]. rewrite Hpreco.
      assert (Hz : 100 - valor p / est * 100 == 100)
        by (rewrite H0; field; lra).
      destruct (clamp_cases (100 - valor p / est * 100))
        as [[H1 E1]|[[H1 E1]|[H1 E1]]]; lra.
    + destruct (Qlt_le_dec 0 est); [lra|]. assumption.
  - assumption.
  - rewrite Hprazo. unfold fator_prazo_spec.
    destruct (Z_lt_dec 0 (prazo_entrega p)); [lia|reflexivity].
  - reflexivity.
Qed.

(** An estimated value that is absent is outside the numbers: comparing
    [None] with [0] raises [TypeError]. *)
Lemma pontuacao_sem_valor_estimado (p : Proposta) (f : Fornecedor) :
  pontuacao p f {| valor_estimado := None |} = Levanta TypeError.
Proof. reflexivity. Qed.

(** C2 fails on the code where the estimated value is absent.
    [Licitacao.valor_estimado] is a nullable column. With an estimated
    value that is a number, positive or not, the score stored is the
    specification's. With none, the specification gives the neutral price
    factor 50 and so a score, 56 for a proposal of value 50 and 15 days by
    a supplier rated 4; the code compares [None > 0] at line 210 and raises
    [TypeError], whatever the proposal and the supplier, and the task
    reports an error for the whole bid. *)
Theorem pontuacao_estimativa_ausente_diverge :
  (forall (p : Proposta) (f : Fornecedor) (est : Q),
     exists s,
       pontuacao p f {| valor_estimado := Some est |} = Retorno s
       /\ s == score_spec_opt (valor p) (prazo_entrega p)
                 (avaliacao_media f) (Some est))
  /\ (forall (p : Proposta) (f : Fornecedor),
        pontuacao p f {| valor_estimado := None |} = Levanta TypeError
        /\ fator_preco_spec_opt (valor p) None == 50)
  /\ pontuacao {| valor := 50; prazo_entrega := 15 |}
               {| avaliacao_media := 4 |}
               {| valor_estimado := None |} = Levanta TypeError
  /\ score_spec_opt 50 15 4 None == 56
  /\ Tarefa.retorno
       (Tarefa.calculate_supplier_scores "L2" ExemploTarefa.banco_exemplo)
     = Tarefa.Erro "L2" TypeError.
Proof.
  split; [|split; [|split; [|split]]].
  - intros p f est.
    destruct (pontuacao_conforme_spec p f est) as [(s & E & H) _].
    exists s. split; [exact E|exact H].
  - intros p f. split; reflexivity.
  - reflexivity.
  - reflexivity.
  - reflexivity.
Qed.

Example ex_pontuacao :
  exists s,
    pontuacao {| valor := 50; prazo_entrega := 15 |}
              {| avaliacao_media := 4 |}
              {| valor_estimado := Some 100 |} = Retorno s
    /\ s == 56.
Proof. eexists. split; [reflexivity|]. vm_compute. reflexivity. Qed.

End Alegacoes_pontuacao.

(** ** The normal form of texts *)

Section Normalizador.

Import Texto.

Local Open Scope nat_scope.

(** A fact about every character, checked on the 256 of them. *)
Lemma para_todo_caractere (p : ascii -> bool) :
  forallb (fun n => p (ascii_of_nat n)) (seq 0 256) = true ->
  forall c, p c = true.
Proof.
  intros H c. rewrite forallb_forall in H.
  rewrite <- (ascii_nat_embedding c). apply H, in_seq.
  pose proof (nat_ascii_bounded c). lia.
Qed.

(** One step of the functions on texts, the character classes left
    folded. *)
Ltac passo :=
  cbn [todos lower sub_especiais sub_sequencias lstrip rstrip sem_duplos
       espacos_simples andb orb negb].

Tactic Notation "passo" "in" hyp(H) :=
  cbn [todos lower sub_especiais sub_sequencias lstrip rstrip sem_duplos
       espacos_simples andb orb negb] in H.

Lemma minuscula_nao_maiuscula (c : ascii) :
  eh_maiuscula (minuscula c) = false.
Proof.
  apply negb_true_iff.
  apply (para_todo_caractere (fun c => negb (eh_maiuscula (minuscula c)))).
  vm_compute. reflexivity.
Qed.

Lemma branco_espaco (c : ascii) : eh_branco c = true -> eh_espaco c = true.
Proof. unfold eh_branco. intros H. apply Ascii.eqb_eq in H. now subst. Qed.

Lemma nao_espaco_nao_branco (c : ascii) :
  eh_espaco c = false -> eh_branco c = false.
Proof.
  intros H. destruct (eh_branco c) eqn:E; [|reflexivity].
  apply branco_espaco in E. congruence.
Qed.

(** What a normal character is not. *)
Lemma car_normal_inv (c : ascii) :
  car_normal c = true ->
  eh_maiuscula c = false /\ eh_digito c = false
  /\ (eh_palavra c || eh_espaco c = true)
  /\ eh_espaco c = eh_branco c.
Proof.
  intros H.
  pose proof (para_todo_caractere
    (fun c => implb (car_normal c)
                (negb (eh_maiuscula c) && negb (eh_digito c)
                 && (eh_palavra c || eh_espaco c)
                 && Bool.eqb (eh_espaco c) (eh_branco c)))
    ltac:(vm_compute; reflexivity) c) as F.
  cbv beta in F. rewrite H in F. simpl implb in F.
  apply andb_true_iff in F. destruct F as [F F4].
  apply andb_true_iff in F. destruct F as [F F3].
  apply andb_true_iff in F. destruct F as [F1 F2].
  apply negb_true_iff in F1. apply negb_true_iff in F2.
  apply Bool.eqb_prop in F4. auto.
Qed.

Lemma sub_especiais_lower_todos (s : string) :
  todos car_2 (sub_especiais (lower s)) = true.
Proof.
  induction s as [|c r IH]; passo; [reflexivity|].
  rewrite IH, andb_true_r.
  destruct (eh_palavra (minuscula c) || eh_espaco (minuscula c)) eqn:E.
  - unfold car_2. now rewrite E, minuscula_nao_maiuscula.
  - reflexivity.
Qed.

(** A substitution of runs keeps what holds of the space and of the
    characters outside the class. *)
Lemma sub_sequencias_todos (p k k' : ascii -> bool) :
  k' " "%char = true ->
  (forall c, k c = true -> p c = false -> k' c = true) ->
  forall s d, todos k s = true -> todos k' (sub_sequencias p d s) = true.
Proof.
  intros Hsp Hk. induction s as [|c r IH]; intros d H; passo; [reflexivity|].
  passo in H. apply andb_true_iff in H. destruct H as [Hc Hr].
  destruct (p c) eqn:E.
  - destruct d; passo; [|rewrite Hsp]; now apply IH.
  - passo. rewrite (Hk c Hc E). now apply IH.
Qed.

Lemma sub_sequencias_sem_duplos (s : string) (d : bool) :
  sem_duplos d (sub_sequencias eh_espaco d s) = true.
Proof.
  revert d; induction s as [|c r IH]; intros d; passo; [reflexivity|].
  destruct (eh_espaco c) eqn:E.
  - destruct d; [apply IH|]. passo. apply IH.
  - passo. rewrite (nao_espaco_nao_branco c E). apply IH.
Qed.

Lemma lstrip_todos (k : ascii -> bool) (s : string) :
  todos k s = true -> todos k (lstrip s) = true.
Proof.
  induction s as [|c r IH]; passo; [reflexivity|]. intros H.
  destruct (eh_espaco c); [|exact H].
  apply andb_true_iff in H. now apply IH.
Qed.

Lemma lstrip_sem_duplos (s : string) (a : bool) :
  sem_duplos a s = true -> sem_duplos true (lstrip s) = true.
Proof.
  revert a; induction s as [|c r IH]; intros a; passo; [reflexivity|].
  destruct (eh_espaco c) eqn:E.
  - destruct (eh_branco c).
    + intros H. apply andb_true_iff in H. now apply (IH true).
    + apply IH.
  - passo. rewrite (nao_espaco_nao_branco c E). trivial.
Qed.

Lemma rstrip_todos (k : ascii -> bool) (s : string) :
  todos k s = true -> todos k (rstrip s) = true.
Proof.
  induction s as [|c r IH]; passo; [reflexivity|]. intros H.
  apply andb_true_iff in H. destruct H as [Hc Hr]. specialize (IH Hr).
  destruct (rstrip r) as [|c' r'].
  - destruct (eh_espaco c); passo; [reflexivity|]. now rewrite Hc.
  - change (todos k (String c (String c' r')) = true). passo.
    rewrite Hc. exact IH.
Qed.

Lemma rstrip_espacos_simples (s : string) (a : bool) :
  sem_duplos a s = true ->
  rstrip s = EmptyString \/ espacos_simples a (rstrip s) = true.
Proof.
  revert a; induction s as [|c r IH]; intros a H; passo; [now left|].
  passo in H.
  destruct (rstrip r) as [|c' r'] eqn:Er.
  - destruct (eh_espaco c) eqn:E; [now left|]. right. passo.
    now rewrite (nao_espaco_nao_branco c E).
  - right. change (espacos_simples a (String c (String c' r')) = true).
    passo.
    destruct (eh_branco c).
    + apply andb_true_iff in H. destruct H as [Ha Hr]. rewrite Ha. passo.
      destruct (IH true Hr) as [H|H]; [discriminate|exact H].
    + destruct (IH false H) as [H'|H']; [discriminate|exact H'].
Qed.

(** The result of [preprocessar_texto] is a normal form. *)
Lemma preprocessar_forma_normal_aux (s : string) :
  forma_normal (preprocessar_texto s) = true.
Proof.
  destruct s as [|c0 r0]; [reflexivity|].
  unfold preprocessar_texto.
  set (t2 := sub_especiais (lower (String c0 r0))).
  set (t3 := sub_sequencias eh_digito false t2).
  set (t4 := sub_sequencias eh_espaco false t3).
  assert (H2 : todos car_2 t2 = true) by apply sub_especiais_lower_todos.
  assert (H3 : todos (fun c => car_2 c && negb (eh_digito c)) t3 = true).
  { apply (sub_sequencias_todos eh_digito car_2); [reflexivity| |exact H2].
    intros c Hc Hd. now rewrite Hc, Hd. }
  assert (H4 : todos car_normal t4 = true).
  { apply (sub_sequencias_todos eh_espaco
             (fun c => car_2 c && negb (eh_digito c)));
      [reflexivity| |exact H3].
    intros c Hc He. unfold car_normal, car_2 in *.
    rewrite He in *. rewrite orb_false_r in Hc.
    rewrite !andb_true_iff, !negb_true_iff in Hc.
    destruct Hc as [[Hp Hm] Hd]. rewrite Hp, Hm, Hd.
    now rewrite orb_true_r. }
  assert (S4 : sem_duplos false t4 = true)
    by apply sub_sequencias_sem_duplos.
  unfold strip, forma_normal.
  rewrite (rstrip_todos car_normal _ (lstrip_todos car_normal _ H4)).
  destruct (rstrip_espacos_simples (lstrip t4) true
              (lstrip_sem_duplos t4 false S4)) as [E|E].
  - rewrite E. reflexivity.
  - rewrite E. now destruct (rstrip (lstrip t4)).
Qed.

(** A normal form is left as it is by each step. *)
Lemma lower_forma_normal (s : string) :
  todos car_normal s = true -> lower s = s.
Proof.
  induction s as [|c r IH]; passo; [reflexivity|]. intros H.
  apply andb_true_iff in H. destruct H as [Hc Hr].
  rewrite (IH Hr). f_equal. unfold minuscula.
  now rewrite (proj1 (car_normal_inv c Hc)).
Qed.

Lemma sub_especiais_forma_normal (s : string) :
  todos car_normal s = true -> sub_especiais s = s.
Proof.
  induction s as [|c r IH]; passo; [reflexivity|]. intros H.
  apply andb_true_iff in H. destruct H as [Hc Hr].
  rewrite (IH Hr). f_equal.
  destruct (car_normal_inv c Hc) as (_ & _ & H & _). now rewrite H.
Qed.

Lemma sub_digitos_forma_normal (s : string) (d : bool) :
  todos car_normal s = true -> sub_sequencias eh_digito d s = s.
Proof.
  revert d; induction s as [|c r IH]; intros d; passo; [reflexivity|].
  intros H. apply andb_true_iff in H. destruct H as [Hc Hr].
  destruct (car_normal_inv c Hc) as (_ & H & _ & _). rewrite H.
  f_equal. now apply IH.
Qed.

Lemma sub_espacos_forma_normal (s : string) (a : bool) :
  todos car_normal s = true -> espacos_simples a s = true ->
  sub_sequencias eh_espaco a s = s.
Proof.
  revert a; induction s as [|c r IH]; intros a; passo; [reflexivity|].
  intros H S. apply andb_true_iff in H. destruct H as [Hc Hr].
  destruct (car_normal_inv c Hc) as (_ & _ & _ & H). rewrite H.
  destruct (eh_branco c) eqn:E.
  - apply andb_true_iff in S. destruct S as [Sa Sr].
    apply negb_true_iff in Sa. subst a.
    unfold eh_branco in E. apply Ascii.eqb_eq in E. subst c.
    f_equal. now apply IH.
  - f_equal. now apply IH.
Qed.

Lemma rstrip_forma_normal (s : string) (a : bool) :
  todos car_normal s = true -> espacos_simples a s = true ->
  s <> EmptyString -> rstrip s = s.
Proof.
  revert a; induction s as [|c r IH]; intros a H S Hne; [congruence|].
  passo in H; passo in S. apply andb_true_iff in H. destruct H as [Hc Hr].
  destruct (car_normal_inv c Hc) as (_ & _ & _ & He).
  passo. destruct r as [|c' r'].
  - passo. rewrite He. destruct (eh_branco c); [|reflexivity].
    passo in S. now rewrite andb_false_r in S.
  - assert (Hrr : rstrip (String c' r') = String c' r').
    { destruct (eh_branco c).
      + apply andb_true_iff in S. destruct S as [_ S].
        now apply (IH true).
      + now apply (IH false). }
    now rewrite Hrr.
Qed.

Lemma preprocessar_texto_fixa_forma_normal (s : string) :
  forma_normal s = true -> preprocessar_texto s = s.
Proof.
  unfold forma_normal. intros H. apply andb_true_iff in H.
  destruct H as [Ht Hs]. destruct s as [|c r]; [reflexivity|].
  unfold preprocessar_texto.
  rewrite (lower_forma_normal _ Ht), (sub_especiais_forma_normal _ Ht),
    (sub_digitos_forma_normal _ false Ht).
  assert (Hc : eh_branco c = false).
  { passo in Hs. destruct (eh_branco c); [discriminate|reflexivity]. }
  assert (Hs' : espacos_simples false (String c r) = true).
  { passo in Hs. passo. now rewrite Hc in *. }
  rewrite (sub_espacos_forma_normal _ false Ht Hs').
  unfold strip.
  assert (Hl : lstrip (String c r) = String c r).
  { passo. passo in Ht. apply andb_true_iff in Ht. destruct Ht as [Hn _].
    destruct (car_normal_inv c Hn) as (_ & _ & _ & He).
    now rewrite He, Hc. }
  rewrite Hl. apply (rstrip_forma_normal _ false Ht Hs'). discriminate.
Qed.

(** X1. The normaliser is idempotent. *)
Theorem preprocessar_texto_idempotente (s : string) :
  preprocessar_texto (preprocessar_texto s) = preprocessar_texto s.
Proof.
  apply preprocessar_texto_fixa_forma_normal,
    preprocessar_forma_normal_aux.
Qed.

(** X2. The result of the normaliser is a normal form: each character is
    the space or a word character that is neither a decimal digit nor upper
    case, no space follows a space, and no space begins or ends the text. *)
Theorem preprocessar_texto_forma_normal (s : string) :
  forma_normal (preprocessar_texto s) = true.
Proof. apply preprocessar_forma_normal_aux. Qed.

End Normalizador.

(** ** The text normaliser *)

Section Alegacoes_texto.

Import Texto.

Local Open Scope string_scope.

(** C9 fails on the code. The class [[^\w\s]] keeps the underscore, which
    is neither a letter, a digit nor a space, and no later step removes it:
    the normal form of "a_b" is "a_b". The comment above the substitution
    says that only letters, numbers and spaces are kept. *)
Theorem preprocessar_texto_mantem_sublinhado :
  preprocessar_texto "a_b" = "a_b"
  /\ eh_letra "_"%char = false
  /\ eh_espaco "_"%char = false
  /\ preprocessar_texto "Lote_7 (A)" = "lote_ a".
Proof. repeat split; vm_compute; reflexivity. Qed.

Example ex_preprocessar :
  preprocessar_texto "Teste de Pre-processamento 123! @#$%"
  = "teste de pre processamento".
Proof. vm_compute. reflexivity. Qed.

Example ex_preprocessar_vazio : preprocessar_texto "" = "".
Proof. reflexivity. Qed.

End Alegacoes_texto.

(** ** The ranker on machine-checkable numbers *)

Section Exemplos_ranker.

Example ex_indices_top :
  indices_top (argsort_estavel Z.ltb) [3; 1; 2]%Z 2 = [0; 2]%nat.
Proof. vm_compute. reflexivity. Qed.

Example ex_indices_top_empate :
  indices_top (argsort_estavel Z.ltb) [5; 5; 1]%Z 2 = [1; 0]%nat.
Proof. vm_compute. reflexivity. Qed.

Example ex_indices_top_zero :
  indices_top (argsort_estavel Z.ltb) [3; 1; 2]%Z 0 = [0; 2; 1]%nat.
Proof. vm_compute. reflexivity. Qed.

Example ex_indices_top_excesso :
  indices_top (argsort_estavel Z.ltb) [3; 1; 2]%Z 10 = [0; 2; 1]%nat.
Proof. vm_compute. reflexivity. Qed.

Example ex_indices_top_negativo :
  indices_top (argsort_estavel Z.ltb) [3; 1; 2]%Z (-1) = [0; 2]%nat.
Proof. vm_compute. reflexivity. Qed.

End Exemplos_ranker.

(** ** More on [recomendar] *)

Section Propriedades_recomendar.

Local Open Scope nat_scope.

Lemma recomendador_tfidf_treinado :
  Treinado recomendador_tfidf [[1%R]] [fornecedor_alfa] 1.
Proof.
  repeat split; try reflexivity; try discriminate.
  - repeat constructor.
  - intros texto. exists (tfidf_unitario texto). split; reflexivity.
Qed.

Lemma montar_firstn (D : list Registro) (sims : list R) (idxs : list nat) :
  Forall (fun idx => idx < List.length D) idxs ->
  forall i m,
    montar D sims i (firstn m idxs) = firstn m (montar D sims i idxs).
Proof.
  induction 1 as [|idx r Hidx Hr IH]; intros i m.
  - destruct m; reflexivity.
  - destruct m; [reflexivity|]. simpl.
    destruct (nth_error D idx) eqn:E.
    + simpl. f_equal. apply IH.
    + apply nth_error_None in E. lia.
Qed.

(** The slice of line 176 for any [top_n], as a prefix of the whole
    descending order. *)
Lemma indices_top_prefixo (A : Type) (ltb : A -> A -> bool)
  (argsort : list A -> list nat) (l : list A) (k : Z) :
  contrato_argsort ltb argsort ->
  indices_top argsort l k
  = firstn (if (1 <=? k)%Z then Z.to_nat k
            else List.length l - Z.to_nat (- k))
           (indices_top argsort l 0).
Proof.
  intros Hok. rewrite indices_top_zero. unfold indices_top, slice_from.
  pose proof (argsort_length A ltb argsort Hok l) as HL.
  rewrite firstn_rev. f_equal. f_equal. rewrite HL.
  destruct (Z.leb_spec 1 k); destruct (Z.ltb_spec (- k) 0); lia.
Qed.

(** X13. Whatever [top_n] is, the result is a prefix of the full ranking,
    the one that [top_n = 0] returns: its first [top_n] entries when
    [top_n >= 1], and all but its last [-top_n] entries when [top_n] is
    negative. Asking for fewer candidates never changes who comes first,
    nor a candidate's score or rank. *)
Theorem recomendar_prefixo_do_ranking :
  forall (s : Recomendador) (w : Mundo) (V : Matriz) (D : list Registro)
         (d : nat) (lic : Registro) (k : Z),
    Treinado s V D d ->
    contrato_argsort Rltb (np_argsort w) ->
    exists todas recs,
      resultado (recomendar lic 0) {| self := s; mundo := w |}
      = Retorno todas
      /\ resultado (recomendar lic k) {| self := s; mundo := w |}
         = Retorno recs
      /\ List.length todas = List.length D
      /\ recs = firstn (if (1 <=? k)%Z then Z.to_nat k
                        else List.length D - Z.to_nat (- k)) todas.
Proof.
  intros s w V D d lic k HT Hok.
  destruct (recomendar_treinado s w V D d lic 0 HT) as (q0 & E0 & _ & H0).
  destruct (recomendar_treinado s w V D d lic k HT) as (q & Eq & _ & Hk).
  rewrite E0 in Eq. injection Eq as <-.
  cbv zeta in H0, Hk.
  destruct HT as (HV & HD & Hlen & Hne & Hd & HF & Hemb).
  set (sims := map (cosseno q0) V) in *.
  assert (Hs : List.length sims = List.length D)
    by (unfold sims; rewrite length_map; exact Hlen).
  assert (Hidx : Forall (fun idx => idx < List.length D)
                   (indices_top (np_argsort w) sims 0)).
  { apply Forall_forall. intros i Hi.
    apply (indices_top_in R Rltb (np_argsort w) Hok) in Hi. lia. }
  eexists. eexists. unfold resultado. rewrite H0, Hk. simpl.
  split; [reflexivity|]. split; [reflexivity|]. split.
  - rewrite montar_length by exact Hidx.
    rewrite indices_top_zero, length_rev.
    rewrite (argsort_length R Rltb (np_argsort w) Hok). exact Hs.
  - rewrite (indices_top_prefixo R Rltb (np_argsort w) sims k Hok), Hs.
    apply montar_firstn, Hidx.
Qed.

Lemma recomendar_prefixo_do_ranking_witness :
  exists todas recs,
    resultado (recomendar licitacao_alfa 0)
      {| self := recomendador_tfidf; mundo := mundo_sem_st |}
    = Retorno todas
    /\ resultado (recomendar licitacao_alfa (-1))
         {| self := recomendador_tfidf; mundo := mundo_sem_st |}
       = Retorno recs
    /\ List.length todas = 1
    /\ recs = firstn 0 todas.
Proof.
  apply (recomendar_prefixo_do_ranking recomendador_tfidf mundo_sem_st
           [[1%R]] [fornecedor_alfa] 1 licitacao_alfa (-1)
           recomendador_tfidf_treinado mundo_exemplo_argsort).
Defined.

(** X14. [recomendar] reads and logs, and nothing else: whatever the state,
    the bid and [top_n], and also when it raises, the instance is left as it
    was, and so are the files, the clock and the libraries; the log only
    grows. *)
Theorem recomendar_so_registra :
  forall (e : Estado) (lic : Registro) (k : Z),
    exists l,
      apos (recomendar lic k) e
      = {| self := self e;
           mundo := com_log (log (mundo e) ++ l) (mundo e) |}.
Proof.
  intros [s w] lic k. unfold recomendar; desdobra.
  destruct (fornecedores_vetores s) as [V|];
    [|eexists; reflexivity].
  destruct (fornecedores_dados s) as [D|];
    [|eexists; reflexivity].
  destruct (sentence_transformer s) as [enc|]; desdobra.
  - destruct (cosine_similarity _ V); desdobra; eexists;
      unfold com_log; simpl; rewrite <- ?app_assoc; reflexivity.
  - destruct (ajustado (vectorizer s)) as [f|]; desdobra;
      [|eexists; reflexivity].
    destruct (cosine_similarity _ V); desdobra; eexists;
      unfold com_log; simpl; rewrite <- ?app_assoc; reflexivity.
Qed.

End Propriedades_recomendar.

(** ** Persistence and construction *)

Section Propriedades_persistencia.

Local Open Scope nat_scope.

(** X8. [salvar_modelo] never raises and never changes the instance. It
    writes at most the file at the path given: in the state Untrained, or
    when the path cannot be written, no file changes; otherwise that file
    holds the vectors, the records, the vectorizer and the training time,
    and not the sentence model. *)
Theorem salvar_modelo_efeito :
  forall (s : Recomendador) (w : Mundo) (caminho : string),
    let e := apos (salvar_modelo caminho) {| self := s; mundo := w |} in
    resultado (salvar_modelo caminho) {| self := s; mundo := w |}
    = Retorno tt
    /\ self e = s
    /\ (forall c, c <> caminho -> arquivos (mundo e) c = arquivos w c)
    /\ (NaoTreinado s \/ gravavel w caminho = false ->
        arquivos (mundo e) caminho = arquivos w caminho)
    /\ (forall V D,
          fornecedores_vetores s = Some V -> fornecedores_dados s = Some D ->
          gravavel w caminho = true ->
          arquivos (mundo e) caminho
          = Some (Pickle
                    {| md_fornecedores_vetores := Some V;
                       md_fornecedores_dados := Some D;
                       md_vectorizer := Some (vectorizer s);
                       md_ultimo_treinamento :=
                         Some (ultimo_treinamento s) |})).
Proof.
  intros s w caminho. unfold salvar_modelo; desdobra.
  destruct (fornecedores_vetores s) as [V|] eqn:EV; desdobra.
  2:{ repeat split; try reflexivity. intros; discriminate. }
  destruct (fornecedores_dados s) as [D|] eqn:ED; desdobra.
  2:{ repeat split; try reflexivity. intros; discriminate. }
  destruct (gravavel w caminho) eqn:Eg; desdobra.
  - repeat split.
    + intros c Hc. apply String.eqb_neq in Hc. rewrite Hc. reflexivity.
    + unfold NaoTreinado. intros [[H|H]|H]; congruence.
    + intros V' D' [= <-] [= <-] _. rewrite String.eqb_refl. reflexivity.
  - repeat split; try reflexivity. intros; discriminate.
Qed.

Lemma salvar_modelo_efeito_witness :
  arquivos (mundo (apos (salvar_modelo "modelo.joblib")
                     {| self := recomendador_tfidf;
                        mundo := mundo_sem_st |}))
           "modelo.joblib"%string
  = Some (Pickle
            {| md_fornecedores_vetores := Some [[1%R]];
               md_fornecedores_dados := Some [fornecedor_alfa];
               md_vectorizer := Some (vectorizer recomendador_tfidf);
               md_ultimo_treinamento :=
                 Some (ultimo_treinamento recomendador_tfidf) |}).
Proof.
  pose proof (salvar_modelo_efeito recomendador_tfidf mundo_sem_st
                "modelo.joblib"%string) as H.
  cbv zeta in H. destruct H as (_ & _ & _ & _ & H).
  exact (H [[1%R]] [fornecedor_alfa] eq_refl eq_refl eq_refl).
Defined.



(** X6. A file that holds a [dict] with the vectors and without the
    records leaves the instance half loaded: the call returns normally, the
    [KeyError] is logged, the vectors are those of the file and every other
    attribute, the records among them, is as it was. *)
Theorem carregar_modelo_parcial :
  forall (s : Recomendador) (w : Mundo) (caminho : string) (d : ModeloDados)
         (V : Matriz),
    arquivos w caminho = Some (Pickle d) ->
    md_fornecedores_vetores d = Some V ->
    md_fornecedores_dados d = None ->
    carregar_modelo caminho {| self := s; mundo := w |}
    = (Retorno tt,
       {| self := set_fornecedores_vetores (Some V) s;
          mundo := com_log (log w ++ [(ERROR, MsgErroCarregar KeyError)])
                     w |}).
Proof.
  intros s w caminho d V Ha HV HD.
  unfold carregar_modelo; desdobra. rewrite Ha; desdobra.
  rewrite HV; desdobra. rewrite HD; desdobra. reflexivity.
Qed.

Lemma carregar_modelo_parcial_witness :
  let w := com_arquivo "outro.joblib" (Pickle dict_incompleto) mundo_sem_st in
  let e := apos (carregar_modelo "outro.joblib")
             {| self := recomendador_tfidf; mundo := w |} in
  fornecedores_vetores (self e) = Some [[1%R]; [1%R]]
  /\ fornecedores_dados (self e) = Some [fornecedor_alfa].
Proof.
  intros w e. unfold e, apos.
  rewrite (carregar_modelo_parcial recomendador_tfidf w "outro.joblib"
             dict_incompleto [[1%R]; [1%R]] eq_refl eq_refl eq_refl).
  split; reflexivity.
Defined.

(** X9. The constructor with no path, with the empty path or with a path
    where no file exists gives the fresh instance in the state Untrained,
    whatever the instance held before; nothing is loaded, logged or
    raised. *)
Theorem init_sem_modelo :
  forall (s : Recomendador) (w : Mundo) (caminho : option string),
    caminho = None \/ caminho = Some EmptyString
    \/ (exists c, caminho = Some c /\ arquivos w c = None) ->
    init caminho {| self := s; mundo := w |}
    = (Retorno tt, {| self := novo caminho; mundo := w |})
    /\ NaoTreinado (novo caminho).
Proof.
  intros s w caminho H. split; [|left; reflexivity].
  destruct H as [->|[->|(c & -> & H)]]; try reflexivity.
  unfold init; desdobra. destruct c; [reflexivity|].
  rewrite H. reflexivity.
Qed.

Lemma init_sem_modelo_witness :
  init (Some "modelo.joblib"%string)
    {| self := recomendador_tfidf; mundo := mundo_sem_st |}
  = (Retorno tt,
     {| self := novo (Some "modelo.joblib"%string); mundo := mundo_sem_st |}).
Proof.
  apply (init_sem_modelo recomendador_tfidf mundo_sem_st
           (Some "modelo.joblib"%string)).
  right; right. exists "modelo.joblib"%string. split; reflexivity.
Defined.

(** With a file at a path that is not empty, the constructor is the load
    into the fresh instance. *)
Lemma init_carrega (s0 : Recomendador) (w : Mundo) (caminho : string)
  (a : Arquivo) :
  caminho <> EmptyString ->
  arquivos w caminho = Some a ->
  init (Some caminho) {| self := s0; mundo := w |}
  = carregar_modelo caminho {| self := novo (Some caminho); mundo := w |}.
Proof.
  intros Hc Ha. unfold init, bind, atribuir, obter_mundo.
  cbn [self mundo]. destruct caminho as [|x c]; [congruence|].
  rewrite Ha. reflexivity.
Qed.

(** X10. Constructing an instance on the path a trained instance was saved
    to restores the corpus: the new instance holds the vectors, records,
    vectorizer and training time of the saved one, the path, and no
    sentence model. *)
Theorem init_restaura_modelo_salvo :
  forall (s s0 : Recomendador) (w : Mundo) (caminho : string) (V : Matriz)
         (D : list Registro),
    fornecedores_vetores s = Some V -> fornecedores_dados s = Some D ->
    gravavel w caminho = true ->
    caminho <> EmptyString ->
    let e1 := apos (salvar_modelo caminho) {| self := s; mundo := w |} in
    let e2 := apos (init (Some caminho))
                   {| self := s0; mundo := mundo e1 |} in
    resultado (init (Some caminho)) {| self := s0; mundo := mundo e1 |}
    = Retorno tt
    /\ fornecedores_vetores (self e2) = Some V
    /\ fornecedores_dados (self e2) = Some D
    /\ vectorizer (self e2) = vectorizer s
    /\ ultimo_treinamento (self e2) = ultimo_treinamento s
    /\ sentence_transformer (self e2) = None
    /\ modelo_path (self e2) = Some caminho.
Proof.
  intros s s0 w caminho V D HV HD Hg Hc e1 e2.
  assert (Hf : exists a, arquivos (mundo e1) caminho = Some a).
  { unfold e1, salvar_modelo; desdobra. rewrite HV, HD; desdobra.
    rewrite Hg; desdobra. rewrite String.eqb_refl. eexists; reflexivity. }
  destruct Hf as [a Hf].
  unfold e2, apos, resultado.
  rewrite (init_carrega s0 (mundo e1) caminho a Hc Hf).
  unfold e1, salvar_modelo; desdobra. rewrite HV, HD; desdobra.
  rewrite Hg; desdobra.
  unfold carregar_modelo; desdobra. rewrite String.eqb_refl; desdobra.
  destruct (ultimo_treinamento s); simpl; repeat split; reflexivity.
Qed.

Lemma init_restaura_modelo_salvo_witness :
  let e1 := apos (salvar_modelo "modelo.joblib")
              {| self := recomendador_tfidf; mundo := mundo_sem_st |} in
  let e2 := apos (init (Some "modelo.joblib"%string))
              {| self := novo None; mundo := mundo e1 |} in
  fornecedores_vetores (self e2) = Some [[1%R]]
  /\ fornecedores_dados (self e2) = Some [fornecedor_alfa]
  /\ modelo_path (self e2) = Some "modelo.joblib"%string.
Proof.
  intros e1 e2.
  destruct (init_restaura_modelo_salvo recomendador_tfidf (novo None)
              mundo_sem_st "modelo.joblib"%string [[1%R]] [fornecedor_alfa]
              eq_refl eq_refl eq_refl ltac:(discriminate))
    as (_ & H1 & H2 & _ & _ & _ & H6).
  split; [exact H1|]. split; [exact H2|exact H6].
Defined.


End Propriedades_persistencia.

(** ** When the methods raise *)

Section Propriedades_excecoes.

Local Open Scope nat_scope.

(** When the library refuses the arguments of [cosine_similarity]. *)
Lemma cosine_similarity_levanta (q : Vec) (V : Matriz) (x : Excecao) :
  cosine_similarity q V = Levanta x
  <-> x = ValueError
      /\ (V = [] \/ q = []
          \/ exists v, In v V /\ List.length v <> List.length q).
Proof.
  unfold cosine_similarity. destruct V as [|v0 V'].
  { split; [intros [= <-]; auto|intros [-> _]; reflexivity]. }
  destruct q as [|a q']; cbn [List.length Nat.eqb negb andb].
  { split; [intros [= <-]; auto|intros [-> _]; reflexivity]. }
  match goal with |- context [forallb ?f ?l] =>
    destruct (forallb f l) eqn:E end.
  - split; [discriminate|]. intros [_ [H|[H|(v & Hv & Hl)]]];
      try discriminate.
    rewrite forallb_forall in E. apply E in Hv.
    apply Nat.eqb_eq in Hv. congruence.
  - split; [|intros [-> _]; reflexivity].
    intros [= <-]. split; [reflexivity|]. right; right.
    clear -E. induction (v0 :: V') as [|y r IH]; simpl in E;
      [discriminate E|].
    destruct (Nat.eqb_spec (List.length y) (S (List.length q')))
      as [Ey|Ey]; simpl in E.
    + destruct (IH E) as (v & Hv & Hl).
      exists v. split; [now right|exact Hl].
    + exists y. split; [now left|exact Ey].
Qed.

(** X15. When [recomendar] raises. It raises only when a corpus is held,
    and then in two cases and no other: [NotFittedError], when no sentence
    model is held and the vectorizer is not fitted (the state a load of a
    corpus embedded by the sentence model leaves); and [ValueError], when
    the corpus holds no vector, or the vector of the bid has no component,
    or some vector of the corpus has another dimension than the vector of
    the bid. *)
Theorem recomendar_levanta_sse :
  forall (s : Recomendador) (w : Mundo) (lic : Registro) (k : Z)
         (x : Excecao),
    resultado (recomendar lic k) {| self := s; mundo := w |} = Levanta x
    <-> exists V D,
          fornecedores_vetores s = Some V
          /\ fornecedores_dados s = Some D
          /\ ((x = NotFittedError
               /\ sentence_transformer s = None
               /\ ajustado (vectorizer s) = None)
              \/ (x = ValueError
                  /\ exists q,
                       embute s (texto_licitacao lic) = Some q
                       /\ (V = [] \/ q = []
                           \/ exists v,
                                In v V
                                /\ List.length v <> List.length q))).
Proof.
  intros s w lic k x. unfold recomendar, embute; desdobra.
  destruct (fornecedores_vetores s) as [V|].
  2:{ split; [discriminate|]. intros (V & D & H & _). discriminate H. }
  destruct (fornecedores_dados s) as [D|].
  2:{ split; [discriminate|]. intros (V' & D' & _ & H & _). discriminate H. }
  destruct (sentence_transformer s) as [enc|]; desdobra.
  - destruct (cosine_similarity (enc (texto_licitacao lic)) V) as [sims|y]
      eqn:Ec; desdobra.
    + split; [discriminate|].
      intros (V' & D' & [= <-] & _ & [(_ & H & _)|(Hx & q & [= <-] & Hq)]);
        [discriminate H|].
      assert (Hl : cosine_similarity (enc (texto_licitacao lic)) V
                   = Levanta x)
        by (apply cosine_similarity_levanta; auto).
      congruence.
    + apply cosine_similarity_levanta in Ec. destruct Ec as [-> Hq].
      split.
      * intros [= <-]. exists V, D. split; [reflexivity|].
        split; [reflexivity|]. right. split; [reflexivity|].
        eexists. split; [reflexivity|exact Hq].
      * intros (V' & D' & _ & _ & [(_ & H & _)|(-> & _)]);
          [discriminate H|reflexivity].
  - destruct (ajustado (vectorizer s)) as [f|]; desdobra.
    + destruct (cosine_similarity (f (texto_licitacao lic)) V) as [sims|y]
        eqn:Ec; desdobra.
      * split; [discriminate|].
        intros (V' & D' & [= <-] & _
                & [(_ & _ & H)|(Hx & q & [= <-] & Hq)]);
          [discriminate H|].
        assert (Hl : cosine_similarity (f (texto_licitacao lic)) V
                     = Levanta x)
          by (apply cosine_similarity_levanta; auto).
        congruence.
      * apply cosine_similarity_levanta in Ec. destruct Ec as [-> Hq].
        split.
        -- intros [= <-]. exists V, D. split; [reflexivity|].
           split; [reflexivity|]. right. split; [reflexivity|].
           eexists. split; [reflexivity|exact Hq].
        -- intros (V' & D' & _ & _ & [(_ & _ & H)|(-> & _)]);
             [discriminate H|reflexivity].
    + split.
      * intros [= <-]. exists V, D. split; [reflexivity|].
        split; [reflexivity|]. left. auto.
      * intros (V' & D' & _ & _ & [(-> & _)|(_ & q & H & _)]);
          [reflexivity|discriminate H].
Qed.

(** X11. When [treinar] raises, and what that leaves. It raises in one case
    and no other: suppliers are given, no sentence model is held, the hub
    gives none, and the vectorizer refuses the texts; what it raises is the
    [ValueError] of the fit. A training that fails keeps the vectors, the
    records and the training time, but not the vectorizer, which the
    refused fit leaves not fitted: an instance that held a corpus comes out
    of it unable to recommend, every [recomendar] raising
    [NotFittedError]. *)
Theorem treinar_falha_desajusta_vectorizer :
  forall (s : Recomendador) (w : Mundo) (fornecedores : list Registro)
         (x : Excecao),
    (resultado (treinar fornecedores) {| self := s; mundo := w |}
     = Levanta x
     <-> fornecedores <> []
         /\ sentence_transformer s = None
         /\ hub w (tentativas_st w) = None
         /\ tfidf_fit w (map texto_fornecedor fornecedores) = None
         /\ x = ValueError)
    /\ (resultado (treinar fornecedores) {| self := s; mundo := w |}
        = Levanta x ->
        self (apos (treinar fornecedores) {| self := s; mundo := w |})
        = set_vectorizer {| ajustado := None |} s
        /\ forall V D lic k,
             fornecedores_vetores s = Some V ->
             fornecedores_dados s = Some D ->
             resultado (recomendar lic k)
               (apos (treinar fornecedores) {| self := s; mundo := w |})
             = Levanta NotFittedError).
Proof.
  intros s w F x. destruct F as [|f0 F].
  { split; [split; [discriminate|intros [H _]; congruence]|discriminate]. }
  unfold treinar, _inicializar_sentence_transformer; desdobra.
  destruct (sentence_transformer s) as [enc|] eqn:Es; desdobra.
  { rewrite Es; desdobra.
    split; [split; [discriminate|intros (_ & H & _); discriminate H]
           |discriminate]. }
  destruct (hub w (tentativas_st w)) as [enc|] eqn:Eh; desdobra.
  { split; [split; [discriminate|intros (_ & _ & H & _); discriminate H]
           |discriminate]. }
  destruct (tfidf_fit w _) as [g|] eqn:Eg; desdobra.
  { split; [split; [discriminate|intros (_ & _ & _ & H & _); discriminate H]
           |discriminate]. }
  split.
  - split.
    + intros [= <-]. repeat split; try reflexivity. discriminate.
    + intros (_ & _ & _ & _ & ->). reflexivity.
  - intros _. split.
    + destruct s; simpl in *. subst. reflexivity.
    + intros V D lic k HV HD. unfold recomendar; desdobra.
      rewrite HV, HD; desdobra. reflexivity.
Qed.

Lemma treinar_falha_desajusta_vectorizer_witness :
  (exists recs,
     resultado (recomendar licitacao_alfa 1)
       {| self := recomendador_tfidf; mundo := mundo_sem_embedder |}
     = Retorno recs)
  /\ resultado (treinar [fornecedor_beta])
       {| self := recomendador_tfidf; mundo := mundo_sem_embedder |}
     = Levanta ValueError
  /\ resultado (recomendar licitacao_alfa 1)
       (apos (treinar [fornecedor_beta])
          {| self := recomendador_tfidf; mundo := mundo_sem_embedder |})
     = Levanta NotFittedError.
Proof.
  destruct (treinar_falha_desajusta_vectorizer recomendador_tfidf
              mundo_sem_embedder [fornecedor_beta] ValueError)
    as [[_ H1] H2].
  assert (H : resultado (treinar [fornecedor_beta])
                {| self := recomendador_tfidf; mundo := mundo_sem_embedder |}
              = Levanta ValueError).
  { apply H1. repeat split; try reflexivity. discriminate. }
  split; [eexists; reflexivity|]. split; [exact H|].
  destruct (H2 H) as [_ H3].
  exact (H3 [[1%R]] [fornecedor_alfa] licitacao_alfa 1%Z eq_refl eq_refl).
Defined.

End Propriedades_excecoes.

(** ** Training, then recommending *)

Section Propriedades_treinar_recomendar.

Local Open Scope nat_scope.

(** [treinar] leaves the libraries of the world as they were. *)
Lemma treinar_mantem_argsort (e : Estado) (fornecedores : list Registro) :
  np_argsort (mundo (apos (treinar fornecedores) e)) = np_argsort (mundo e).
Proof.
  destruct e as [s w]. destruct fornecedores as [|f0 F]; [reflexivity|].
  unfold treinar, _inicializar_sentence_transformer; desdobra.
  destruct (sentence_transformer s) as [enc|] eqn:Es; desdobra.
  - rewrite Es; desdobra. reflexivity.
  - destruct (hub w (tentativas_st w)) as [enc|]; desdobra; [reflexivity|].
    destruct (tfidf_fit w _); desdobra; reflexivity.
Qed.

(** X12. Training and recommending compose: after a [treinar] that returns
    on [N >= 1] suppliers, [recomendar] with [top_n = k >= 1] returns
    [min k N] entries, each one of the suppliers just given, ranked
    1, 2, ... with scores that do not increase. Nothing of an earlier
    corpus is left in the answer. *)
Theorem treinar_depois_recomendar :
  forall (e : Estado) (fornecedores : list Registro) (d : nat)
         (lic : Registro) (k : Z),
    fornecedores <> [] -> d <> 0 ->
    (forall enc t, sentence_transformer (self e) = Some enc ->
                   List.length (enc t) = d) ->
    (forall n enc t, hub (mundo e) n = Some enc -> List.length (enc t) = d) ->
    (forall T f t, tfidf_fit (mundo e) T = Some f -> List.length (f t) = d) ->
    contrato_argsort Rltb (np_argsort (mundo e)) ->
    resultado (treinar fornecedores) e = Retorno tt ->
    (1 <= k)%Z ->
    exists recs,
      resultado (recomendar lic k) (apos (treinar fornecedores) e)
      = Retorno recs
      /\ List.length recs
         = Nat.min (Z.to_nat k) (List.length fornecedores)
      /\ map ranking recs = seq 1 (List.length recs)
      /\ Forall (fun r => In (fornecedor r) fornecedores) recs
      /\ StronglySorted Rge (map pontuacao recs).
Proof.
  intros e F d lic k HF Hd Hs Hh Ht Hok Hres Hk.
  destruct (treinar_treinado_aux e F d HF Hd Hs Hh Ht Hres)
    as [V HT].
  rewrite <- (treinar_mantem_argsort e F) in Hok.
  destruct (apos (treinar F) e) as [s' w'] eqn:E'. cbn [self mundo] in *.
  destruct (recomendar_geral s' w' V F d lic k HT Hok)
    as (q & recs & Eq & Hr & Hrank & Hforn & Hpont & Hent).
  destruct HT as (HV & HD & Hlen & Hne & Hd' & HFv & Hemb).
  assert (Hn : List.length recs = Nat.min (Z.to_nat k) (List.length F)).
  { rewrite <- (length_map ranking), Hrank, length_seq.
    rewrite (indices_top_length R Rltb (np_argsort w') Hok) by assumption.
    rewrite length_map. lia. }
  exists recs. split; [exact Hr|]. split; [exact Hn|].
  split. { rewrite Hrank. f_equal.
           rewrite <- (length_map ranking recs), Hrank.
           now rewrite length_seq. }
  split.
  - rewrite Forall_forall in Hent |- *. intros r Hr'.
    destruct (Hent r Hr') as (idx & v & Hidx & _).
    apply (nth_error_In _ _ Hidx).
  - rewrite Hpont. now apply indices_top_decrescente.
Qed.

Lemma treinar_depois_recomendar_witness :
  exists recs,
    resultado (recomendar licitacao_alfa 5)
      (apos (treinar [fornecedor_beta; fornecedor_gama]) estado_st)
    = Retorno recs
    /\ List.length recs = 2.
Proof.
  destruct (treinar_depois_recomendar estado_st
              [fornecedor_beta; fornecedor_gama] 1 licitacao_alfa 5)
    as (recs & H1 & H2 & _).
  - discriminate.
  - discriminate.
  - intros enc t H. discriminate H.
  - intros n enc t H. injection H as <-. apply enc_sinal_length.
  - intros T f t H. injection H as <-. reflexivity.
  - exact mundo_exemplo_argsort.
  - reflexivity.
  - lia.
  - exists recs. split; [exact H1|exact H2].
Defined.

End Propriedades_treinar_recomendar.

(** ** The score as a function of the texts *)

Section Propriedades_correspondencia.

Local Open Scope nat_scope.

(** An index that is chosen and lies in the corpus gives an entry. *)
Lemma montar_In (D : list Registro) (sims : list R) (idxs : list nat)
  (idx : nat) (f : Registro) :
  In idx idxs -> nth_error D idx = Some f ->
  forall i,
    exists r, In r (montar D sims i idxs)
              /\ fornecedor r = f
              /\ pontuacao r = (nth idx sims 0 * 100)%R.
Proof.
  intros Hin Hf. induction idxs as [|j l IH]; intros i; [destruct Hin|].
  simpl. destruct Hin as [->|Hin].
  - rewrite Hf. eexists. split; [left; reflexivity|]. split; reflexivity.
  - destruct (IH Hin (S i)) as (r & Hr & H1 & H2).
    exists r. split; [|split; assumption].
    destruct (nth_error D j); [right; exact Hr|exact Hr].
Qed.

(** What a [treinar] that returns leaves: the vectors are the embeddings of
    the texts of the suppliers, by the embedder [recomendar] will use. *)
Lemma treinar_embute_aux (e : Estado) (fornecedores : list Registro) :
  fornecedores <> [] ->
  resultado (treinar fornecedores) e = Retorno tt ->
  exists g : string -> Vec,
    fornecedores_vetores (self (apos (treinar fornecedores) e))
    = Some (map g (map texto_fornecedor fornecedores))
    /\ fornecedores_dados (self (apos (treinar fornecedores) e))
       = Some fornecedores
    /\ forall t, embute (self (apos (treinar fornecedores) e)) t
                 = Some (g t).
Proof.
  destruct e as [s w]. intros HF.
  destruct fornecedores as [|f0 F]; [congruence|].
  unfold treinar, _inicializar_sentence_transformer, embute; desdobra.
  destruct (sentence_transformer s) as [enc|] eqn:Es; desdobra.
  - rewrite Es; desdobra. intros _. exists enc. simpl. rewrite Es.
    repeat split; reflexivity.
  - destruct (hub w (tentativas_st w)) as [enc|] eqn:Eh; desdobra.
    + intros _. exists enc. repeat split; reflexivity.
    + destruct (tfidf_fit w _) as [g|] eqn:Eg; desdobra; [|discriminate].
      intros _. exists g. repeat split; reflexivity.
Qed.

(** X29. The score is a function of the two texts. After a [treinar] that
    returns, the full ranking ([top_n = 0]) holds an entry of every
    supplier just given, and its score is 100 times the cosine of the
    embedding of the normalised text of the bid and the embedding of the
    normalised text of that supplier, by the one embedder the instance
    uses for both. So suppliers with the same normalised text get the same
    score, and a supplier whose text is that of the bid gets the cosine of
    a vector with itself. *)
Theorem pontuacao_funcao_dos_textos :
  forall (e : Estado) (fornecedores : list Registro) (d : nat)
         (lic : Registro),
    fornecedores <> [] -> d <> 0 ->
    (forall enc t, sentence_transformer (self e) = Some enc ->
                   List.length (enc t) = d) ->
    (forall n enc t, hub (mundo e) n = Some enc -> List.length (enc t) = d) ->
    (forall T g t, tfidf_fit (mundo e) T = Some g -> List.length (g t) = d) ->
    contrato_argsort Rltb (np_argsort (mundo e)) ->
    resultado (treinar fornecedores) e = Retorno tt ->
    exists (g : string -> Vec) recs,
      (forall t, embute (self (apos (treinar fornecedores) e)) t
                 = Some (g t))
      /\ resultado (recomendar lic 0) (apos (treinar fornecedores) e)
         = Retorno recs
      /\ forall f,
           In f fornecedores ->
           exists r,
             In r recs
             /\ fornecedor r = f
             /\ pontuacao r
                = (cosseno (g (texto_licitacao lic))
                           (g (texto_fornecedor f)) * 100)%R.
Proof.
  intros e F d lic HF Hd Hs Hh Ht Hok Hres.
  destruct (treinar_treinado_aux e F d HF Hd Hs Hh Ht Hres) as [V HT].
  destruct (treinar_embute_aux e F HF Hres) as (g & HV & HD & Hg).
  rewrite <- (treinar_mantem_argsort e F) in Hok.
  destruct (apos (treinar F) e) as [s' w'] eqn:E'. cbn [self mundo] in *.
  destruct (recomendar_treinado s' w' V F d lic 0 HT)
    as (q & Eq & _ & Hrec).
  cbv zeta in Hrec.
  rewrite Hg in Eq. injection Eq as <-.
  destruct HT as (HV' & _ & Hlen & _).
  rewrite HV in HV'. injection HV' as <-.
  set (q := g (texto_licitacao lic)) in *.
  set (V := map g (map texto_fornecedor F)) in *.
  set (sims := map (cosseno q) V) in *.
  exists g. eexists. split; [exact Hg|].
  unfold resultado. rewrite Hrec. split; [reflexivity|].
  intros f Hf.
  destruct (In_nth_error F f Hf) as [i Hi].
  assert (Hlt : i < List.length F)
    by (apply nth_error_Some; congruence).
  assert (Hsim : nth i sims 0%R = cosseno q (g (texto_fornecedor f))).
  { assert (Hv : nth_error V i = Some (g (texto_fornecedor f))).
    { unfold V. rewrite map_map.
      exact (map_nth_error (fun x => g (texto_fornecedor x)) i F Hi). }
    assert (Hc : nth_error sims i
                 = Some (cosseno q (g (texto_fornecedor f))))
      by (unfold sims; now apply map_nth_error).
    exact (nth_error_nth sims i 0%R Hc). }
  assert (Hin : In i (indices_top (np_argsort w') sims 0)).
  { rewrite indices_top_zero. rewrite <- in_rev.
    apply (argsort_in R Rltb (np_argsort w') Hok).
    unfold sims, V. rewrite !length_map. exact Hlt. }
  destruct (montar_In F sims _ i f Hin Hi 0) as (r & Hr & H1 & H2).
  exists r. split; [exact Hr|]. split; [exact H1|].
  rewrite H2, Hsim. reflexivity.
Qed.

Lemma pontuacao_funcao_dos_textos_witness :
  exists (g : string -> Vec) recs r,
    resultado (recomendar licitacao_alfa 0)
      (apos (treinar [fornecedor_beta; fornecedor_alfa]) estado_st)
    = Retorno recs
    /\ In r recs
    /\ fornecedor r = fornecedor_alfa
    /\ pontuacao r
       = (cosseno (g (texto_licitacao licitacao_alfa))
                  (g (texto_fornecedor fornecedor_alfa)) * 100)%R.
Proof.
  destruct (pontuacao_funcao_dos_textos estado_st
              [fornecedor_beta; fornecedor_alfa] 1 licitacao_alfa)
    as (g & recs & _ & H1 & H2).
  - discriminate.
  - discriminate.
  - intros enc t H. discriminate H.
  - intros n enc t H. injection H as <-. apply enc_sinal_length.
  - intros T g t H. injection H as <-. reflexivity.
  - exact mundo_exemplo_argsort.
  - reflexivity.
  - destruct (H2 fornecedor_alfa) as (r & Hr & Hf & Hp).
    + right; left; reflexivity.
    + exists g, recs, r. auto.
Defined.

End Propriedades_correspondencia.

(** ** The evaluation metrics *)

Section Propriedades_avaliacao.

Local Open Scope Q_scope.

Lemma eqb_id_eq (a b : option string) : eqb_id a b = true <-> a = b.
Proof.
  destruct a as [x|], b as [y|]; simpl; split; try congruence; try reflexivity.
  - intros H. apply String.eqb_eq in H. now subst.
  - intros [= ->]. apply String.eqb_refl.
Qed.

Lemma existsb_eqb_id (x : option string) (l : list (option string)) :
  existsb (eqb_id x) l = true <-> In x l.
Proof.
  rewrite existsb_exists. split.
  - intros (y & Hy & E). apply eqb_id_eq in E. now subst.
  - intros H. exists x. split; [exact H|]. now apply eqb_id_eq.
Qed.

Lemma distintos_In (l : list (option string)) (x : option string) :
  In x (distintos l) -> In x l.
Proof.
  induction l as [|y r IH]; simpl; [tauto|].
  destruct (existsb (eqb_id y) r); simpl; intuition.
Qed.

Lemma distintos_NoDup (l : list (option string)) : NoDup (distintos l).
Proof.
  induction l as [|y r IH]; simpl; [constructor|].
  destruct (existsb (eqb_id y) r) eqn:E; [exact IH|].
  constructor; [|exact IH].
  intros H. apply distintos_In in H. apply existsb_eqb_id in H. congruence.
Qed.

Lemma distintos_length (l : list (option string)) :
  (List.length (distintos l) <= List.length l)%nat.
Proof.
  induction l as [|y r IH]; simpl; [lia|].
  destruct (existsb (eqb_id y) r); simpl; lia.
Qed.

(** The size of the intersection is at most the size of either list. *)
Lemma relevantes_le_recomendados (ids : list (option string))
  (corretos : list string) :
  (relevantes_recomendados ids corretos <= List.length ids)%nat.
Proof.
  unfold relevantes_recomendados.
  etransitivity; [apply filter_length_le|apply distintos_length].
Qed.

Lemma relevantes_le_corretos (ids : list (option string))
  (corretos : list string) :
  (relevantes_recomendados ids corretos <= List.length corretos)%nat.
Proof.
  unfold relevantes_recomendados.
  rewrite <- (length_map Some corretos).
  apply NoDup_incl_length.
  - apply NoDup_filter, distintos_NoDup.
  - intros x Hx. apply filter_In in Hx. destruct Hx as [_ Hx].
    now apply existsb_eqb_id.
Qed.

Lemma razao_limites (n m : nat) :
  (n <= m)%nat -> (0 < m)%nat -> 0 <= razao n m <= 1.
Proof.
  intros Hn Hm. unfold razao.
  assert (H0 : 0 <= inject_Z (Z.of_nat n))
    by (change 0 with (inject_Z 0); rewrite <- Zle_Qle; lia).
  assert (H1 : inject_Z (Z.of_nat n) <= inject_Z (Z.of_nat m))
    by (rewrite <- Zle_Qle; lia).
  assert (H2 : 0 < inject_Z (Z.of_nat m))
    by (change 0 with (inject_Z 0); rewrite <- Zlt_Qlt; lia).
  split.
  - apply Qle_shift_div_l; [exact H2|]. lra.
  - apply Qle_shift_div_r; [exact H2|]. lra.
Qed.

Lemma f1_limites (p r : Q) :
  0 <= p <= 1 -> 0 <= r <= 1 ->
  0 <= (if Qlt_le_dec 0 (p + r) then 2 * (p * r) / (p + r) else 0) <= 1.
Proof.
  intros Hp Hr. destruct (Qlt_le_dec 0 (p + r)) as [H|H]; [|lra].
  assert (H0 : 0 <= p * r) by (apply Qmult_le_0_compat; lra).
  assert (H1 : 0 <= p * (1 - r)) by (apply Qmult_le_0_compat; lra).
  assert (H2 : 0 <= r * (1 - p)) by (apply Qmult_le_0_compat; lra).
  assert (E1 : p * (1 - r) == p - p * r) by ring.
  assert (E2 : r * (1 - p) == r - p * r) by ring.
  rewrite E1 in H1. rewrite E2 in H2. clear E1 E2.
  split.
  - apply Qle_shift_div_l; [exact H|].
    set (pr := p * r) in *. clearbody pr. lra.
  - apply Qle_shift_div_r; [exact H|].
    set (pr := p * r) in *. clearbody pr. lra.
Qed.

Lemma inject_succ (n : nat) :
  inject_Z (Z.of_nat (S n)) == inject_Z (Z.of_nat n) + 1.
Proof. rewrite Nat2Z.inj_succ, <- Z.add_1_r, inject_Z_plus. reflexivity. Qed.

Lemma precisao_limites (ids : list (option string))
  (corretos : list string) :
  0 <= match ids with
       | [] => 0
       | _ => razao (relevantes_recomendados ids corretos) (List.length ids)
       end <= 1.
Proof.
  destruct ids as [|i0 ids']; [lra|].
  apply razao_limites; [apply relevantes_le_recomendados|simpl; lia].
Qed.

Lemma recall_limites (ids : list (option string)) (corretos : list string) :
  0 <= match corretos with
       | [] => 0
       | _ => razao (relevantes_recomendados ids corretos)
                    (List.length corretos)
       end <= 1.
Proof.
  destruct corretos as [|c0 cs]; [lra|].
  apply razao_limites; [apply relevantes_le_corretos|simpl; lia].
Qed.

(** Each round adds to each total a number between 0 and 1. *)
Lemma laco_avaliacao_limites :
  forall (pares : list (Registro * list string)) (a b c : Q) (e : Estado)
         (a' b' c' : Q) (e' : Estado),
    laco_avaliacao pares (a, b, c) e = (Retorno (a', b', c'), e') ->
    let n := inject_Z (Z.of_nat (List.length pares)) in
    (a <= a' <= a + n) /\ (b <= b' <= b + n) /\ (c <= c' <= c + n).
Proof.
  induction pares as [|[lic corretos] r IH]; intros a b c e a' b' c' e'.
  - simpl. unfold ret. intros [= <- <- <- _].
    change (inject_Z 0) with 0. lra.
  - cbn [laco_avaliacao]. unfold bind at 1.
    destruct (recomendar lic 10 e) as [[recs|x] e1]; [|discriminate].
    set (ids := map (fun rec => get_opt (fornecedor rec) "id") recs).
    set (k := relevantes_recomendados ids corretos).
    set (P := match ids with [] => 0 | _ => razao k (List.length ids) end).
    set (Rc := match corretos with
               | [] => 0 | _ => razao k (List.length corretos) end).
    assert (HP : 0 <= P <= 1) by apply precisao_limites.
    assert (HR : 0 <= Rc <= 1) by apply recall_limites.
    pose proof (f1_limites P Rc HP HR) as HF.
    intros H. apply IH in H. cbv zeta in H |- *.
    change (List.length ((lic, corretos) :: r)) with (S (List.length r)).
    rewrite inject_succ. lra.
Qed.

(** X16. Whatever the state and the test data, every metric that
    [avaliar_recomendacoes] returns is a number between 0 and 1. *)
Theorem avaliar_metricas_entre_0_e_1 :
  forall (e : Estado) (licitacoes_teste : list Registro)
         (fornecedores_corretos : list (list string)) (p r f : Q),
    resultado (avaliar_recomendacoes licitacoes_teste fornecedores_corretos) e
    = Retorno (Metricas p r f) ->
    0 <= p <= 1 /\ 0 <= r <= 1 /\ 0 <= f <= 1.
Proof.
  intros e L F p r f. unfold resultado, avaliar_recomendacoes.
  destruct (Nat.eqb_spec (List.length L) (List.length F)) as [Hlen|Hlen];
    [|discriminate].
  cbn [negb]. unfold bind at 1.
  destruct (laco_avaliacao (combine L F) (0, 0, 0) e)
    as [[[[a b] c]|x] e1] eqn:El; [|discriminate].
  apply laco_avaliacao_limites in El. cbv zeta in El.
  rewrite length_combine, <- Hlen, Nat.min_id in El.
  destruct L as [|l0 L']; [discriminate|].
  set (d := inject_Z (Z.of_nat (List.length (l0 :: L')))) in *.
  assert (Hd : 0 < d).
  { unfold d. change 0 with (inject_Z 0). rewrite <- Zlt_Qlt.
    simpl List.length. lia. }
  desdobra. intros [= <- <- <-].
  repeat split;
    (apply Qle_shift_div_l; [exact Hd|lra])
    || (apply Qle_shift_div_r; [exact Hd|lra]).
Qed.

Lemma avaliar_metricas_entre_0_e_1_witness :
  exists p r f,
    resultado (avaliar_recomendacoes [licitacao_alfa] [["1"%string]])
      {| self := recomendador_tfidf; mundo := mundo_sem_st |}
    = Retorno (Metricas p r f)
    /\ 0 <= p <= 1 /\ 0 <= r <= 1 /\ 0 <= f <= 1.
Proof.
  eexists. eexists. eexists. split; [reflexivity|].
  apply (avaliar_metricas_entre_0_e_1
           {| self := recomendador_tfidf; mundo := mundo_sem_st |}
           [licitacao_alfa] [["1"%string]]).
  reflexivity.
Defined.

Lemma recomendar_nao_treinado_aux (s : Recomendador) (w : Mundo)
  (lic : Registro) (k : Z) :
  NaoTreinado s ->
  recomendar lic k {| self := s; mundo := w |}
  = (Retorno [],
     {| self := s;
        mundo := com_log (log w ++ [(ERROR, MsgModeloNaoTreinado)]) w |}).
Proof.
  intros [H|H]; unfold recomendar, bind, obter_self; simpl;
    rewrite H; [reflexivity|].
  now destruct (fornecedores_vetores s).
Qed.

Lemma razao_zero (m : nat) : razao 0 m == 0.
Proof. unfold razao. simpl. unfold Qdiv. ring. Qed.

Lemma laco_avaliacao_nao_treinado (s : Recomendador) :
  NaoTreinado s ->
  forall (pares : list (Registro * list string)) (a b c : Q) (w : Mundo),
    exists a' b' c' w',
      laco_avaliacao pares (a, b, c) {| self := s; mundo := w |}
      = (Retorno (a', b', c'), {| self := s; mundo := w' |})
      /\ a' == a /\ b' == b /\ c' == c.
Proof.
  intros HN. induction pares as [|[lic corretos] r IH]; intros a b c w.
  - exists a, b, c, w. split; [reflexivity|]. repeat split; reflexivity.
  - cbn [laco_avaliacao]. unfold bind at 1.
    rewrite (recomendar_nao_treinado_aux s w lic 10 HN).
    cbn [map relevantes_recomendados distintos filter List.length].
    set (Rc := match corretos with
               | [] => 0 | _ => razao 0 (List.length corretos) end).
    assert (HR : Rc == 0).
    { unfold Rc. destruct corretos; [reflexivity|apply razao_zero]. }
    destruct (Qlt_le_dec 0 (0 + Rc)) as [H|H]; [lra|].
    destruct (IH (a + 0) (b + Rc) (c + 0)
                 (com_log (log w ++ [(ERROR, MsgModeloNaoTreinado)]) w))
      as (a' & b' & c' & w' & E & Ha & Hb & Hc).
    exists a', b', c', w'. split; [exact E|].
    repeat split; lra.
Qed.

(** X17. In the state Untrained the evaluation does not fail: with as many
    lists of expected suppliers as bids, and at least one, it returns
    normally, every metric is zero, and the instance is left as it was. *)
Theorem avaliar_nao_treinado :
  forall (s : Recomendador) (w : Mundo) (licitacoes_teste : list Registro)
         (fornecedores_corretos : list (list string)),
    NaoTreinado s ->
    licitacoes_teste <> [] ->
    List.length licitacoes_teste = List.length fornecedores_corretos ->
    exists p r f,
      resultado
        (avaliar_recomendacoes licitacoes_teste fornecedores_corretos)
        {| self := s; mundo := w |}
      = Retorno (Metricas p r f)
      /\ p == 0 /\ r == 0 /\ f == 0
      /\ self (apos (avaliar_recomendacoes licitacoes_teste
                       fornecedores_corretos)
                    {| self := s; mundo := w |}) = s.
Proof.
  intros s w L F HN HL Hlen. unfold resultado, apos, avaliar_recomendacoes.
  apply Nat.eqb_eq in Hlen. rewrite Hlen. cbn [negb]. unfold bind at 1 3.
  destruct (laco_avaliacao_nao_treinado s HN (combine L F) 0 0 0 w)
    as (a & b & c & w' & E & Ha & Hb & Hc).
  rewrite E. destruct L as [|l0 L']; [congruence|].
  desdobra. eexists. eexists. eexists. split; [reflexivity|].
  rewrite Ha, Hb, Hc. repeat split; unfold Qdiv; ring.
Qed.

Lemma avaliar_nao_treinado_witness :
  exists p r f,
    resultado (avaliar_recomendacoes [licitacao_alfa] [["1"%string]])
      {| self := novo None; mundo := mundo_sem_st |}
    = Retorno (Metricas p r f)
    /\ p == 0 /\ r == 0 /\ f == 0.
Proof.
  destruct (avaliar_nao_treinado (novo None) mundo_sem_st [licitacao_alfa]
              [["1"%string]])
    as (p & r & f & H & Hp & Hr & Hf & _).
  - left. reflexivity.
  - discriminate.
  - reflexivity.
  - exists p, r, f. auto.
Defined.

End Propriedades_avaliacao.

(** ** More on the proposal scorer *)

Section Propriedades_pontuacao.

Import Pontuacao.

Local Open Scope Q_scope.

(** The clamp of the code stays within its bounds and keeps the order. *)
Lemma py_clamp_limites (x : Q) : 0 <= py_max 0 (py_min 100 x) <= 100.
Proof.
  rewrite py_clamp_spec.
  destruct (clamp_cases x) as [[H E]|[[H E]|[H E]]]; lra.
Qed.

Lemma py_clamp_monotono (x y : Q) :
  x <= y -> py_max 0 (py_min 100 x) <= py_max 0 (py_min 100 y).
Proof.
  intros H. rewrite !py_clamp_spec.
  destruct (clamp_cases x) as [[Hx Ex]|[[Hx Ex]|[Hx Ex]]];
    destruct (clamp_cases y) as [[Hy Ey]|[[Hy Ey]|[Hy Ey]]]; lra.
Qed.

(** A quotient by a positive number keeps the order. *)
Lemma Qdiv_le_compat (a b c : Q) : 0 < c -> a <= b -> a / c <= b / c.
Proof.
  intros Hc H. unfold Qdiv. apply Qmult_le_compat_r; [exact H|].
  apply Qlt_le_weak, Qinv_lt_0_compat, Hc.
Qed.

Lemma preco_score_monotono (v1 v2 : Q) (d1 d2 : Z) (est r1 r2 : Q) :
  v1 <= v2 ->
  preco_score {| valor := v1; prazo_entrega := d1 |}
              {| valor_estimado := Some est |} = Retorno r1 ->
  preco_score {| valor := v2; prazo_entrega := d2 |}
              {| valor_estimado := Some est |} = Retorno r2 ->
  r2 <= r1.
Proof.
  unfold preco_score; simpl. intros H [= <-] [= <-].
  apply py_clamp_monotono.
  destruct (Qlt_le_dec 0 est) as [He|He]; [|lra].
  pose proof (Qdiv_le_compat v1 v2 est He H). lra.
Qed.

Lemma prazo_score_monotono (v1 v2 : Q) (d1 d2 : Z) :
  (0 < d1 <= d2)%Z ->
  prazo_score {| valor := v2; prazo_entrega := d2 |}
  <= prazo_score {| valor := v1; prazo_entrega := d1 |}.
Proof.
  intros H. unfold prazo_score; simpl. apply py_clamp_monotono.
  destruct (Z_lt_dec 0 d1); [|lia]. destruct (Z_lt_dec 0 d2); [|lia].
  assert (Hq : inject_Z d1 <= inject_Z d2) by (rewrite <- Zle_Qle; lia).
  pose proof (Qdiv_le_compat (inject_Z d1) (inject_Z d2) 30 eq_refl Hq).
  lra.
Qed.

(** X18. The score of a proposal lies in [0, 100] whenever the supplier's
    average rating lies in [0, 5], whatever the value, the delivery time and
    the estimated value (a number) are. *)
Theorem pontuacao_entre_0_e_100 :
  forall (p : Proposta) (f : Fornecedor) (est s : Q),
    0 <= avaliacao_media f <= 5 ->
    pontuacao p f {| valor_estimado := Some est |} = Retorno s ->
    0 <= s <= 100.
Proof.
  intros p f est s Hf. unfold pontuacao, preco_score; simpl. intros [= <-].
  match goal with |- context [py_max 0 (py_min 100 ?x)] =>
    pose proof (py_clamp_limites x) as Hp end.
  pose proof (py_clamp_limites
                (if Z_lt_dec 0 (prazo_entrega p)
                 then 100 - inject_Z (prazo_entrega p) / 30 * 100
                 else 50)) as Hd.
  unfold prazo_score, avaliacao_score, preco_peso, prazo_peso, avaliacao_peso.
  lra.
Qed.

Lemma pontuacao_entre_0_e_100_witness :
  exists s,
    pontuacao {| valor := 50; prazo_entrega := 15 |}
              {| avaliacao_media := 4 |}
              {| valor_estimado := Some 100 |} = Retorno s
    /\ 0 <= s <= 100.
Proof.
  eexists. split; [reflexivity|].
  apply (pontuacao_entre_0_e_100 {| valor := 50; prazo_entrega := 15 |}
           {| avaliacao_media := 4 |} 100).
  - simpl. lra.
  - reflexivity.
Defined.

(** X19. The score never rewards a higher price, a longer delivery or a
    lower rating: with the other inputs equal, a proposal of smaller or
    equal value, of shorter or equal positive delivery time, and of a
    supplier rated higher or equal, scores at least as much. *)
Theorem pontuacao_monotona :
  forall (v1 v2 : Q) (d1 d2 : Z) (a1 a2 est s1 s2 : Q),
    v1 <= v2 -> (0 < d1 <= d2)%Z -> a2 <= a1 ->
    pontuacao {| valor := v1; prazo_entrega := d1 |}
              {| avaliacao_media := a1 |}
              {| valor_estimado := Some est |} = Retorno s1 ->
    pontuacao {| valor := v2; prazo_entrega := d2 |}
              {| avaliacao_media := a2 |}
              {| valor_estimado := Some est |} = Retorno s2 ->
    s2 <= s1.
Proof.
  intros v1 v2 d1 d2 a1 a2 est s1 s2 Hv Hd Ha. unfold pontuacao.
  destruct (preco_score {| valor := v1; prazo_entrega := d1 |}
              {| valor_estimado := Some est |}) as [r1|] eqn:E1;
    [|discriminate].
  destruct (preco_score {| valor := v2; prazo_entrega := d2 |}
              {| valor_estimado := Some est |}) as [r2|] eqn:E2;
    [|discriminate].
  intros [= <-] [= <-].
  pose proof (preco_score_monotono v1 v2 d1 d2 est r1 r2 Hv E1 E2) as Hr.
  pose proof (prazo_score_monotono v1 v2 d1 d2 Hd) as Hp.
  unfold avaliacao_score, preco_peso, prazo_peso, avaliacao_peso; simpl.
  lra.
Qed.

Lemma pontuacao_monotona_witness :
  exists s1 s2,
    pontuacao {| valor := 50; prazo_entrega := 10 |}
              {| avaliacao_media := 4 |}
              {| valor_estimado := Some 100 |} = Retorno s1
    /\ pontuacao {| valor := 80; prazo_entrega := 20 |}
                 {| avaliacao_media := 3 |}
                 {| valor_estimado := Some 100 |} = Retorno s2
    /\ s2 <= s1.
Proof.
  eexists. eexists. split; [reflexivity|]. split; [reflexivity|].
  apply (pontuacao_monotona 50 80 10 20 4 3 100); try reflexivity.
  - lra.
  - lia.
  - lra.
Defined.

(** X20. Where the score saturates. With a positive estimated value, a
    proposal at or above it has price factor 0, and one of 30 days or more
    has delivery factor 0: the score of a proposal that is both is the
    rating term alone, [avaliacao_score * avaliacao_peso], whatever its
    value and its delivery time. *)
Theorem pontuacao_saturacao :
  forall (p : Proposta) (f : Fornecedor) (est : Q),
    0 < est -> est <= valor p -> (30 <= prazo_entrega p)%Z ->
    exists preco s,
      preco_score p {| valor_estimado := Some est |} = Retorno preco
      /\ preco == 0
      /\ prazo_score p == 0
      /\ pontuacao p f {| valor_estimado := Some est |} = Retorno s
      /\ s == avaliacao_score f * avaliacao_peso.
Proof.
  intros p f est He Hv Hd.
  destruct (preco_score_spec p est) as (preco & E & Hpreco).
  pose proof (prazo_score_spec p) as Hprazo.
  assert (Hp0 : preco == 0).
  { rewrite Hpreco. unfold fator_preco_spec.
    destruct (Qlt_le_dec 0 est); [|lra].
    pose proof (Qdiv_le_compat est (valor p) est He Hv) as Hq.
    assert (Hone : est / est == 1) by (field; lra).
    destruct (clamp_cases (100 - valor p / est * 100))
      as [[H1 E1]|[[H1 E1]|[H1 E1]]]; lra. }
  assert (Hd0 : prazo_score p == 0).
  { rewrite Hprazo. unfold fator_prazo_spec.
    destruct (Z_lt_dec 0 (prazo_entrega p)); [|lia].
    assert (Hq : 30 <= inject_Z (prazo_entrega p)).
    { change 30 with (inject_Z 30). rewrite <- Zle_Qle. exact Hd. }
    pose proof (Qdiv_le_compat 30 (inject_Z (prazo_entrega p)) 30
                  eq_refl Hq) as Hq'.
    assert (Hone : 30 / 30 == 1) by reflexivity.
    destruct (clamp_cases (100 - inject_Z (prazo_entrega p) / 30 * 100))
      as [[H1 E1]|[[H1 E1]|[H1 E1]]]; lra. }
  exists preco.
  exists (preco * preco_peso + prazo_score p * prazo_peso
          + avaliacao_score f * avaliacao_peso).
  split; [exact E|]. split; [exact Hp0|]. split; [exact Hd0|].
  split. { unfold pontuacao. rewrite E. reflexivity. }
  rewrite Hp0, Hd0. lra.
Qed.

Lemma pontuacao_saturacao_witness :
  exists preco s,
    preco_score {| valor := 150; prazo_entrega := 45 |}
                {| valor_estimado := Some 100 |} = Retorno preco
    /\ preco == 0
    /\ pontuacao {| valor := 150; prazo_entrega := 45 |}
                 {| avaliacao_media := 5 |}
                 {| valor_estimado := Some 100 |} = Retorno s
    /\ s == avaliacao_score {| avaliacao_media := 5 |} * avaliacao_peso.
Proof.
  destruct (pontuacao_saturacao {| valor := 150; prazo_entrega := 45 |}
              {| avaliacao_media := 5 |} 100)
    as (preco & s & H1 & H2 & _ & H3 & H4).
  - reflexivity.
  - simpl. lra.
  - simpl. lia.
  - exists preco, s. auto.
Defined.

(** X21. A delivery time of zero or fewer days is not the best one: its
    delivery factor is the neutral 50, that of 15 days, and so below that
    of every delivery time of 1 to 14 days. *)
Theorem prazo_nao_positivo_neutro :
  forall (p : Proposta) (d : Z),
    (prazo_entrega p <= 0)%Z -> (0 < d < 15)%Z ->
    prazo_score p == 50
    /\ prazo_score p
       == prazo_score {| valor := valor p; prazo_entrega := 15 |}
    /\ prazo_score p < prazo_score {| valor := valor p; prazo_entrega := d |}.
Proof.
  intros p d Hp Hd.
  assert (H0 : prazo_score p == 50).
  { rewrite prazo_score_spec. unfold fator_prazo_spec.
    destruct (Z_lt_dec 0 (prazo_entrega p)); [lia|reflexivity]. }
  assert (H15 : prazo_score {| valor := valor p; prazo_entrega := 15 |}
                == 50).
  { rewrite prazo_score_spec. unfold fator_prazo_spec; simpl.
    assert (Hm : 100 - inject_Z 15 / 30 * 100 == 50) by reflexivity.
    destruct (clamp_cases (100 - inject_Z 15 / 30 * 100))
      as [[H1 E1]|[[H1 E1]|[H1 E1]]]; rewrite E1; lra. }
  split; [exact H0|]. split; [rewrite H0, H15; reflexivity|].
  rewrite H0, prazo_score_spec. unfold fator_prazo_spec; simpl.
  destruct (Z_lt_dec 0 d); [|lia].
  assert (Hq : inject_Z d <= 14).
  { change 14 with (inject_Z 14). rewrite <- Zle_Qle. lia. }
  pose proof (Qdiv_le_compat (inject_Z d) 14 30 eq_refl Hq) as Hq'.
  assert (H14 : 14 / 30 * 100 < 50) by reflexivity.
  destruct (clamp_cases (100 - inject_Z d / 30 * 100))
    as [[H1 E1]|[[H1 E1]|[H1 E1]]]; rewrite E1; lra.
Qed.

Lemma prazo_nao_positivo_neutro_witness :
  prazo_score {| valor := 10; prazo_entrega := 0 |}
  < prazo_score {| valor := 10; prazo_entrega := 14 |}.
Proof.
  destruct (prazo_nao_positivo_neutro {| valor := 10; prazo_entrega := 0 |}
              14) as (_ & _ & H).
  - simpl. lia.
  - lia.
  - exact H.
Defined.

End Propriedades_pontuacao.

(** ** The scoring task *)

Section Propriedades_tarefa.

Import Pontuacao Tarefa.

Local Open Scope Q_scope.

Lemma buscar_licitacao_id (db : Banco) (id : string) (l : LinhaLicitacao) :
  buscar_licitacao db id = Some l -> licitacao_id l = id.
Proof.
  unfold buscar_licitacao. intros H. apply find_some in H.
  destruct H as [_ H]. apply String.eqb_eq in H. exact H.
Qed.

Lemma mesma_proposta_refl (p : LinhaProposta) : mesma_proposta p p.
Proof. repeat split. Qed.

Lemma mesma_proposta_com_pontuacao (p : LinhaProposta) (s : Q) :
  mesma_proposta p (com_pontuacao p s).
Proof. repeat split. Qed.

Lemma mesma_proposta_da_licitacao (id : string) (p p' : LinhaProposta) :
  mesma_proposta p p' -> da_licitacao id p' = da_licitacao id p.
Proof. intros (H & _). unfold da_licitacao. rewrite H. reflexivity. Qed.

Lemma laco_propostas_pontuada (db : Banco) (l : Licitacao) :
  forall ps novas,
    laco_propostas db l ps = Retorno novas ->
    Forall2 (pontuada db l) ps novas.
Proof.
  induction ps as [|p r IH]; simpl; intros novas H.
  - injection H as <-. constructor.
  - destruct (buscar_fornecedor db (proposta_fornecedor_id p)) as [f|] eqn:Ef.
    + destruct (pontuacao (proposta_colunas p) (fornecedor_colunas f) l)
        as [s|] eqn:Es; [|discriminate].
      destruct (laco_propostas db l r) as [ns|]; [|discriminate].
      injection H as <-. constructor; [|apply IH; reflexivity].
      unfold pontuada. rewrite Ef. exists s. split; [exact Es|reflexivity].
    + destruct (laco_propostas db l r) as [ns|]; [|discriminate].
      injection H as <-. constructor; [|apply IH; reflexivity].
      unfold pontuada. rewrite Ef. reflexivity.
Qed.

Lemma pontuada_mesma (db : Banco) (l : Licitacao) (p p' : LinhaProposta) :
  pontuada db l p p' -> mesma_proposta p p'.
Proof.
  unfold pontuada.
  destruct (buscar_fornecedor db (proposta_fornecedor_id p)).
  - intros (s & _ & ->). apply mesma_proposta_com_pontuacao.
  - intros ->. apply mesma_proposta_refl.
Qed.

(** With an estimated value that is a number the loop never raises. *)
Lemma laco_propostas_total (db : Banco) (est : Q) :
  forall ps,
    exists novas,
      laco_propostas db {| valor_estimado := Some est |} ps = Retorno novas.
Proof.
  induction ps as [|p r [ns IH]]; simpl.
  - eexists; reflexivity.
  - rewrite IH.
    destruct (buscar_fornecedor db (proposta_fornecedor_id p)) as [f|].
    + unfold pontuacao, preco_score; simpl. eexists; reflexivity.
    + eexists; reflexivity.
Qed.

(** Without one it raises at the first proposal whose supplier exists. *)
Lemma laco_propostas_sem_estimativa (db : Banco) :
  forall ps,
    (Forall (fun p => buscar_fornecedor db (proposta_fornecedor_id p) = None)
            ps
     /\ laco_propostas db {| valor_estimado := None |} ps = Retorno ps)
    \/ (Exists (fun p =>
                  buscar_fornecedor db (proposta_fornecedor_id p) <> None) ps
        /\ laco_propostas db {| valor_estimado := None |} ps
           = Levanta TypeError).
Proof.
  induction ps as [|p r IH]; simpl.
  - left. split; [constructor|reflexivity].
  - destruct (buscar_fornecedor db (proposta_fornecedor_id p)) as [f|] eqn:Ef.
    + right. split; [|reflexivity].
      apply Exists_cons_hd. rewrite Ef. discriminate.
    + destruct IH as [[Hf ->]|[He ->]].
      * left. split; [|reflexivity]. constructor; assumption.
      * right. split; [|reflexivity]. apply Exists_cons_tl, He.
Qed.

(** Running the loop on its own result changes nothing: a score is computed
    from columns the loop does not write. *)
Lemma laco_propostas_de_novo (db : Banco) (l : Licitacao) :
  forall ps novas,
    laco_propostas db l ps = Retorno novas ->
    laco_propostas db l novas = Retorno novas.
Proof.
  induction ps as [|p r IH]; simpl; intros novas H.
  - injection H as <-. reflexivity.
  - destruct (buscar_fornecedor db (proposta_fornecedor_id p)) as [f|] eqn:Ef.
    + destruct (pontuacao (proposta_colunas p) (fornecedor_colunas f) l)
        as [s|] eqn:Es; [|discriminate].
      destruct (laco_propostas db l r) as [ns|]; [|discriminate].
      injection H as <-. simpl. rewrite Ef, Es, (IH ns eq_refl). reflexivity.
    + destruct (laco_propostas db l r) as [ns|]; [|discriminate].
      injection H as <-. simpl. rewrite Ef, (IH ns eq_refl). reflexivity.
Qed.

Lemma laco_propostas_fornecedores (db db' : Banco) (l : Licitacao) :
  fornecedores db' = fornecedores db ->
  forall ps, laco_propostas db' l ps = laco_propostas db l ps.
Proof.
  intros H. induction ps as [|p r IH]; simpl; [reflexivity|].
  unfold buscar_fornecedor. rewrite H, IH. reflexivity.
Qed.

(** The commit, row by row. *)
Lemma regravar_filter (A : Type) (sel : A -> bool) :
  forall tabela, regravar sel tabela (filter sel tabela) = tabela.
Proof.
  induction tabela as [|p r IH]; simpl; [reflexivity|].
  destruct (sel p) eqn:E; simpl; rewrite ?E, IH; reflexivity.
Qed.

Lemma regravar_Forall2 (A : Type) (sel : A -> bool) (R : A -> A -> Prop) :
  forall tabela novas,
    Forall2 R (filter sel tabela) novas ->
    Forall2 (fun p p' => if sel p then R p p' else p' = p)
            tabela (regravar sel tabela novas).
Proof.
  induction tabela as [|p r IH]; simpl; intros novas H; [constructor|].
  destruct (sel p) eqn:E.
  - inversion H as [|? n ? ns Hn Hns]; subst.
    constructor; [rewrite E; exact Hn|apply IH, Hns].
  - constructor; [rewrite E; reflexivity|apply IH, H].
Qed.

Lemma filter_regravar (id : string) :
  forall tabela novas,
    Forall2 mesma_proposta (filter (da_licitacao id) tabela) novas ->
    filter (da_licitacao id) (regravar (da_licitacao id) tabela novas)
    = novas.
Proof.
  induction tabela as [|p r IH]; simpl; intros novas H.
  - inversion H. reflexivity.
  - destruct (da_licitacao id p) eqn:E.
    + inversion H as [|? n ? ns Hn Hns]; subst. simpl.
      rewrite (mesma_proposta_da_licitacao id p n Hn), E, (IH ns Hns).
      reflexivity.
    + simpl. rewrite E. apply IH, H.
Qed.

Lemma regravar_regravar (id : string) :
  forall tabela novas,
    Forall2 mesma_proposta (filter (da_licitacao id) tabela) novas ->
    regravar (da_licitacao id) (regravar (da_licitacao id) tabela novas)
             novas
    = regravar (da_licitacao id) tabela novas.
Proof.
  induction tabela as [|p r IH]; simpl; intros novas H; [reflexivity|].
  destruct (da_licitacao id p) eqn:E.
  - inversion H as [|? n ? ns Hn Hns]; subst. simpl.
    rewrite (mesma_proposta_da_licitacao id p n Hn), E, (IH ns Hns).
    reflexivity.
  - simpl. rewrite E, (IH novas H). reflexivity.
Qed.

Lemma Forall2_impl {A B : Type} (R S : A -> B -> Prop) :
  (forall a b, R a b -> S a b) ->
  forall l l', Forall2 R l l' -> Forall2 S l l'.
Proof. intros H l l' F. induction F; constructor; auto. Qed.

(** X22. When the bid exists and its estimated value is a number, the task
    succeeds, reports the number of proposals of the bid (those it skipped
    included), and leaves in the database: the bids and suppliers as they
    were; every proposal of another bid as it was; every proposal of the bid
    whose supplier is missing as it was; and every proposal of the bid whose
    supplier exists with its keys and columns kept and [pontuacao_ia] the
    specification's score. *)
Theorem calculate_supplier_scores_sucesso :
  forall (db : Banco) (id : string) (l : LinhaLicitacao) (est : Q),
    buscar_licitacao db id = Some l ->
    valor_estimado (licitacao_colunas l) = Some est ->
    retorno (calculate_supplier_scores id db)
    = Sucesso id (List.length (propostas_de db l))
    /\ usuarios (banco (calculate_supplier_scores id db)) = usuarios db
    /\ licitacoes (banco (calculate_supplier_scores id db)) = licitacoes db
    /\ fornecedores (banco (calculate_supplier_scores id db))
       = fornecedores db
    /\ Forall2
         (fun p p' =>
            if da_licitacao id p
            then match buscar_fornecedor db (proposta_fornecedor_id p) with
                 | None => p' = p
                 | Some f =>
                     mesma_proposta p p'
                     /\ exists s,
                          pontuacao_ia p' = Some s
                          /\ s == score_spec
                                    (valor (proposta_colunas p))
                                    (prazo_entrega (proposta_colunas p))
                                    (avaliacao_media (fornecedor_colunas f))
                                    est
                 end
            else p' = p)
         (propostas db)
         (propostas (banco (calculate_supplier_scores id db))).
Proof.
  intros db id l est Hl Hest.
  pose proof (buscar_licitacao_id db id l Hl) as Hid.
  unfold calculate_supplier_scores. rewrite Hl.
  destruct l as [lid [ve] ca]; simpl in *. subst ve lid.
  destruct (laco_propostas_total db est (propostas_de db
              {| licitacao_id := id;
                 licitacao_colunas := {| valor_estimado := Some est |};
                 created_at := ca |}))
    as [novas Hn].
  rewrite Hn; simpl. repeat split.
  apply laco_propostas_pontuada in Hn. unfold propostas_de in Hn; simpl in Hn.
  apply regravar_Forall2 in Hn.
  revert Hn. apply Forall2_impl. intros p p'.
  destruct (da_licitacao id p); [|tauto].
  unfold pontuada.
  destruct (buscar_fornecedor db (proposta_fornecedor_id p)) as [f|];
    [|tauto].
  intros (s & Hs & ->). split; [apply mesma_proposta_com_pontuacao|].
  exists s. split; [reflexivity|].
  revert Hs. unfold pontuacao.
  destruct (preco_score_spec (proposta_colunas p) est) as (preco & E & Hp).
  rewrite E. intros [= <-]. rewrite Hp, prazo_score_spec.
  unfold score_spec, avaliacao_score, fator_avaliacao_spec,
    preco_peso, prazo_peso, avaliacao_peso. ring.
Qed.

Lemma calculate_supplier_scores_sucesso_witness :
  retorno (calculate_supplier_scores "L1" ExemploTarefa.banco_exemplo)
  = Sucesso "L1" 2.
Proof.
  destruct (calculate_supplier_scores_sucesso ExemploTarefa.banco_exemplo
              "L1" ExemploTarefa.licitacao_L1 100 eq_refl eq_refl)
    as [H _].
  exact H.
Defined.

Lemma banco_eq (db : Banco) (ps : list LinhaProposta) :
  ps = propostas db ->
  {| usuarios := usuarios db; licitacoes := licitacoes db;
     fornecedores := fornecedores db; propostas := ps |} = db.
Proof. intros ->. destruct db; reflexivity. Qed.

(** X23. When the bid exists and its estimated value is NULL, the database is
    left as it was, and the outcome depends on the proposals: if none of the
    bid's proposals has a supplier on record the task succeeds, otherwise it
    fails with the [TypeError] of comparing [None] with [0]. *)
Theorem calculate_supplier_scores_sem_estimativa :
  forall (db : Banco) (id : string) (l : LinhaLicitacao),
    buscar_licitacao db id = Some l ->
    valor_estimado (licitacao_colunas l) = None ->
    banco (calculate_supplier_scores id db) = db
    /\ ((Forall (fun p =>
                   buscar_fornecedor db (proposta_fornecedor_id p) = None)
                (propostas_de db l)
         /\ retorno (calculate_supplier_scores id db)
            = Sucesso id (List.length (propostas_de db l)))
        \/ (Exists (fun p =>
                      buscar_fornecedor db (proposta_fornecedor_id p) <> None)
                   (propostas_de db l)
            /\ retorno (calculate_supplier_scores id db)
               = Erro id TypeError)).
Proof.
  intros db id l Hl Hest.
  unfold calculate_supplier_scores. rewrite Hl.
  destruct l as [lid [ve] ca]; simpl in *. subst ve.
  match goal with |- context [laco_propostas db ?c ?ps] =>
    destruct (laco_propostas_sem_estimativa db ps) as [[Hf E]|[He E]];
    rewrite E; simpl end.
  - split; [|left; split; [exact Hf|reflexivity]].
    apply banco_eq. apply regravar_filter.
  - split; [reflexivity|right; split; [exact He|reflexivity]].
Qed.

Lemma calculate_supplier_scores_sem_estimativa_witness :
  retorno (calculate_supplier_scores "L2" ExemploTarefa.banco_exemplo)
  = Erro "L2" TypeError
  /\ banco (calculate_supplier_scores "L2" ExemploTarefa.banco_exemplo)
     = ExemploTarefa.banco_exemplo.
Proof.
  destruct (calculate_supplier_scores_sem_estimativa
              ExemploTarefa.banco_exemplo "L2" ExemploTarefa.licitacao_L2
              eq_refl eq_refl) as [Hb [[_ H]|[_ H]]].
  - discriminate H.
  - split; [exact H|exact Hb].
Defined.

Lemma Forall2_refl {A : Type} (R : A -> A -> Prop) :
  (forall a, R a a) -> forall l, Forall2 R l l.
Proof. intros H l. induction l; constructor; auto. Qed.

(** X24. Whatever the database and the id, of the tables and columns of
    the model the task writes nothing but [pontuacao_ia] of proposals of
    that bid: users, bids and suppliers are left as they were, every
    proposal keeps its place, its keys, its value and its delivery time, and
    every proposal of another bid is left as it was; when the task reports
    an error the whole database is left as it was, and a bid that is not
    found is reported as a [ValueError]. *)
Theorem calculate_supplier_scores_so_pontuacao :
  forall (db : Banco) (id : string),
    usuarios (banco (calculate_supplier_scores id db)) = usuarios db
    /\ licitacoes (banco (calculate_supplier_scores id db)) = licitacoes db
    /\ fornecedores (banco (calculate_supplier_scores id db))
       = fornecedores db
    /\ Forall2 (fun p p' =>
                  mesma_proposta p p'
                  /\ (da_licitacao id p = false -> p' = p))
               (propostas db)
               (propostas (banco (calculate_supplier_scores id db)))
    /\ (forall e, retorno (calculate_supplier_scores id db) = Erro id e ->
                  banco (calculate_supplier_scores id db) = db)
    /\ (buscar_licitacao db id = None ->
        retorno (calculate_supplier_scores id db) = Erro id ValueError).
Proof.
  intros db id.
  assert (Hrefl : Forall2 (fun p p' =>
                             mesma_proposta p p'
                             /\ (da_licitacao id p = false -> p' = p))
                          (propostas db) (propostas db)).
  { apply Forall2_refl. intros p. split; [apply mesma_proposta_refl|auto]. }
  unfold calculate_supplier_scores.
  destruct (buscar_licitacao db id) as [l|] eqn:Hl; simpl.
  2:{ repeat split; auto. }
  pose proof (buscar_licitacao_id db id l Hl) as Hid.
  destruct (laco_propostas db (licitacao_colunas l) (propostas_de db l))
    as [novas|e] eqn:Hn; simpl.
  2:{ repeat split; auto; discriminate. }
  repeat split; try discriminate.
  apply laco_propostas_pontuada in Hn. unfold propostas_de in Hn.
  rewrite Hid in *. apply regravar_Forall2 in Hn.
  revert Hn. apply Forall2_impl. intros p p'.
  destruct (da_licitacao id p).
  - intros H. split; [|discriminate].
    apply (pontuada_mesma db (licitacao_colunas l)), H.
  - intros ->. split; [apply mesma_proposta_refl|reflexivity].
Qed.

Lemma calculate_supplier_scores_so_pontuacao_witness :
  retorno (calculate_supplier_scores "L9" ExemploTarefa.banco_exemplo)
  = Erro "L9" ValueError
  /\ banco (calculate_supplier_scores "L9" ExemploTarefa.banco_exemplo)
     = ExemploTarefa.banco_exemplo.
Proof.
  destruct (calculate_supplier_scores_so_pontuacao
              ExemploTarefa.banco_exemplo "L9") as (_ & _ & _ & _ & H1 & H2).
  split; [exact (H2 eq_refl)|exact (H1 ValueError (H2 eq_refl))].
Defined.

(** X25. Scores are recomputed, not accumulated: running the task a second
    time for the same bid gives the same result and leaves the database as
    the first run left it. *)
Theorem calculate_supplier_scores_idempotente :
  forall (db : Banco) (id : string),
    retorno (calculate_supplier_scores id
               (banco (calculate_supplier_scores id db)))
    = retorno (calculate_supplier_scores id db)
    /\ banco (calculate_supplier_scores id
                (banco (calculate_supplier_scores id db)))
       = banco (calculate_supplier_scores id db).
Proof.
  intros db id.
  destruct (buscar_licitacao db id) as [l|] eqn:Hl.
  2:{ assert (E : banco (calculate_supplier_scores id db) = db)
        by (unfold calculate_supplier_scores; rewrite Hl; reflexivity).
      rewrite E. split; [reflexivity|exact E]. }
  destruct (laco_propostas db (licitacao_colunas l) (propostas_de db l))
    as [novas|e] eqn:Hn.
  2:{ assert (E : banco (calculate_supplier_scores id db) = db)
        by (unfold calculate_supplier_scores; rewrite Hl, Hn; reflexivity).
      rewrite E. split; [reflexivity|exact E]. }
  pose proof (laco_propostas_pontuada db (licitacao_colunas l) _ _ Hn) as Hp.
  assert (Hm : Forall2 mesma_proposta
                 (filter (da_licitacao (licitacao_id l)) (propostas db))
                 novas).
  { revert Hp. apply Forall2_impl. apply pontuada_mesma. }
  assert (E : calculate_supplier_scores id db
              = {| retorno := Sucesso id (List.length (propostas_de db l));
                   banco := {| usuarios := usuarios db;
                               licitacoes := licitacoes db;
                               fornecedores := fornecedores db;
                               propostas :=
                                 regravar (da_licitacao (licitacao_id l))
                                   (propostas db) novas |};
                   registro := [(Servico.INFO, MsgIniciandoCalculo id)]
                               ++ [(Servico.INFO, MsgCalculoConcluido id)] |})
    by (unfold calculate_supplier_scores; rewrite Hl, Hn; reflexivity).
  rewrite E. cbn [banco retorno].
  unfold calculate_supplier_scores, buscar_licitacao. cbn [licitacoes].
  fold (buscar_licitacao db id). rewrite Hl. cbv beta iota.
  unfold propostas_de. cbn [propostas fornecedores licitacoes].
  rewrite (filter_regravar (licitacao_id l) (propostas db) novas Hm).
  match goal with |- context [laco_propostas ?d _ _] =>
    rewrite (laco_propostas_fornecedores db d (licitacao_colunas l) eq_refl)
  end.
  rewrite (laco_propostas_de_novo db (licitacao_colunas l) _ novas Hn).
  cbn [banco retorno].
  rewrite (regravar_regravar (licitacao_id l) (propostas db) novas Hm).
  split; [|reflexivity].
  f_equal. symmetry. apply (Forall2_length Hm).
Qed.

End Propriedades_tarefa.

(** ** The retention task *)

Section Propriedades_limpeza.

Import Tarefa.

Local Open Scope nat_scope.

Lemma laco_anonimizar_spec (us : list LinhaUsuario) :
  forall n, laco_anonimizar us n = (map anonimizar us, n + List.length us).
Proof.
  induction us as [|u r IH]; intros n; simpl.
  - f_equal. lia.
  - rewrite IH. f_equal. lia.
Qed.

Lemma laco_excluir_spec (ls : list LinhaLicitacao) :
  forall n, laco_excluir ls n = (map licitacao_id ls, n + List.length ls).
Proof.
  induction ls as [|l r IH]; intros n; simpl.
  - f_equal. lia.
  - rewrite IH. f_equal. lia.
Qed.

Lemma regravar_map (A : Type) (sel : A -> bool) (f : A -> A) :
  forall tabela,
    regravar sel tabela (map f (filter sel tabela))
    = map (fun p => if sel p then f p else p) tabela.
Proof.
  induction tabela as [|p r IH]; simpl; [reflexivity|].
  destruct (sel p) eqn:E; simpl; rewrite IH; reflexivity.
Qed.

Lemma regravar_nil (A : Type) (sel : A -> bool) :
  forall tabela, regravar sel tabela [] = tabela.
Proof.
  induction tabela as [|p r IH]; simpl; [reflexivity|].
  destruct (sel p); rewrite IH; reflexivity.
Qed.

(** An anonymised user is not selected again, whatever the limit. *)
Lemma inativo_anonimizar (limite : Z) (u : LinhaUsuario) :
  inativo limite (anonimizar u) = false.
Proof. unfold inativo, anonimizar; simpl. now destruct (last_login u). Qed.

(** What the run makes of the users and of the bids. *)
Lemma data_retention_cleanup_eq (agora_1 agora_2 : Z) (db : Banco) :
  data_retention_cleanup agora_1 agora_2 db
  = {| retorno_limpeza :=
         SucessoLimpeza
           (List.length (filter (inativo (limite_anonimizacao agora_1))
                                (usuarios db)))
           (List.length (filter (antiga (limite_exclusao agora_2))
                                (licitacoes db)));
       banco_limpeza :=
         {| usuarios :=
              map (fun u => if inativo (limite_anonimizacao agora_1) u
                            then anonimizar u else u) (usuarios db);
            licitacoes :=
              filter (fun l =>
                        negb (excluida
                                (map licitacao_id
                                   (filter (antiga (limite_exclusao agora_2))
                                           (licitacoes db)))
                                (licitacao_id l)))
                     (licitacoes db);
            fornecedores := fornecedores db;
            propostas :=
              filter (fun p =>
                        negb (excluida
                                (map licitacao_id
                                   (filter (antiga (limite_exclusao agora_2))
                                           (licitacoes db)))
                                (proposta_licitacao_id p)))
                     (propostas db) |};
       registro_limpeza :=
         [(Servico.INFO, MsgIniciandoLimpeza);
          (Servico.INFO,
           MsgLimpezaConcluida
             (List.length (filter (inativo (limite_anonimizacao agora_1))
                                  (usuarios db)))
             (List.length (filter (antiga (limite_exclusao agora_2))
                                  (licitacoes db))))] |}.
Proof.
  unfold data_retention_cleanup.
  fold (limite_anonimizacao agora_1). fold (limite_exclusao agora_2).
  rewrite laco_anonimizar_spec, laco_excluir_spec, regravar_map.
  reflexivity.
Qed.

Lemma excluida_In (ids : list string) (id : string) :
  excluida ids id = true <-> In id ids.
Proof.
  unfold excluida. rewrite existsb_exists. split.
  - intros (x & Hx & E). apply String.eqb_eq in E. now subst.
  - intros H. exists id. split; [exact H|apply String.eqb_refl].
Qed.

Lemma excluida_antigas (limite : Z) (ls : list LinhaLicitacao) (id : string) :
  excluida (map licitacao_id (filter (antiga limite) ls)) id = true
  <-> exists l, In l ls /\ licitacao_id l = id /\ antiga limite l = true.
Proof.
  rewrite excluida_In, in_map_iff. split.
  - intros (l & E & H). apply filter_In in H. exists l. tauto.
  - intros (l & H & E & Ha). exists l. split; [exact E|].
    apply filter_In. tauto.
Qed.

Lemma NoDup_map_inj (A B : Type) (f : A -> B) (l : list A) (x y : A) :
  NoDup (map f l) -> In x l -> In y l -> f x = f y -> x = y.
Proof.
  induction l as [|a r IH]; simpl; [tauto|].
  intros H Hx Hy E. inversion H as [|? ? Hn Hr]; subst.
  destruct Hx as [->|Hx], Hy as [->|Hy]; auto.
  - exfalso. apply Hn. rewrite E. now apply in_map.
  - exfalso. apply Hn. rewrite <- E. now apply in_map.
Qed.

(** X26. The retention task anonymises, in place, exactly the users who
    are active and whose last login is before the limit of 180 days: their
    name and e-mail are replaced, they are made inactive, and id and last
    login are kept. Every other user is left as it was; in particular a
    user who never logged in is never anonymised, however old the account.
    After the run no user is both active and past the limit, and the count
    reported is the number of users anonymised. *)
Theorem data_retention_cleanup_anonimiza :
  forall (agora_1 agora_2 : Z) (db : Banco),
    let saida := data_retention_cleanup agora_1 agora_2 db in
    let limite := (agora_1 - timedelta_days 180)%Z in
    usuarios (banco_limpeza saida)
    = map (fun u => if inativo limite u then anonimizar u else u)
          (usuarios db)
    /\ Forall (fun u => inativo limite u = false)
              (usuarios (banco_limpeza saida))
    /\ (forall u, In u (usuarios db) -> last_login u = None ->
                  In u (usuarios (banco_limpeza saida)))
    /\ exists n,
         retorno_limpeza saida
         = SucessoLimpeza
             (List.length (filter (inativo limite) (usuarios db))) n.
Proof.
  intros agora_1 agora_2 db saida limite. unfold saida.
  rewrite data_retention_cleanup_eq. cbn [banco_limpeza retorno_limpeza
                                           usuarios].
  change (limite_anonimizacao agora_1) with limite.
  split; [reflexivity|]. split; [|split].
  - apply Forall_forall. intros u' Hu. apply in_map_iff in Hu.
    destruct Hu as (u & <- & _).
    destruct (inativo limite u) eqn:E; [apply inativo_anonimizar|exact E].
  - intros u Hu Hl. apply in_map_iff. exists u. split; [|exact Hu].
    unfold inativo. rewrite Hl. reflexivity.
  - eexists. reflexivity.
Qed.

Lemma data_retention_cleanup_anonimiza_witness :
  In {| usuario_id := "U2"; email := "rui@example.org"; nome := "Rui";
        is_active := Some true; last_login := None |}
     (usuarios (banco_limpeza
                  (data_retention_cleanup 200000000000000000
                     200000000000000000 ExemploTarefa.banco_exemplo)))
  /\ Forall (fun u => inativo (200000000000000000 - timedelta_days 180) u
                      = false)
            (usuarios (banco_limpeza
                         (data_retention_cleanup 200000000000000000
                            200000000000000000
                            ExemploTarefa.banco_exemplo))).
Proof.
  pose proof (data_retention_cleanup_anonimiza 200000000000000000
                200000000000000000 ExemploTarefa.banco_exemplo) as H.
  cbv zeta in H. destruct H as (_ & H2 & H3 & _).
  split; [|exact H2].
  apply H3; [right; left; reflexivity|reflexivity].
Defined.

(** X27. The retention task deletes exactly the bids created before the
    limit of 1825 days, and with them their proposals and no other: a
    proposal is left if and only if it was there and every bid it belongs
    to is kept. Suppliers are left as they were, and a database in which
    every proposal has its bid is still one after the run. *)
Theorem data_retention_cleanup_exclui :
  forall (agora_1 agora_2 : Z) (db : Banco),
    NoDup (map licitacao_id (licitacoes db)) ->
    let saida := data_retention_cleanup agora_1 agora_2 db in
    let limite := (agora_2 - timedelta_days 1825)%Z in
    licitacoes (banco_limpeza saida)
    = filter (fun l => negb (antiga limite l)) (licitacoes db)
    /\ (forall p,
          In p (propostas (banco_limpeza saida))
          <-> In p (propostas db)
              /\ forall l, In l (licitacoes db) ->
                           licitacao_id l = proposta_licitacao_id p ->
                           antiga limite l = false)
    /\ fornecedores (banco_limpeza saida) = fornecedores db
    /\ (integridade db -> integridade (banco_limpeza saida))
    /\ exists n,
         retorno_limpeza saida
         = SucessoLimpeza n
             (List.length (filter (antiga limite) (licitacoes db))).
Proof.
  intros agora_1 agora_2 db Hnd saida limite. unfold saida.
  rewrite data_retention_cleanup_eq.
  cbn [banco_limpeza retorno_limpeza licitacoes propostas fornecedores].
  change (limite_exclusao agora_2) with limite.
  assert (Hlic : filter (fun l =>
                           negb (excluida
                                   (map licitacao_id
                                      (filter (antiga limite) (licitacoes db)))
                                   (licitacao_id l))) (licitacoes db)
                 = filter (fun l => negb (antiga limite l)) (licitacoes db)).
  { apply filter_ext_in. intros l Hl. f_equal.
    destruct (antiga limite l) eqn:Ea.
    - apply excluida_antigas. exists l. auto.
    - destruct (excluida _ (licitacao_id l)) eqn:Ex; [|reflexivity].
      apply excluida_antigas in Ex. destruct Ex as (l2 & H2 & E & Ha).
      rewrite (NoDup_map_inj _ _ licitacao_id (licitacoes db) l2 l Hnd H2 Hl E)
        in Ha.
      congruence. }
  assert (Hprop : forall p,
             In p (filter (fun p =>
                             negb (excluida
                                     (map licitacao_id
                                        (filter (antiga limite)
                                                (licitacoes db)))
                                     (proposta_licitacao_id p)))
                          (propostas db))
             <-> In p (propostas db)
                 /\ forall l, In l (licitacoes db) ->
                              licitacao_id l = proposta_licitacao_id p ->
                              antiga limite l = false).
  { intros p. rewrite filter_In, negb_true_iff. split.
    - intros [Hp Hx]. split; [exact Hp|]. intros l Hl E.
      destruct (antiga limite l) eqn:Ea; [|reflexivity].
      assert (H : excluida (map licitacao_id
                              (filter (antiga limite) (licitacoes db)))
                           (proposta_licitacao_id p) = true)
        by (apply excluida_antigas; exists l; auto).
      congruence.
    - intros [Hp H]. split; [exact Hp|].
      destruct (excluida _ (proposta_licitacao_id p)) eqn:Ex; [|reflexivity].
      apply excluida_antigas in Ex. destruct Ex as (l & Hl & E & Ha).
      rewrite (H l Hl E) in Ha. discriminate. }
  split; [exact Hlic|]. split; [exact Hprop|]. split; [reflexivity|].
  split; [|eexists; reflexivity].
  intros Hint p Hp. cbn [propostas licitacoes] in *.
  apply Hprop in Hp. destruct Hp as [Hp Hk].
  destruct (Hint p Hp) as (l & Hl & E).
  exists l. split; [|exact E].
  rewrite Hlic. apply filter_In. split; [exact Hl|].
  rewrite (Hk l Hl E). reflexivity.
Qed.

Lemma data_retention_cleanup_exclui_witness :
  licitacoes (banco_limpeza
                (data_retention_cleanup 200000000000000000 200000000000000000
                   ExemploTarefa.banco_exemplo))
  = [ExemploTarefa.licitacao_L2].
Proof.
  destruct (data_retention_cleanup_exclui 200000000000000000
              200000000000000000 ExemploTarefa.banco_exemplo)
    as [H _].
  - repeat constructor; simpl; intuition discriminate.
  - exact H.
Defined.

(** X28. The retention task is a clean-up: run again on the database it
    left, with the same two readings of the clock, it anonymises no user,
    deletes no bid and changes nothing. *)
Theorem data_retention_cleanup_idempotente :
  forall (agora_1 agora_2 : Z) (db : Banco),
    let db' := banco_limpeza (data_retention_cleanup agora_1 agora_2 db) in
    retorno_limpeza (data_retention_cleanup agora_1 agora_2 db')
    = SucessoLimpeza 0 0
    /\ banco_limpeza (data_retention_cleanup agora_1 agora_2 db') = db'.
Proof.
  intros agora_1 agora_2 db db'.
  assert (Hu : filter (inativo (limite_anonimizacao agora_1)) (usuarios db')
               = []).
  { unfold db'. rewrite data_retention_cleanup_eq. cbn [banco_limpeza usuarios].
    induction (usuarios db) as [|u r IH]; simpl; [reflexivity|].
    destruct (inativo (limite_anonimizacao agora_1) u) eqn:E.
    - rewrite inativo_anonimizar. exact IH.
    - rewrite E. exact IH. }
  assert (Hl : filter (antiga (limite_exclusao agora_2)) (licitacoes db')
               = []).
  { unfold db'. rewrite data_retention_cleanup_eq.
    cbn [banco_limpeza licitacoes].
    set (ids := map licitacao_id
                  (filter (antiga (limite_exclusao agora_2)) (licitacoes db))).
    assert (Hids : forall l, In l (licitacoes db) ->
                     antiga (limite_exclusao agora_2) l = true ->
                     excluida ids (licitacao_id l) = true).
    { intros l Hl Ha. apply excluida_antigas. exists l. auto. }
    clearbody ids. revert Hids. generalize (licitacoes db) as L.
    induction L as [|l r IH]; intros Hids; simpl; [reflexivity|].
    destruct (excluida ids (licitacao_id l)) eqn:Ex; simpl.
    - apply IH. intros l2 H2. apply Hids. now right.
    - destruct (antiga (limite_exclusao agora_2) l) eqn:Ea.
      + rewrite (Hids l (or_introl eq_refl) Ea) in Ex. discriminate.
      + apply IH. intros l2 H2. apply Hids. now right. }
  rewrite data_retention_cleanup_eq, Hu, Hl. cbn [List.length map].
  split; [reflexivity|]. cbn [banco_limpeza].
  assert (Hmap : map (fun u => if inativo (limite_anonimizacao agora_1) u
                               then anonimizar u else u) (usuarios db')
                 = usuarios db').
  { rewrite <- (regravar_map LinhaUsuario
                  (inativo (limite_anonimizacao agora_1)) anonimizar).
    rewrite Hu. apply regravar_nil. }
  rewrite Hmap.
  assert (Hf : forall (A : Type) (l : list A),
             filter (fun _ => true) l = l).
  { intros A l. induction l as [|x r IH]; simpl; [|rewrite IH]; reflexivity. }
  unfold excluida. cbn [existsb negb]. rewrite !Hf.
  destruct db'; reflexivity.
Qed.

End Propriedades_limpeza.
